(** * pylinky: token scope resolution and response mapping

    A shallow embedding of [src/pylinky/client.py] (the part that extracts
    the PRM list of a JWT and selects the active PRM), of
    [src/pylinky/exceptions.py] and of [src/pylinky/models.py] (the mapping
    of a decoded JSON document to [MeteringData] and its two aggregates).

    Python objects that come out of a JSON document are values of [pyval];
    a [dict] is a finite map from strings; an exception is the [Raise] side
    of [result]. *)

From Stdlib Require Import ZArith String Ascii List Bool Lia.
From Stdlib Require Import SpecFloat DecimalString.
From stdpp Require Import base option list strings gmap.

#[local] Set Warnings "-register-all".

(** ** Python values *)

(** What [json.loads] can produce: [None], [bool], [int], [float], [str],
    [list] and [dict] with string keys. *)
Inductive pyval : Type :=
  | PNone
  | PBool (b : bool)
  | PInt (z : Z)
  | PFloat (f : spec_float)
  | PStr (s : string)
  | PList (l : list pyval)
  | PDict (d : gmap string pyval).

(** A computation that returns a value or raises. *)
Inductive result (E A : Type) : Type :=
  | Ok (a : A)
  | Raise (e : E).
Arguments Ok {E A} a.
Arguments Raise {E A} e.

#[export] Instance result_ret {E} : MRet (result E) := fun _ a => Ok a.
#[export] Instance result_bind {E} : MBind (result E) := fun _ _ k m =>
  match m with
  | Ok a => k a
  | Raise e => Raise e
  end.

Definition is_Ok {E A} (r : result E A) : Prop := ∃ a, r = Ok a.
Definition is_Raise {E A} (r : result E A) : Prop := ∃ e, r = Raise e.

(** Exceptions: the built-in ones the code can let through, the two of
    [exceptions.py] the resolver raises, [InvalidTokenError] with its
    message and [PRMAccessError] with its attribute [prm], and an
    exception of PyJWT that the resolver does not catch, with its text. *)
Inductive exn : Type :=
  | KeyError (key : string)
  | IndexError
  | ValueError
  | TypeError
  | AttributeError
  | ZeroDivisionError
  | OverflowError
  | InvalidTokenError (message : string)
  | PRMAccessError (prm : string)
  | PyJWTError (message : string).

(** [bool(v)]: the truth value tested by [if not v]. *)
Definition truthy (v : pyval) : bool :=
  match v with
  | PNone => false
  | PBool b => b
  | PInt z => negb (z =? 0)%Z
  | PFloat (S754_zero _) => false
  | PFloat _ => true
  | PStr s => negb (String.eqb s "")
  | PList l => negb (Nat.eqb (length l) 0)
  | PDict d => negb (Nat.eqb (size d) 0)
  end.

(** [d.get(k)]: the value, [None] when the key is absent. *)
Definition dict_get (d : gmap string pyval) (k : string) : pyval :=
  default PNone (d !! k).

(** [d.get(k, dflt)]. *)
Definition dict_get_default (d : gmap string pyval) (k : string) (dflt : pyval) : pyval :=
  default dflt (d !! k).

(** [d[k]] on a dict. *)
Definition dict_getitem (d : gmap string pyval) (k : string) : result exn pyval :=
  match d !! k with
  | Some v => Ok v
  | None => Raise (KeyError k)
  end.

(** [v[k]] with a string key on any value: only a dict can be indexed by a
    string; lists and strings want integers, the rest is not subscriptable. *)
Definition getitem (v : pyval) (k : string) : result exn pyval :=
  match v with
  | PDict d => dict_getitem d k
  | _ => Raise TypeError
  end.

(** ** Strings

    A [str] is kept as the bytes of its UTF-8 text: the one-character
    tests and the replacement of the mapper are on ASCII characters, which
    UTF-8 keeps apart from every other character. *)

Definition chars (s : string) : list ascii := list_ascii_of_string s.

(** [c in s] for a one-character [c]. *)
Definition str_contains (c : ascii) (s : string) : bool :=
  existsb (Ascii.eqb c) (chars s).

(** [s.replace(a, b)] for one-character [a] and [b]: every occurrence. *)
Definition str_replace (a b : ascii) (s : string) : string :=
  string_of_list_ascii (map (fun c => if Ascii.eqb c a then b else c) (chars s)).

Definition is_digit (c : ascii) : bool :=
  (48 <=? nat_of_ascii c)%nat && (nat_of_ascii c <=? 57)%nat.

Definition digit_val (c : ascii) : Z := Z.of_nat (nat_of_ascii c) - 48.

(** [int(f)] for a float: truncation towards zero; not a number and the
    infinities have no integer. *)
Definition int_of_float (f : spec_float) : result exn Z :=
  match f with
  | S754_zero _ => Ok 0%Z
  | S754_nan => Raise ValueError
  | S754_infinity _ => Raise OverflowError
  | S754_finite s m e =>
      let a := match e with
               | Z.neg p => Z.shiftr (Z.pos m) (Z.pos p)
               | _ => Z.shiftl (Z.pos m) e
               end in
      Ok (if s then - a else a)%Z
  end.

(** ** Calendar dates and date-times

    [datetime.date] and [datetime.datetime] of the standard library. *)

Record date : Type := mk_date { year : Z; month : Z; day : Z }.

Record datetime : Type := mk_datetime {
  dt_date : date;
  hour : Z;
  minute : Z;
  second : Z;
  microsecond : Z;
  tzinfo : option Z  (* the offset from UTC in microseconds, when aware *)
}.

(** The [date | datetime] of [IntervalReading.date]. *)
Inductive date_or_datetime : Type :=
  | DateOnly (d : date)
  | DateTime (dt : datetime).

Definition is_leap (y : Z) : bool :=
  ((y mod 4 =? 0) && (negb (y mod 100 =? 0) || (y mod 400 =? 0)))%Z.

Definition days_in_month (y m : Z) : Z :=
  if (m =? 2)%Z then (if is_leap y then 29 else 28)%Z
  else if ((m =? 4) || (m =? 6) || (m =? 9) || (m =? 11))%Z then 30%Z
  else 31%Z.

(** [date(y, m, d)]: the range checks of the constructor. *)
Definition date_new (y m d : Z) : option date :=
  if ((1 <=? y) && (y <=? 9999) && (1 <=? m) && (m <=? 12)
      && (1 <=? d) && (d <=? days_in_month y m))%Z
  then Some (mk_date y m d) else None.

(** A date the constructor of [date] accepts. *)
Definition valid_date (d : date) : Prop := date_new (year d) (month d) (day d) = Some d.

(** A time of day the constructor of [datetime] accepts, in whole
    seconds. *)
Definition valid_time (h mi s : Z) : Prop :=
  (0 ≤ h < 24 ∧ 0 ≤ mi < 60 ∧ 0 ≤ s < 60)%Z.

(** [d.isoformat()] for a date: four digits, two digits, two digits. *)
Definition digit_char (k : Z) : ascii := ascii_of_nat (48 + Z.to_nat k).
Arguments digit_char : simpl never.

Definition digits2 (n : Z) : list ascii :=
  [digit_char (n / 10 mod 10); digit_char (n mod 10)]%Z.

Definition digits4 (n : Z) : list ascii :=
  [digit_char (n / 1000 mod 10); digit_char (n / 100 mod 10);
   digit_char (n / 10 mod 10); digit_char (n mod 10)]%Z.

Definition date_isoformat (d : date) : string :=
  string_of_list_ascii
    (digits4 (year d) ++ "-"%char :: digits2 (month d) ++ "-"%char :: digits2 (day d)).

(** The time of [dt.isoformat()] for whole seconds: [HH:MM:SS]. *)
Definition time_isoformat (h mi s : Z) : string :=
  string_of_list_ascii (digits2 h ++ ":"%char :: digits2 mi ++ ":"%char :: digits2 s).

(** A decimal literal written with the digits [ds], and the number it
    writes. *)
Definition decimal (ds : list Z) : string := string_of_list_ascii (map digit_char ds).

Definition decimal_value (ds : list Z) : Z := fold_left (λ acc d, acc * 10 + d)%Z ds 0%Z.

(** ** The parsers of the standard library

    [int], [date.fromisoformat] and [datetime.fromisoformat] on a [str] are
    code of the interpreter, not of this package, and what they accept
    depends on its version (white space and digits of Unicode, the length
    limit of [int], the ISO 8601 forms [fromisoformat] reads since 3.11).
    The mapper is modelled over any such three functions: each returns a
    value or raises [ValueError]. *)
Class PyStdlib : Type := {
  stdlib_int : string → option Z;
  stdlib_date_fromisoformat : string → option date;
  stdlib_datetime_fromisoformat : string → option datetime
}.

(** [int(s)] for a string. *)
Definition int_of_str {stdlib : PyStdlib} (s : string) : result exn Z :=
  match stdlib_int s with
  | Some z => Ok z
  | None => Raise ValueError
  end.

(** [date.fromisoformat(s)] for a string. *)
Definition date_fromisoformat {stdlib : PyStdlib} (s : string) : result exn date :=
  match stdlib_date_fromisoformat s with
  | Some d => Ok d
  | None => Raise ValueError
  end.

(** [datetime.fromisoformat(s)] for a string. *)
Definition datetime_fromisoformat {stdlib : PyStdlib} (s : string) : result exn datetime :=
  match stdlib_datetime_fromisoformat s with
  | Some dt => Ok dt
  | None => Raise ValueError
  end.

(** What every version of the interpreter does, by the documentation of
    the three functions: [int] reads a plain decimal literal of ASCII
    digits (up to 640 of them whatever the configured limit),
    [date.fromisoformat] is the inverse of [date.isoformat], and
    [datetime.fromisoformat] reads back the [isoformat] of a date-time in
    whole seconds without time zone. *)
Class StdlibLaws (stdlib : PyStdlib) : Prop := {
  int_of_decimal (ds : list Z) :
    ds ≠ [] → length ds ≤ 640 → Forall (λ d, 0 ≤ d ≤ 9)%Z ds →
    int_of_str (decimal ds) = Ok (decimal_value ds);
  date_fromisoformat_isoformat (d : date) :
    valid_date d → date_fromisoformat (date_isoformat d) = Ok d;
  datetime_fromisoformat_isoformat (d : date) (h mi s : Z) :
    valid_date d → valid_time h mi s →
    datetime_fromisoformat (date_isoformat d +:+ "T" +:+ time_isoformat h mi s)
    = Ok (mk_datetime d h mi s 0 None)
}.

(** *** A standard library for the examples

    It reads the canonical texts, which every version reads with this
    result, and refuses everything else: a literal of at most 640 ASCII
    digits with an optional minus sign, [YYYY-MM-DD], and [YYYY-MM-DD]
    alone or followed by [THH:MM:SS]. *)

(** Exactly [n] decimal digits at the head of [cs]. *)
Fixpoint take_digits (n : nat) (acc : Z) (cs : list ascii) : option (Z * list ascii) :=
  match n with
  | O => Some (acc, cs)
  | S n' =>
      match cs with
      | c :: cs' =>
          if is_digit c then take_digits n' (acc * 10 + digit_val c)%Z cs' else None
      | [] => None
      end
  end.

(** One given character at the head of [cs]. *)
Definition take_char (c : ascii) (cs : list ascii) : option (list ascii) :=
  match cs with
  | c' :: cs' => if Ascii.eqb c c' then Some cs' else None
  | [] => None
  end.

(** [YYYY-MM-DD] at the head of [cs]. *)
Definition parse_isoformat_date (cs : list ascii) : option (date * list ascii) :=
  '(y, cs) ← take_digits 4 0 cs;
  cs ← take_char "-" cs;
  '(m, cs) ← take_digits 2 0 cs;
  cs ← take_char "-" cs;
  '(d, cs) ← take_digits 2 0 cs;
  dt ← date_new y m d;
  Some (dt, cs).

(** [HH:MM:SS] at the head of [cs]. *)
Definition parse_hh_mm_ss (cs : list ascii) : option (Z * Z * Z * list ascii) :=
  '(h, cs) ← take_digits 2 0 cs;
  cs ← take_char ":" cs;
  '(mi, cs) ← take_digits 2 0 cs;
  cs ← take_char ":" cs;
  '(s, cs) ← take_digits 2 0 cs;
  Some (h, mi, s, cs).

Definition time_in_range (h mi s : Z) : bool :=
  ((h <? 24) && (mi <? 60) && (s <? 60))%Z.

Definition strict_date_fromisoformat (s : string) : option date :=
  match parse_isoformat_date (chars s) with
  | Some (d, []) => Some d
  | _ => None
  end.

Definition strict_datetime_fromisoformat (s : string) : option datetime :=
  match parse_isoformat_date (chars s) with
  | Some (d, []) => Some (mk_datetime d 0 0 0 0 None)
  | Some (d, sep :: cs) =>
      if Ascii.eqb sep "T" then
        match parse_hh_mm_ss cs with
        | Some (h, mi, sec, []) =>
            if time_in_range h mi sec then Some (mk_datetime d h mi sec 0 None) else None
        | _ => None
        end
      else None
  | None => None
  end.

(** The number a list of ASCII digits writes. *)
Fixpoint decimal_digits (acc : Z) (cs : list ascii) : option Z :=
  match cs with
  | [] => Some acc
  | c :: cs' => if is_digit c then decimal_digits (acc * 10 + digit_val c)%Z cs' else None
  end.

Definition unsigned_decimal (cs : list ascii) : option Z :=
  match cs with
  | [] => None
  | _ => if (length cs <=? 640)%nat then decimal_digits 0 cs else None
  end.

Definition strict_int (s : string) : option Z :=
  match chars s with
  | "-"%char :: ds => Z.opp <$> unsigned_decimal ds
  | ds => unsigned_decimal ds
  end.

Definition strict_stdlib : PyStdlib := {|
  stdlib_int := strict_int;
  stdlib_date_fromisoformat := strict_date_fromisoformat;
  stdlib_datetime_fromisoformat := strict_datetime_fromisoformat
|}.

(** ** Built-in functions on any value *)

(** [int(v)]. *)
Definition py_int {stdlib : PyStdlib} (v : pyval) : result exn Z :=
  match v with
  | PInt z => Ok z
  | PBool b => Ok (if b then 1 else 0)%Z
  | PFloat f => int_of_float f
  | PStr s => int_of_str s
  | PNone | PList _ | PDict _ => Raise TypeError
  end.

(** [date.fromisoformat(v)] on any value: the argument must be a [str]. *)
Definition py_date_fromisoformat {stdlib : PyStdlib} (v : pyval) : result exn date :=
  match v with
  | PStr s => date_fromisoformat s
  | _ => Raise TypeError
  end.

(** ** Operations of the values the mapper applies to untyped input *)

#[export] Instance result_fmap {E} : FMap (result E) := fun _ _ f m =>
  match m with
  | Ok a => Ok (f a)
  | Raise e => Raise e
  end.

(** [s == v] for a string [s]: only an equal string is equal to it. *)
Definition str_eq (s : string) (v : pyval) : bool :=
  match v with
  | PStr s' => String.eqb s s'
  | _ => false
  end.

(** [s in l] for a list [l]. *)
Definition str_in_list (s : string) (l : list pyval) : bool := existsb (str_eq s) l.

Definition str1 (c : ascii) : string := String c EmptyString.

(** [c in v] for a one-character string [c]: a substring test on a
    string, membership on a list, a key test on a dict. *)
Definition py_contains (c : ascii) (v : pyval) : result exn bool :=
  match v with
  | PStr s => Ok (str_contains c s)
  | PList l => Ok (str_in_list (str1 c) l)
  | PDict d => Ok (bool_decide (is_Some (d !! str1 c)))
  | _ => Raise TypeError
  end.

(** [v.replace(a, b)]: a method of [str] only. *)
Definition py_replace (a b : ascii) (v : pyval) : result exn pyval :=
  match v with
  | PStr s => Ok (PStr (str_replace a b s))
  | _ => Raise AttributeError
  end.

(** [datetime.fromisoformat(v)] on any value. *)
Definition py_datetime_fromisoformat {stdlib : PyStdlib} (v : pyval) : result exn datetime :=
  match v with
  | PStr s => datetime_fromisoformat s
  | _ => Raise TypeError
  end.

(** [v.get(k)] and [v.get(k, dflt)]: methods of [dict] only. *)
Definition py_get (v : pyval) (k : string) : result exn pyval :=
  match v with
  | PDict d => Ok (dict_get d k)
  | _ => Raise AttributeError
  end.

Definition py_get_default (v : pyval) (k : string) (dflt : pyval) : result exn pyval :=
  match v with
  | PDict d => Ok (dict_get_default d k dflt)
  | _ => Raise AttributeError
  end.

(** [for r in v]: the elements of a list, the characters of a string, the
    keys of a dict. *)
Definition py_iter (v : pyval) : result exn (list pyval) :=
  match v with
  | PList l => Ok l
  | PStr s => Ok (map (fun c => PStr (str1 c)) (chars s))
  | PDict d => Ok (map (fun kv => PStr (fst kv)) (map_to_list d))
  | _ => Raise TypeError
  end.

(** [tuple(f(r) for r in l)]: left to right, the first exception ends it. *)
Fixpoint tuple_of {A} (f : pyval → result exn A) (l : list pyval)
    : result exn (list A) :=
  match l with
  | [] => Ok []
  | r :: l' => a ← f r; rest ← tuple_of f l'; Ok (a :: rest)
  end.

(** ** True division of integers

    [a / b] on two [int]s is the binary64 float nearest to the exact
    quotient, ties going to the even significand, whatever the size of the
    integers; it raises [ZeroDivisionError] for a zero divisor and
    [OverflowError] when that float would be beyond the largest one.  A
    float is a [spec_float] of the standard library: sign, significand and
    exponent, the significand below [2^53] and the exponent from [-1074]
    to [971]. *)

(** The integer nearest to [n / d], the even one of two equally near. *)
Definition round_div (n d : Z) : Z :=
  let q := (n / d)%Z in
  let r := (n mod d)%Z in
  if (2 * r <? d)%Z then q
  else if (d <? 2 * r)%Z then (q + 1)%Z
  else if Z.even q then q else (q + 1)%Z.

(** The [e] with [2^e <= n / d < 2^(e+1)]. *)
Definition quotient_log2 (n d : Z) : Z :=
  let e := (Z.log2 n - Z.log2 d)%Z in
  if (n <? d * 2 ^ e)%Z then (e - 1)%Z else e.

(** The exponent at which [n / d] has 53 significant bits, and 0 for the
    quotients below [2^53]. *)
Definition div_exponent (n d : Z) : Z := Z.max 0 (quotient_log2 n d - 52).

(** [n / d] rounded to 53 bits: significand and exponent; a significand
    that rounds up to [2^53] takes the next exponent. *)
Definition div_round (n d : Z) : Z * Z :=
  let k := div_exponent n d in
  let m := round_div n (d * 2 ^ k) in
  if (m =? 2 ^ 53)%Z then (2 ^ 52, k + 1)%Z else (m, k).

(** [a / b]: the quotient is rounded in units of [2^-1074], the least
    positive float. *)
Definition truediv (a b : Z) : result exn spec_float :=
  if (b =? 0)%Z then Raise ZeroDivisionError
  else
    let sign := xorb (a <? 0)%Z (b <? 0)%Z in
    let '(m, k) := div_round (Z.abs a * 2 ^ 1074) (Z.abs b) in
    if (m =? 0)%Z then Ok (S754_zero sign)
    else if (2045 <? k)%Z then Raise OverflowError
    else Ok (S754_finite sign (Z.to_pos m) (k - 1074)).

(** The least magnitude that rounds beyond the largest float:
    [2^1024 - 2^970]. *)
Definition float_overflow_bound : Z := (2 ^ 1024 - 2 ^ 970)%Z.

(** The value of a float in units of [2^-1074], an integer; none for the
    infinities and not a number. *)
Definition scaled (f : spec_float) : option Z :=
  match f with
  | S754_zero _ => Some 0%Z
  | S754_finite s m e => Some ((if s then - Z.pos m else Z.pos m) * 2 ^ (e + 1074))%Z
  | _ => None
  end.

(** The unit in the last place of a float, in units of [2^-1074]. *)
Definition ulp_scaled (f : spec_float) : Z :=
  match f with
  | S754_finite _ _ e => (2 ^ (e + 1074))%Z
  | _ => 1%Z
  end.

(** A zero or a finite number in the form binary64 stores it. *)
Definition is_binary64 (f : spec_float) : Prop :=
  match f with
  | S754_zero _ => True
  | S754_finite _ m e => bounded 53 1024 m e = true
  | _ => False
  end.

Definition sign_bit (f : spec_float) : option bool :=
  match f with
  | S754_zero s | S754_finite s _ _ => Some s
  | _ => None
  end.

(** The quotient of two integers taken as floats with exponent 0, by the
    division of the standard library's specification of IEEE 754. *)
Definition SFdiv_of_integers (a b : Z) : spec_float :=
  SFdiv 53 1024 (S754_finite (a <? 0)%Z (Z.to_pos (Z.abs a)) 0)
    (S754_finite (b <? 0)%Z (Z.to_pos (Z.abs b)) 0).

(** A float as the result of an operation of Python: an infinity is an
    [OverflowError]. *)
Definition float_result (f : spec_float) : result exn spec_float :=
  match f with
  | S754_infinity _ => Raise OverflowError
  | _ => Ok f
  end.

Definition division_samples : list (Z * Z) :=
  [(2 ^ 53 + 1, 1); (4, 3); (38997, 3); (-7, 2); (1, 3); (-1, 3);
   (2 ^ 54 + 2, 1); (2 ^ 54 + 6, 1); (1, 2 ^ 1074); (3, 2 ^ 1075);
   (10, 3 * 2 ^ 1070); (2 ^ 1024 - 2 ^ 970 - 1, 1); (2 ^ 1024 - 2 ^ 970, 1);
   (2 ^ 1024, 1); (- 2 ^ 1030, 3)]%Z.

(** ** models.py *)

Inductive MeasurementKind : Type := ENERGY | POWER.

Inductive Aggregate : Type := SUM | AVERAGE | MAXIMUM.

(** [MeasurementKind(v)]: the member whose value is [v]. *)
Definition MeasurementKind_of (v : pyval) : result exn MeasurementKind :=
  if str_eq "energy" v then Ok ENERGY
  else if str_eq "power" v then Ok POWER
  else Raise ValueError.

(** [Aggregate(v)]. *)
Definition Aggregate_of (v : pyval) : result exn Aggregate :=
  if str_eq "sum" v then Ok SUM
  else if str_eq "average" v then Ok AVERAGE
  else if str_eq "maximum" v then Ok MAXIMUM
  else Raise ValueError.

Module ReadingType.

(** A dataclass does not check its annotations: [unit] and
    [measuring_period] hold whatever the document had. *)
Record t : Type := mk {
  unit : pyval;
  measurement_kind : MeasurementKind;
  aggregate : Aggregate;
  measuring_period : pyval
}.

End ReadingType.

Module IntervalReading.

Record t : Type := mk {
  value : Z;
  date : date_or_datetime;
  interval_length : pyval;
  measure_type : pyval
}.

Definition from_dict {stdlib : PyStdlib} (data : pyval) : result exn t :=
  date_str ← getitem data "date";
  has_T ← py_contains "T" date_str;
  has_sep ← (if has_T : bool then Ok true else py_contains " " date_str);
  parsed_date ←
    (if has_sep : bool then
       replaced ← py_replace " " "T" date_str;
       DateTime <$> py_datetime_fromisoformat replaced
     else DateOnly <$> py_date_fromisoformat date_str);
  raw ← getitem data "value";
  v ← py_int raw;
  il ← py_get data "interval_length";
  mt ← py_get data "measure_type";
  Ok (mk v parsed_date il mt).

End IntervalReading.

Module MeteringData.

Record t : Type := mk {
  usage_point_id : pyval;
  start : date;
  end_ : date;
  quality : pyval;
  reading_type : ReadingType.t;
  interval_reading : list IntervalReading.t
}.

Definition from_dict {stdlib : PyStdlib} (data : pyval) : result exn t :=
  reading_type_data ← getitem data "reading_type";
  u ← getitem reading_type_data "unit";
  mk_raw ← getitem reading_type_data "measurement_kind";
  mk_ ← MeasurementKind_of mk_raw;
  ag_raw ← getitem reading_type_data "aggregate";
  ag ← Aggregate_of ag_raw;
  mp ← py_get reading_type_data "measuring_period";
  let rt := ReadingType.mk u mk_ ag mp in
  src ← py_get_default data "interval_reading" (PList []);
  rs ← py_iter src;
  readings ← tuple_of IntervalReading.from_dict rs;
  upi ← getitem data "usage_point_id";
  start_raw ← getitem data "start";
  st ← py_date_fromisoformat start_raw;
  end_raw ← getitem data "end";
  en ← py_date_fromisoformat end_raw;
  q ← getitem data "quality";
  Ok (mk upi st en q rt readings).

(** [sum(r.value for r in self.interval_reading)]: from 0, left to right. *)
Definition total (self : t) : Z :=
  fold_left Z.add (map IntervalReading.value (interval_reading self)) 0%Z.

Definition average (self : t) : result exn spec_float :=
  if Nat.eqb (length (interval_reading self)) 0 then Ok (S754_zero false)
  else truediv (total self) (Z.of_nat (length (interval_reading self))).

End MeteringData.

(** ** exceptions.py *)

(** [PyLinkyError] is the base class of the library's own exceptions. *)
Definition is_PyLinkyError (e : exn) : bool :=
  match e with
  | InvalidTokenError _ | PRMAccessError _ => true
  | _ => false
  end.

(** The attribute [prm] of a [PRMAccessError]. *)
Definition PRMAccessError_prm (e : exn) : string :=
  match e with
  | PRMAccessError prm => prm
  | _ => ""
  end.

(** [str(e)] for them: the message given to [Exception.__init__]. *)
Definition error_message (e : exn) : option string :=
  match e with
  | InvalidTokenError message => Some message
  | PRMAccessError prm => Some ("Token does not grant access to PRM " +:+ prm)
  | _ => None
  end.

(** ** List objects

    A Python list is an object with an identity: two names for one list see
    each other's changes.  The heap maps the identity of a list to its
    present content. *)

Abbreviation loc := positive.
Abbreviation heap := (gmap positive (list pyval)).

(** A new list object with content [xs]. *)
Definition alloc (xs : list pyval) (h : heap) : loc * heap :=
  let l := fresh (dom h) in (l, <[l := xs]> h).

(** [l.copy()]: a new list object with the present content of [l]. *)
Definition list_copy (l : loc) (h : heap) : option (loc * heap) :=
  xs ← h !! l; Some (alloc xs h).

(** Any in-place change of the list [l] ([append], [clear], [l[i] = v],
    [del l[i]], [sort], ...), given by what it makes of the content. *)
Definition mutate (l : loc) (f : list pyval → list pyval) (h : heap) : heap :=
  alter f l h.

Definition list_append (v : pyval) : list pyval → list pyval := fun xs => xs ++ [v].
Definition list_clear : list pyval → list pyval := fun _ => [].
Definition list_setitem (i : nat) (v : pyval) : list pyval → list pyval := fun xs => <[i := v]> xs.

(** ** client.py *)

(** How [jwt.decode] can fail: with [jwt.DecodeError], the one exception
    the resolver catches, or with another exception of PyJWT; each with
    its text. *)
Inductive jwt_failure : Type :=
  | DecodeError (message : string)
  | OtherJwtError (message : string).

(** [jwt.decode(token, options={"verify_signature": False})] of PyJWT: the
    claims of the token, a dict, or one of its exceptions. *)
Class JwtDecode : Type :=
  jwt_decode : string → result jwt_failure (gmap string pyval).

Definition _extract_prms `{JwtDecode} (token : string) : result exn (list pyval) :=
  match jwt_decode token with
  | Raise (DecodeError e) => Raise (InvalidTokenError ("Cannot decode token: " +:+ e))
  | Raise (OtherJwtError e) => Raise (PyJWTError e)
  | Ok payload =>
      let sub := dict_get payload "sub" in
      if negb (truthy sub) then Raise (InvalidTokenError "Token has no 'sub' claim")
      else
        prms ← match sub with
               | PStr _ => Ok [sub]
               | PList l => Ok l
               | _ => Raise (InvalidTokenError "Token 'sub' claim is not a string or list")
               end;
        if negb (truthy (PList prms)) then Raise (InvalidTokenError "Token contains no PRMs")
        else Ok prms
  end.

Module LinkyClient.

(** The attributes the resolver sets; [_prms] names a list object. *)
Record t : Type := mk {
  _token : string;
  _prms : loc;
  _prm : pyval
}.

Definition __init__ `{JwtDecode} (token : string) (prm : option string) (h : heap)
    : result exn (t * heap) :=
  prms ← _extract_prms token;
  let '(l, h') := alloc prms h in
  match prm with
  | Some p =>
      if negb (str_in_list p prms) then Raise (PRMAccessError p)
      else Ok (mk token l (PStr p), h')
  | None =>
      match prms with
      | first :: _ => Ok (mk token l first, h')
      | [] => Raise IndexError
      end
  end.

(** The property [prm]. *)
Definition prm (self : t) : pyval := _prm self.

(** The property [prms]: [self._prms.copy()]. *)
Definition prms (self : t) (h : heap) : option (loc * heap) :=
  list_copy (_prms self) h.

End LinkyClient.

(** What a holder of the client can do with the lists the accessor gave
    it: call the accessor again, or change one of those lists in place. *)
Inductive caller_step (c : LinkyClient.t) : heap * list loc → heap * list loc → Prop :=
  | step_prms h ls l h' :
      LinkyClient.prms c h = Some (l, h') →
      caller_step c (h, ls) (h', l :: ls)
  | step_mutate h ls l f :
      l ∈ ls →
      caller_step c (h, ls) (mutate l f h, ls).

(** What the caller's steps keep: the content of the client's own list,
    which is none of the lists the caller holds. *)
Definition scope_kept (c : LinkyClient.t) (xs : list pyval) (st : heap * list loc) : Prop :=
  st.1 !! LinkyClient._prms c = Some xs ∧ LinkyClient._prms c ∉ st.2.

(** Every list the caller holds is on the heap. *)
Definition held_allocated (st : heap * list loc) : Prop :=
  ∀ x, x ∈ st.2 → is_Some (st.1 !! x).

(** ** Sample documents and tokens (those of the test suite) *)

Definition dict (kvs : list (string * pyval)) : gmap string pyval := list_to_map kvs.

Definition reading (kvs : list (string * pyval)) : pyval := PDict (dict kvs).

Definition daily_consumption_dict : gmap string pyval :=
  dict [
    ("usage_point_id", PStr "12345678901234");
    ("start", PStr "2024-01-01");
    ("end", PStr "2024-01-04");
    ("quality", PStr "BRUT");
    ("reading_type", PDict (dict [
        ("unit", PStr "Wh");
        ("measurement_kind", PStr "energy");
        ("aggregate", PStr "sum");
        ("measuring_period", PStr "P1D")]));
    ("interval_reading", PList [
        reading [("value", PStr "11776"); ("date", PStr "2024-01-01")];
        reading [("value", PStr "14401"); ("date", PStr "2024-01-02")];
        reading [("value", PStr "12820"); ("date", PStr "2024-01-03")]])
  ].

Definition daily_consumption_response : pyval := PDict daily_consumption_dict.

(** The same document with the key [unit] of [reading_type] left out. *)
Definition dict_without_unit : gmap string pyval :=
  dict [
    ("usage_point_id", PStr "12345678901234");
    ("start", PStr "2024-01-01");
    ("end", PStr "2024-01-04");
    ("quality", PStr "BRUT");
    ("reading_type", PDict (dict [
        ("measurement_kind", PStr "energy");
        ("aggregate", PStr "sum")]));
    ("interval_reading", PList [])
  ].

Definition response_without_unit : pyval := PDict dict_without_unit.

(** A decoder given by a table from tokens to claims; any other string is
    not a token. *)
Definition table_decode (tbl : list (string * list (string * pyval))) : JwtDecode :=
  fun token =>
    match (list_to_map tbl : gmap string (list (string * pyval))) !! token with
    | Some claims => Ok (dict claims)
    | None => Raise (DecodeError "Not enough segments")
    end.

(** The tokens of the tests and a few more; one of them makes the decoder
    raise an exception that is not a [DecodeError]. *)
Definition sample_tokens : JwtDecode :=
  fun token =>
    if String.eqb token "other_error_token"
    then Raise (OtherJwtError "Subject must be a string")
    else
      table_decode [
        ("single_prm_token", [("sub", PStr "12345678901234")]);
        ("multi_prm_token", [("sub", PList [PStr "12345678901234"; PStr "98765432109876"])]);
        ("empty_sub_token", [("sub", PStr "")]);
        ("empty_list_token", [("sub", PList [])]);
        ("numbers_token", [("sub", PList [PInt 1; PInt 2])]);
        ("no_sub_token", [("foo", PStr "bar")])
      ] token.

(** ** exceptions.py: the errors of the API *)

Inductive api_class : Type :=
  | Cls_APIError
  | Cls_AuthenticationError
  | Cls_BadRequestError
  | Cls_ServerError.

(** An instance of [APIError] or of one of its subclasses: its class, its
    attributes [status_code] and [response_body], and the part of its
    message that follows ["API error <status_code>"], if any. *)
Record api_error : Type := mk_api_error {
  error_class : api_class;
  error_status_code : Z;
  error_detail : option pyval;
  error_response_body : pyval
}.

(** [a or b]. *)
Definition py_or (a b : pyval) : pyval := if truthy a then a else b.

(** [APIError.__init__] for an instance of class [cls]: the detail is
    there when [message] is truthy. *)
Definition APIError_init (cls : api_class) (status_code : Z) (message response_body : pyval)
    : api_error :=
  mk_api_error cls status_code (if truthy message then Some message else None) response_body.

Definition APIError (status_code : Z) (message response_body : pyval) : api_error :=
  APIError_init Cls_APIError status_code message response_body.

Definition AuthenticationError (message response_body : pyval) : api_error :=
  APIError_init Cls_AuthenticationError 401
    (py_or message (PStr "Authentication failed")) response_body.

Definition BadRequestError (message response_body : pyval) : api_error :=
  APIError_init Cls_BadRequestError 400 (py_or message (PStr "Bad request")) response_body.

Definition ServerError (status_code : Z) (message response_body : pyval) : api_error :=
  APIError_init Cls_ServerError status_code (py_or message (PStr "Server error")) response_body.

(** [str(n)] for an integer. *)
Definition str_of_int (n : Z) : string := NilZero.string_of_int (Z.to_int n).

(** [f"{v}"] for the values whose text is plain; the text of a float, a
    list or a dict is not modelled. *)
Definition py_format (v : pyval) : option string :=
  match v with
  | PStr s => Some s
  | PInt z => Some (str_of_int z)
  | PBool b => Some (if b then "True" else "False")
  | PNone => Some "None"
  | _ => None
  end.

(** [str(e)]: ["API error <status_code>"], then [": <message>"] if there
    is a detail. *)
Definition api_error_str (e : api_error) : option string :=
  let msg := "API error " +:+ str_of_int (error_status_code e) in
  match error_detail e with
  | None => Some msg
  | Some m => s ← py_format m; Some (msg +:+ ": " +:+ s)
  end.

(** ** client.py: requests *)

(** An [httpx.Response] as the code reads it: its status, what [json()]
    returns ([None] when it raises) and its text. *)
Record Response : Type := mk_response {
  status_code : Z;
  json : option pyval;
  text : string
}.

(** [response.is_success]: a status from 200 to 299. *)
Definition is_success (response : Response) : bool :=
  ((200 <=? status_code response) && (status_code response <=? 299))%Z.

(** The [try] block of [_handle_response_error]: the body and the message.
    Only a dict has [get]; for anything else, and when [json()] raises,
    the [except] branch takes the text. *)
Definition error_body_and_message (response : Response) : pyval * pyval :=
  match json response with
  | Some (PDict d) => (PDict d, py_or (dict_get d "error") (dict_get d "message"))
  | _ =>
      let body := PStr (text response) in
      (body, if truthy body then body else PNone)
  end.

Definition _handle_response_error (response : Response) : result api_error () :=
  if is_success response then Ok ()
  else
    let '(body, message) := error_body_and_message response in
    if (status_code response =? 400)%Z then Raise (BadRequestError message body)
    else if (status_code response =? 401)%Z then Raise (AuthenticationError message body)
    else if (500 <=? status_code response)%Z
      then Raise (ServerError (status_code response) message body)
    else Raise (APIError (status_code response) message body).

(** The five values of [DataType]. *)
Inductive DataType : Type :=
  | daily_consumption
  | consumption_load_curve
  | consumption_max_power
  | daily_production
  | production_load_curve.

Definition DataType_str (data_type : DataType) : string :=
  match data_type with
  | daily_consumption => "daily_consumption"
  | consumption_load_curve => "consumption_load_curve"
  | consumption_max_power => "consumption_max_power"
  | daily_production => "daily_production"
  | production_load_curve => "production_load_curve"
  end.

Definition BASE_URL : string := "https://conso.boris.sh/api".
Definition DEFAULT_USER_AGENT : string := "pylinky".

(** [d.toordinal()]: the days from 0001-01-01, which is day 1. *)
Definition days_before_year (y : Z) : Z :=
  ((y - 1) * 365 + (y - 1) / 4 - (y - 1) / 100 + (y - 1) / 400)%Z.

Definition days_before_month (y m : Z) : Z :=
  fold_right Z.add 0%Z (map (days_in_month y) (map Z.of_nat (seq 1 (Z.to_nat m - 1)))).

Definition toordinal (d : date) : Z :=
  (days_before_year (year d) + days_before_month (year d) (month d) + day d)%Z.

(** [d - timedelta(days=1)]: the day before, [OverflowError] before the
    first date there is. *)
Definition date_minus_one_day (d : date) : result exn date :=
  if (1 <? day d)%Z then Ok (mk_date (year d) (month d) (day d - 1))
  else if (1 <? month d)%Z
    then Ok (mk_date (year d) (month d - 1) (days_in_month (year d) (month d - 1)))
  else if (1 <? year d)%Z then Ok (mk_date (year d - 1) 12 31)
  else Raise OverflowError.

(** [LinkyClient._default_dates()], [today] being [date.today()]. *)
Definition _default_dates (today : date) : result exn (date * date) :=
  yesterday ← date_minus_one_day today;
  Ok (yesterday, today).

(** The first lines of every [get_...] method: the defaults are computed
    when one of the two dates is [None]; a date is always truthy, so
    [start or default_start] is [start] when it is given. *)
Definition resolve_dates (start end_ : option date) (today : date)
    : result exn (date * date) :=
  match start, end_ with
  | Some s, Some e => Ok (s, e)
  | _, _ =>
      defaults ← _default_dates today;
      Ok (default defaults.1 start, default defaults.2 end_)
  end.

(** A GET as [httpx] sends it: the base URL and the headers of the
    [httpx.Client], the path and the query parameters of the call. *)
Record Request : Type := mk_request {
  req_base_url : string;
  req_headers : list (string * string);
  req_path : string;
  req_params : list (string * pyval)
}.

(** The API on the other side: a response, or an exception of [httpx]
    with its text. *)
Class ApiServer : Type :=
  http_get : Request → result string Response.

(** The open [httpx.Client]s, each with the headers it was made with, the
    number of those made so far, the requests sent, and the day it is. *)
Record world : Type := mk_world {
  made : nat;
  open_clients : gmap nat (list (string * string));
  sent : list Request;
  today : date
}.

(** What a call of the client can end with. *)
Inductive client_exn : Type :=
  | ApiException (e : api_error)
  | Raised (e : exn)
  | JSONDecodeError
  | HttpxException (message : string).

Module Http.

(** The attributes of a [LinkyClient] that serve the transport:
    [_user_agent], and [_client], the [httpx.Client] once there is one
    (the time-out, a float the code hands to [httpx] as it is, is left
    out). *)
Record t : Type := mk {
  _user_agent : string;
  _client : option nat
}.

Definition client_headers (self : LinkyClient.t) (io : t) : list (string * string) :=
  [("Authorization", "Bearer " +:+ LinkyClient._token self);
   ("User-Agent", _user_agent io);
   ("Accept", "application/json")].

Definition _get_client (self : LinkyClient.t) (io : t) (w : world) : nat * t * world :=
  match _client io with
  | Some id => (id, io, w)
  | None =>
      let id := made w in
      (id, mk (_user_agent io) (Some id),
       mk_world (S id) (<[id := client_headers self io]> (open_clients w)) (sent w) (today w))
  end.

Definition close (io : t) (w : world) : t * world :=
  match _client io with
  | Some id =>
      (mk (_user_agent io) None,
       mk_world (made w) (delete id (open_clients w)) (sent w) (today w))
  | None => (io, w)
  end.

(** [client.get(path, params=...)] on the [httpx.Client] [id]: the request
    goes out with the headers of that client. *)
Definition client_get `{ApiServer} (id : nat) (path : string) (params : list (string * pyval))
    (w : world) : result client_exn Response * world :=
  match open_clients w !! id with
  | None => (Raise (HttpxException "Cannot send a request, as the client has been closed."), w)
  | Some headers =>
      let request := mk_request BASE_URL headers path params in
      let w' := mk_world (made w) (open_clients w) (sent w ++ [request]) (today w) in
      match http_get request with
      | Ok response => (Ok response, w')
      | Raise message => (Raise (HttpxException message), w')
      end
  end.

(** What [_request] does with the response. *)
Definition map_response {stdlib : PyStdlib} (response : Response) : result client_exn MeteringData.t :=
  match _handle_response_error response with
  | Raise e => Raise (ApiException e)
  | Ok _ =>
      match json response with
      | None => Raise JSONDecodeError
      | Some data =>
          match MeteringData.from_dict data with
          | Ok md => Ok md
          | Raise e => Raise (Raised e)
          end
      end
  end.

Definition _request `{ApiServer} {stdlib : PyStdlib} (self : LinkyClient.t) (data_type : DataType)
    (start end_ : date) (io : t) (w : world)
    : result client_exn MeteringData.t * t * world :=
  let '(id, io, w) := _get_client self io w in
  let '(r, w) :=
    client_get id ("/" +:+ DataType_str data_type)
      [("prm", LinkyClient._prm self);
       ("start", PStr (date_isoformat start));
       ("end", PStr (date_isoformat end_))] w in
  (response ← r; map_response response, io, w).

(** The five [get_...] methods, which differ by their [DataType] only. *)
Definition get `{ApiServer} {stdlib : PyStdlib} (data_type : DataType) (self : LinkyClient.t)
    (start end_ : option date) (io : t) (w : world)
    : result client_exn MeteringData.t * t * world :=
  match resolve_dates start end_ (today w) with
  | Raise e => (Raise (Raised e), io, w)
  | Ok (s, e) => _request self data_type s e io w
  end.

Definition get_daily_consumption `{ApiServer} {stdlib : PyStdlib} := get daily_consumption.
Definition get_consumption_load_curve `{ApiServer} {stdlib : PyStdlib} := get consumption_load_curve.
Definition get_max_power `{ApiServer} {stdlib : PyStdlib} := get consumption_max_power.
Definition get_daily_production `{ApiServer} {stdlib : PyStdlib} := get daily_production.
Definition get_production_load_curve `{ApiServer} {stdlib : PyStdlib} := get production_load_curve.

End Http.

(** What the body of a [with] block does with the client it is given. *)
Inductive client_call : Type :=
  | CallGet (data_type : DataType) (start end_ : option date)
  | CallClose.

Definition run_call `{ApiServer} {stdlib : PyStdlib} (self : LinkyClient.t) (call : client_call)
    (io : Http.t) (w : world) : result client_exn () * Http.t * world :=
  match call with
  | CallGet data_type start end_ =>
      let '(r, io, w) := Http.get data_type self start end_ io w in
      ((λ _, ()) <$> r, io, w)
  | CallClose => let '(io, w) := Http.close io w in (Ok (), io, w)
  end.

(** The calls one after the other; the first exception ends the body. *)
Fixpoint run_body `{ApiServer} {stdlib : PyStdlib} (self : LinkyClient.t) (calls : list client_call)
    (io : Http.t) (w : world) : result client_exn () * Http.t * world :=
  match calls with
  | [] => (Ok (), io, w)
  | call :: calls' =>
      let '(r, io, w) := run_call self call io w in
      match r with
      | Ok _ => run_body self calls' io w
      | Raise e => (Raise e, io, w)
      end
  end.

(** [with client:] and the body, for a client already made: [__enter__]
    gives the client itself, and [__exit__] closes it whatever the body
    ended with. *)
Definition with_client `{ApiServer} {stdlib : PyStdlib} (self : LinkyClient.t) (body : list client_call)
    (io : Http.t) (w : world) : result client_exn () * Http.t * world :=
  let '(r, io, w) := run_body self body io w in
  let '(io, w) := Http.close io w in
  (r, io, w).

(** [with linky_client(token, prm=prm, user_agent=user_agent) as client:]
    and the body: the client is made, the body runs, and [finally] the
    client is closed. *)
Definition linky_client `{JwtDecode} `{ApiServer} {stdlib : PyStdlib} (token : string) (prm : option string)
    (user_agent : string) (body : list client_call) (h : heap) (w : world)
    : result client_exn () * world :=
  match LinkyClient.__init__ token prm h with
  | Raise e => (Raise (Raised e), w)
  | Ok (client, _) =>
      let '(r, _, w) := with_client client body (Http.mk user_agent None) w in
      (r, w)
  end.

(** An [httpx.Client] gets the number [made] when it is made: the open
    ones have smaller numbers. *)
Definition world_wf (w : world) : Prop :=
  ∀ id, is_Some (open_clients w !! id) → id < made w.

(** The state of a client that started in the world [w0]: its
    [httpx.Client], if it has one, is open with its headers and is the
    only one opened since. *)
Definition client_inv (self : LinkyClient.t) (w0 : world) (io : Http.t) (w : world) : Prop :=
  made w0 ≤ made w ∧ today w = today w0
  ∧ match Http._client io with
    | None => open_clients w = open_clients w0
    | Some id =>
        made w0 ≤ id < made w
        ∧ open_clients w = <[id := Http.client_headers self io]> (open_clients w0)
    end.

(** A request as the client [self] with the user agent [user_agent]
    sends it. *)
Definition sent_by (self : LinkyClient.t) (user_agent : string) (request : Request) : Prop :=
  req_base_url request = BASE_URL
  ∧ req_headers request
    = [("Authorization", "Bearer " +:+ LinkyClient._token self);
       ("User-Agent", user_agent);
       ("Accept", "application/json")]
  ∧ ∃ data_type start end_,
      req_path request = "/" +:+ DataType_str data_type
      ∧ req_params request
        = [("prm", LinkyClient.prm self);
           ("start", PStr (date_isoformat start));
           ("end", PStr (date_isoformat end_))].

(** The sample API: it answers the token of the tests and refuses the
    others. *)
Definition sample_server : ApiServer :=
  fun request =>
    if bool_decide (("Authorization", "Bearer single_prm_token") ∈ req_headers request)
    then Ok (mk_response 200 (Some daily_consumption_response) "")
    else Ok (mk_response 401 (Some (PDict (dict [("error", PStr "Invalid token")]))) "").

Definition sample_world : world := mk_world 0 ∅ [] (mk_date 2024 1 5).

(** ** The conditions of the specification, in its words *)

Definition is_str (v : pyval) : Prop := ∃ s, v = PStr s.
Definition is_list (v : pyval) : Prop := ∃ l, v = PList l.
Definition is_str_list (v : pyval) : Prop := ∃ ss : list string, v = PList (PStr <$> ss).

(** When scope resolution is to fail, as the specification has it: the
    token cannot be decoded, the subject claim is absent, its value is
    neither a string nor a sequence of strings, or it is an empty
    sequence. *)
Definition InvalidToken_as_specified `{JwtDecode} (token : string) : Prop :=
  is_Raise (jwt_decode token)
  ∨ ∃ claims, jwt_decode token = Ok claims
      ∧ (claims !! "sub" = None
         ∨ ∃ v, claims !! "sub" = Some v
             ∧ ((¬ is_str v ∧ ¬ is_str_list v) ∨ v = PList [])).

(** When it does fail with [InvalidTokenError]: the decoder raises its
    [DecodeError], or the claims have no usable subject; the empty string
    joins the empty list, and a list is taken whatever its elements are. *)
Definition InvalidToken_condition `{JwtDecode} (token : string) : Prop :=
  (∃ m, jwt_decode token = Raise (DecodeError m))
  ∨ ∃ claims, jwt_decode token = Ok claims
      ∧ (claims !! "sub" = None
         ∨ ∃ v, claims !! "sub" = Some v
             ∧ ((¬ is_str v ∧ ¬ is_list v) ∨ v = PStr "" ∨ v = PList [])).

(** The rule for the date of a reading, in the words of the
    specification: with a [T] or a space in it the string is a date-time,
    a space standing for the [T]; without, it is a calendar date. *)
Definition reading_date_rule {stdlib : PyStdlib} (s : string) : result exn date_or_datetime :=
  if str_contains "T" s || str_contains " " s
  then DateTime <$> datetime_fromisoformat (str_replace " " "T" s)
  else DateOnly <$> date_fromisoformat s.

(** The condition the specification calls [MalformedResponse]: the code
    has no class of that name, the mapper lets the lookup error or the
    value error through. *)
Definition MalformedResponse (e : exn) : Prop :=
  e = ValueError ∨ ∃ key, e = KeyError key.

(** The values of a document have the JSON types the schema gives them:
    [reading_type] is an object, [interval_reading] a list of objects,
    the dates and the values of the readings are strings. *)
Definition entry_typed (r : pyval) : Prop :=
  ∃ e, r = PDict e
    ∧ (∀ v, e !! "date" = Some v → is_str v)
    ∧ (∀ v, e !! "value" = Some v → is_str v).

Definition well_typed (d : gmap string pyval) : Prop :=
  (∀ v, d !! "reading_type" = Some v → ∃ rt, v = PDict rt)
  ∧ (∀ v, d !! "start" = Some v → is_str v)
  ∧ (∀ v, d !! "end" = Some v → is_str v)
  ∧ (∀ v, d !! "interval_reading" = Some v → ∃ l, v = PList l ∧ Forall entry_typed l).

(** The violations of the schema the specification lists. *)
Inductive violation_as_specified {stdlib : PyStdlib} (d : gmap string pyval) : Prop :=
  | missing_top_level_key k :
      k ∈ ["usage_point_id"; "start"; "end"; "quality"; "reading_type"] →
      d !! k = None →
      violation_as_specified d
  | unparseable_period_date k s :
      k ∈ ["start"; "end"] → d !! k = Some (PStr s) →
      is_Raise (date_fromisoformat s) →
      violation_as_specified d
  | unparseable_reading_date l e s :
      d !! "interval_reading" = Some (PList l) → PDict e ∈ l →
      e !! "date" = Some (PStr s) → is_Raise (reading_date_rule s) →
      violation_as_specified d
  | non_numeric_value l e s :
      d !! "interval_reading" = Some (PList l) → PDict e ∈ l →
      e !! "value" = Some (PStr s) → is_Raise (int_of_str s) →
      violation_as_specified d
  | unrecognized_measurement_kind rt v :
      d !! "reading_type" = Some (PDict rt) → rt !! "measurement_kind" = Some v →
      v ≠ PStr "energy" → v ≠ PStr "power" →
      violation_as_specified d
  | unrecognized_aggregate rt v :
      d !! "reading_type" = Some (PDict rt) → rt !! "aggregate" = Some v →
      v ≠ PStr "sum" → v ≠ PStr "average" → v ≠ PStr "maximum" →
      violation_as_specified d.

(** The violations it leaves out: a key the code indexes inside
    [reading_type] or inside a reading is missing. *)
Inductive missing_nested_key (d : gmap string pyval) : Prop :=
  | missing_in_reading_type rt k :
      d !! "reading_type" = Some (PDict rt) →
      k ∈ ["unit"; "measurement_kind"; "aggregate"] → rt !! k = None →
      missing_nested_key d
  | missing_in_reading l e k :
      d !! "interval_reading" = Some (PList l) → PDict e ∈ l →
      k ∈ ["date"; "value"] → e !! k = None →
      missing_nested_key d.

(** The arithmetic sum of a list of integers. *)
Definition Zsum (zs : list Z) : Z := foldr Z.add 0%Z zs.

(** A record with the three readings of the sample document. *)
Definition sample_readings : list IntervalReading.t :=
  [IntervalReading.mk 11776 (DateOnly (mk_date 2024 1 1)) PNone PNone;
   IntervalReading.mk 14401 (DateOnly (mk_date 2024 1 2)) PNone PNone;
   IntervalReading.mk 12820 (DateOnly (mk_date 2024 1 3)) PNone PNone].

Definition sample_record : MeteringData.t :=
  MeteringData.mk (PStr "12345678901234") (mk_date 2024 1 1) (mk_date 2024 1 4)
    (PStr "BRUT") (ReadingType.mk (PStr "Wh") ENERGY SUM (PStr "P1D")) sample_readings.

(** A record with readings of the given values. *)
Definition record_of_values (vs : list Z) : MeteringData.t :=
  MeteringData.mk (PStr "12345678901234") (mk_date 2024 1 1) (mk_date 2024 1 4)
    (PStr "BRUT") (ReadingType.mk (PStr "Wh") ENERGY SUM (PStr "P1D"))
    (map (λ v, IntervalReading.mk v (DateOnly (mk_date 2024 1 1)) PNone PNone) vs).

(** A reading entry with a date and a value. *)
Definition entry (date_str value_str : string) : gmap string pyval :=
  dict [("value", PStr value_str); ("date", PStr date_str)].

(** The client built from the two-PRM token on an empty heap, and that
    heap afterwards. *)
Definition multi_prm_scope : list pyval := [PStr "12345678901234"; PStr "98765432109876"].

Definition multi_prm_client : LinkyClient.t :=
  LinkyClient.mk "multi_prm_token" 1%positive (PStr "12345678901234").

Definition multi_prm_heap : heap := {[ 1%positive := multi_prm_scope ]}.

(** That heap after the caller asked for the scope, and after it cleared
    the list it got. *)
Definition copied_heap : heap := <[2%positive := multi_prm_scope]> multi_prm_heap.

Definition cleared_heap : heap := mutate 2%positive list_clear copied_heap.

(** The sample document without its [interval_reading]. *)
Definition dict_without_readings : gmap string pyval :=
  delete "interval_reading" daily_consumption_dict.

(** * Properties *)

(** ** The result monad *)

Lemma bind_Ok {E A B} (m : result E A) (k : A → result E B) (b : B) :
  m ≫= k = Ok b ↔ ∃ a, m = Ok a ∧ k a = Ok b.
Proof.
  destruct m as [a|e]; simpl; split.
  - intros Hk. by exists a.
  - by intros (a' & [= ->] & Hk).
  - intros [=].
  - by intros (a' & [=] & _).
Qed.

Lemma bind_Raise {E A B} (m : result E A) (k : A → result E B) (e : E) :
  m ≫= k = Raise e ↔ m = Raise e ∨ ∃ a, m = Ok a ∧ k a = Raise e.
Proof.
  destruct m as [a|e']; simpl; split.
  - intros Hk. right. by exists a.
  - intros [[=] | (a' & [= ->] & Hk)]. done.
  - intros [= ->]. by left.
  - intros [[= ->] | (a' & [=] & _)]. done.
Qed.

Lemma fmap_Ok {E A B} (f : A → B) (m : result E A) (b : B) :
  f <$> m = Ok b ↔ ∃ a, m = Ok a ∧ b = f a.
Proof.
  destruct m as [a|e]; simpl; split.
  - intros [= <-]. by exists a.
  - by intros (a' & [= ->] & ->).
  - intros [=].
  - by intros (a' & [=] & _).
Qed.

Lemma Ok_or_Raise {E A} (r : result E A) : is_Ok r ∨ is_Raise r.
Proof. destruct r as [a|e]; [left; by exists a | right; by exists e]. Qed.

Lemma not_Ok_and_Raise {E A} (r : result E A) : is_Ok r → is_Raise r → False.
Proof. intros [a ->] [e [=]]. Qed.

Lemma is_Raise_not_Ok {E A} (r : result E A) : is_Raise r ↔ ¬ is_Ok r.
Proof.
  split.
  - intros Hr Ho. exact (not_Ok_and_Raise r Ho Hr).
  - intros Hn. by destruct (Ok_or_Raise r).
Qed.

(** ** Truth values and membership *)

Lemma truthy_str s : truthy (PStr s) = true ↔ s ≠ "".
Proof.
  simpl. rewrite negb_true_iff. split.
  - intros Hs ->. by rewrite String.eqb_refl in Hs.
  - intros Hs. by apply String.eqb_neq.
Qed.

Lemma truthy_list l : truthy (PList l) = true ↔ l ≠ [].
Proof. destruct l; simpl; split; done. Qed.

Lemma str_eq_spec s v : str_eq s v = true ↔ v = PStr s.
Proof.
  destruct v; simpl; try (split; [done | by intros [=]]).
  rewrite String.eqb_eq. split; [by intros -> | by intros [= ->]].
Qed.

Lemma str_in_list_spec s l : str_in_list s l = true ↔ PStr s ∈ l.
Proof.
  unfold str_in_list. rewrite existsb_exists. split.
  - intros (v & Hin & Heq). apply str_eq_spec in Heq as ->.
    by apply list_elem_of_In.
  - intros Hin. exists (PStr s). split; [by apply list_elem_of_In | by apply str_eq_spec].
Qed.

(** ** The heap *)

Lemma alloc_fresh xs (h : heap) l h' :
  alloc xs h = (l, h') → h !! l = None ∧ h' = <[l := xs]> h.
Proof.
  unfold alloc. intros [= <- <-]. split; [|done].
  apply not_elem_of_dom, is_fresh.
Qed.

Lemma alloc_lookup xs (h : heap) l h' :
  alloc xs h = (l, h') → h' !! l = Some xs.
Proof. intros [_ ->]%alloc_fresh. apply lookup_insert_eq. Qed.

(** ** Token scope resolution *)

Section resolver.
Context `{JwtDecode}.

Lemma extract_prms_str token claims s :
  jwt_decode token = Ok claims → claims !! "sub" = Some (PStr s) → s ≠ "" →
  _extract_prms token = Ok [PStr s].
Proof.
  intros Hd Hs Hne. unfold _extract_prms, dict_get. rewrite Hd, Hs. simpl.
  apply String.eqb_neq in Hne. by rewrite Hne.
Qed.

Lemma extract_prms_list token claims l :
  jwt_decode token = Ok claims → claims !! "sub" = Some (PList l) → l ≠ [] →
  _extract_prms token = Ok l.
Proof.
  intros Hd Hs Hne. unfold _extract_prms, dict_get. rewrite Hd, Hs.
  by destruct l.
Qed.

Lemma extract_prms_falsy token claims :
  jwt_decode token = Ok claims → truthy (dict_get claims "sub") = false →
  _extract_prms token = Raise (InvalidTokenError "Token has no 'sub' claim").
Proof. intros Hd Hf. unfold _extract_prms. by rewrite Hd, Hf. Qed.

Lemma extract_prms_Ok_inv token prms :
  _extract_prms token = Ok prms →
  ∃ claims, jwt_decode token = Ok claims ∧
    ((∃ s, claims !! "sub" = Some (PStr s) ∧ s ≠ "" ∧ prms = [PStr s])
     ∨ (claims !! "sub" = Some (PList prms) ∧ prms ≠ [])).
Proof.
  unfold _extract_prms, dict_get.
  destruct (jwt_decode token) as [claims|[msg|msg]]; [|done..].
  intros Hx. exists claims. split; [done|].
  destruct (claims !! "sub") as [v|]; simpl in Hx; [|done].
  destruct (truthy v) eqn:Ht; simpl in Hx; [|done].
  destruct v as [| | | |s|l|]; simpl in Hx; try done.
  - left. exists s. split; [done|]. split; [by apply truthy_str|].
    by injection Hx as <-.
  - right. destruct l; [done|]. simpl in Hx. injection Hx as <-. done.
Qed.

Lemma extract_prms_Raise_inv token e :
  _extract_prms token = Raise e →
  (∃ message, e = InvalidTokenError message)
  ∨ (∃ m, jwt_decode token = Raise (OtherJwtError m) ∧ e = PyJWTError m).
Proof.
  unfold _extract_prms.
  destruct (jwt_decode token) as [claims|[msg|msg]]; [|intros [= <-]; eauto..].
  destruct (truthy (dict_get claims "sub")); simpl; [|intros [= <-]; eauto].
  destruct (dict_get claims "sub") as [| | | |s|l|]; simpl;
    try (intros [= <-]; eauto).
  destruct l; simpl; intros [= <-]; eauto.
Qed.

Lemma extract_prms_nonempty token prms : _extract_prms token = Ok prms → prms ≠ [].
Proof.
  intros (claims & _ & [(s & _ & _ & ->) | [_ Hne]])%extract_prms_Ok_inv; done.
Qed.

(** Construction without an explicit PRM, once the scope is known. *)
Lemma init_default token prms (h : heap) :
  _extract_prms token = Ok prms →
  ∃ c h', LinkyClient.__init__ token None h = Ok (c, h')
    ∧ Some (LinkyClient.prm c) = head prms
    ∧ h' !! LinkyClient._prms c = Some prms
    ∧ h !! LinkyClient._prms c = None.
Proof.
  intros Hx. pose proof (extract_prms_nonempty _ _ Hx) as Hne.
  unfold LinkyClient.__init__. rewrite Hx. simpl.
  destruct prms as [|first rest]; [done|].
  eexists (LinkyClient.mk token _ first), _. split; [reflexivity|]. simpl.
  split; [done|]. split; [apply lookup_insert_eq | apply not_elem_of_dom, is_fresh].
Qed.

(** Construction with an explicit PRM. *)
Lemma init_explicit token prms p (h : heap) :
  _extract_prms token = Ok prms →
  LinkyClient.__init__ token (Some p) h =
    if str_in_list p prms
    then Ok (LinkyClient.mk token (alloc prms h).1 (PStr p), (alloc prms h).2)
    else Raise (PRMAccessError p).
Proof.
  intros Hx. unfold LinkyClient.__init__. rewrite Hx. simpl.
  by destruct (str_in_list p prms).
Qed.

(** Whatever the arguments, a constructed client has its scope in a list
    object of its own, and its active PRM is the first of the scope when
    none was requested and the requested one otherwise. *)
Lemma init_Ok_inv token prm (h : heap) c h' :
  LinkyClient.__init__ token prm h = Ok (c, h') →
  ∃ prms, _extract_prms token = Ok prms
    ∧ h !! LinkyClient._prms c = None
    ∧ h' = <[LinkyClient._prms c := prms]> h
    ∧ match prm with
      | Some p => LinkyClient.prm c = PStr p ∧ PStr p ∈ prms
      | None => Some (LinkyClient.prm c) = head prms
      end.
Proof.
  unfold LinkyClient.__init__. intros (prms & Hx & Hk)%bind_Ok.
  exists prms. split; [done|].
  destruct (alloc prms h) as [l h0] eqn:Ha. simpl in Hk.
  apply alloc_fresh in Ha as [Hl ->].
  destruct prm as [p|].
  - destruct (str_in_list p prms) eqn:Hin; simpl in Hk; [|done].
    injection Hk as <- <-. simpl. repeat split; try done.
    by apply str_in_list_spec.
  - destruct prms as [|first rest]; [done|].
    injection Hk as <- <-. by simpl.
Qed.

(** The construction raises nothing but the two exceptions of the
    library and what the decoder raises beside its [DecodeError]: the
    index [0] is always there. *)
Lemma init_Raise_inv token prm (h : heap) e :
  LinkyClient.__init__ token prm h = Raise e →
  (∃ m, jwt_decode token = Raise (OtherJwtError m) ∧ e = PyJWTError m)
  ∨ (is_PyLinkyError e = true
     ∧ ((∃ message, e = InvalidTokenError message)
        ∨ prm = Some (PRMAccessError_prm e))).
Proof.
  unfold LinkyClient.__init__.
  intros [Hx | (prms & Hx & Hk)]%bind_Raise.
  - apply extract_prms_Raise_inv in Hx as [[message ->] | Hother]; [|by left].
    right. split; [done|]. left. by eexists.
  - pose proof (extract_prms_nonempty _ _ Hx) as Hne.
    destruct (alloc prms h) as [l h']. destruct prm as [p|].
    + destruct (str_in_list p prms); simpl in Hk; [done|].
      injection Hk as <-. right. split; [done|]. by right.
    + by destruct prms.
Qed.

End resolver.

(** C1 (amended).  A token whose subject claim is a non-empty string [s]
    resolves to the one-element scope [[s]]; a token whose subject claim is
    a non-empty list of strings resolves to that very list, in its order
    and with its duplicates; in both cases a client built without an
    explicit PRM has the first element of the scope as its active PRM and
    holds that scope. *)
Theorem scope_of_subject_claim `{JwtDecode} (token : string) (claims : gmap string pyval) :
  jwt_decode token = Ok claims →
  (∀ s, claims !! "sub" = Some (PStr s) → s ≠ "" →
     _extract_prms token = Ok [PStr s]
     ∧ ∀ h : heap, ∃ c h', LinkyClient.__init__ token None h = Ok (c, h')
         ∧ LinkyClient.prm c = PStr s
         ∧ h' !! LinkyClient._prms c = Some [PStr s])
  ∧ (∀ ss : list string, claims !! "sub" = Some (PList (PStr <$> ss)) → ss ≠ [] →
     _extract_prms token = Ok (PStr <$> ss)
     ∧ ∀ h : heap, ∃ c h', LinkyClient.__init__ token None h = Ok (c, h')
         ∧ Some (LinkyClient.prm c) = head (PStr <$> ss)
         ∧ h' !! LinkyClient._prms c = Some (PStr <$> ss)).
Proof.
  intros Hd. split.
  - intros s Hs Hne.
    pose proof (extract_prms_str token claims s Hd Hs Hne) as Hx.
    split; [done|]. intros h.
    destruct (init_default token _ h Hx) as (c & h' & Hi & Hp & Hl & _).
    exists c, h'. split; [done|]. split; [|done]. by injection Hp.
  - intros ss Hs Hne.
    assert (PStr <$> ss ≠ []) as Hne' by by destruct ss.
    pose proof (extract_prms_list token claims _ Hd Hs Hne') as Hx.
    split; [done|]. intros h.
    destruct (init_default token _ h Hx) as (c & h' & Hi & Hp & Hl & _).
    by exists c, h'.
Qed.

Lemma scope_of_subject_claim_witness :
  @_extract_prms sample_tokens "single_prm_token" = Ok [PStr "12345678901234"]
  ∧ @_extract_prms sample_tokens "multi_prm_token"
    = Ok [PStr "12345678901234"; PStr "98765432109876"].
Proof.
  split.
  - refine (proj1 (proj1 (scope_of_subject_claim (H := sample_tokens)
      "single_prm_token" (dict [("sub", PStr "12345678901234")]) _) _ _ _)).
    + reflexivity.
    + reflexivity.
    + discriminate.
  - refine (proj1 (proj2 (scope_of_subject_claim (H := sample_tokens)
      "multi_prm_token"
      (dict [("sub", PList [PStr "12345678901234"; PStr "98765432109876"])]) _)
      ["12345678901234"; "98765432109876"] _ _)).
    + reflexivity.
    + reflexivity.
    + discriminate.
Defined.

(** The empty string is a single string, and the token that carries it as
    its subject claim has no scope at all: C1 as it was stated fails. *)
Lemma single_string_scope_counterexample :
  ¬ (∀ (D : JwtDecode) (token : string) (claims : gmap string pyval) (s : string),
       jwt_decode token = Ok claims → claims !! "sub" = Some (PStr s) →
       _extract_prms token = Ok [PStr s]).
Proof.
  intros Hclaim.
  specialize (Hclaim sample_tokens "empty_sub_token" (dict [("sub", PStr "")]) ""
                eq_refl eq_refl).
  vm_compute in Hclaim. discriminate.
Qed.

(** C5.  Once the scope of the token is known, asking for a PRM outside it
    makes the construction raise [PRMAccessError] carrying exactly that
    PRM; asking for a member succeeds, the requested PRM is the active one
    and the client holds the whole scope. *)
Theorem explicit_prm_checked_against_scope `{JwtDecode}
    (token : string) (prms : list pyval) (p : string) (h : heap) :
  _extract_prms token = Ok prms →
  (PStr p ∉ prms →
     LinkyClient.__init__ token (Some p) h = Raise (PRMAccessError p))
  ∧ (PStr p ∈ prms →
     ∃ c h', LinkyClient.__init__ token (Some p) h = Ok (c, h')
       ∧ LinkyClient.prm c = PStr p
       ∧ h' !! LinkyClient._prms c = Some prms).
Proof.
  intros Hx. rewrite (init_explicit token prms p h Hx). split.
  - intros Hout. destruct (str_in_list p prms) eqn:Hin; [|done].
    by apply str_in_list_spec in Hin.
  - intros Hin. apply str_in_list_spec in Hin as ->.
    eexists _, _. split; [reflexivity|]. split; [done|].
    by apply alloc_lookup with h, surjective_pairing.
Qed.

Lemma explicit_prm_checked_against_scope_witness :
  @LinkyClient.__init__ sample_tokens "single_prm_token" (Some "99999999999999") ∅
  = Raise (PRMAccessError "99999999999999").
Proof.
  refine (proj1 (explicit_prm_checked_against_scope (H := sample_tokens)
    "single_prm_token" [PStr "12345678901234"] "99999999999999" ∅ _) _).
  - reflexivity.
  - intros Hin. apply str_in_list_spec in Hin. discriminate.
Defined.

(** C6 (amended).  Scope resolution raises [InvalidTokenError] exactly when
    the decoder raises its [DecodeError], the subject claim is absent, its
    value is neither a string nor a list, or it is the empty string or the
    empty list; an exception of the decoder that is not a [DecodeError] is
    not caught and leaves the resolution as it came; nothing else is
    raised; and a scope comes out exactly when the token decodes and none
    of these conditions holds. *)
Theorem invalid_token_exactly `{JwtDecode} (token : string) :
  ((∃ message, _extract_prms token = Raise (InvalidTokenError message))
   ↔ InvalidToken_condition token)
  ∧ (∀ m, _extract_prms token = Raise (PyJWTError m)
          ↔ jwt_decode token = Raise (OtherJwtError m))
  ∧ (∀ e, _extract_prms token = Raise e →
          (∃ message, e = InvalidTokenError message) ∨ (∃ m, e = PyJWTError m))
  ∧ (is_Ok (_extract_prms token)
     ↔ is_Ok (jwt_decode token) ∧ ¬ InvalidToken_condition token).
Proof.
  assert (is_Ok (_extract_prms token) → InvalidToken_condition token → False) as Hexcl.
  { intros [prms Hx] Hc.
    apply extract_prms_Ok_inv in Hx as (claims & Hd & Hsub).
    destruct Hc as [[e He] | (claims' & Hd' & Hc)]; [congruence|].
    assert (claims' = claims) as -> by congruence.
    destruct Hc as [Hn | (v & Hv & Hc)].
    - destruct Hsub as [(s & Hs & _) | [Hs _]]; congruence.
    - destruct Hsub as [(s & Hs & Hne & _) | [Hs Hne]].
      + assert (v = PStr s) as -> by congruence.
        destruct Hc as [[Hns _] | [[= ->] | [=]]]; [|done].
        apply Hns. by exists s.
      + assert (v = PList prms) as -> by congruence.
        destruct Hc as [[_ Hnl] | [[=] | [= ->]]]; [|done].
        apply Hnl. by exists prms. }
  assert (∀ claims, jwt_decode token = Ok claims →
            is_Ok (_extract_prms token) ∨ InvalidToken_condition token) as Hdec.
  { intros claims Hd.
    destruct (claims !! "sub") as [v|] eqn:Hs.
    2:{ right. right. exists claims. split; [done|]. by left. }
    destruct v as [| | | |s|l|];
      try solve [right; right; exists claims; split; [done|]; right;
                 eexists; split; [done|]; left; split; intros [? [=]]].
    - destruct (decide (s = "")) as [->|Hne].
      + right. right. exists claims. split; [done|]. right.
        eexists. split; [done|]. by right; left.
      + left. exists [PStr s]. by eapply extract_prms_str.
    - destruct l as [|x l].
      + right. right. exists claims. split; [done|]. right.
        eexists. split; [done|]. by right; right.
      + left. exists (x :: l). by eapply extract_prms_list. }
  assert (∀ m, jwt_decode token = Raise (DecodeError m) →
            _extract_prms token
            = Raise (InvalidTokenError ("Cannot decode token: " +:+ m))) as Hcaught.
  { intros m Hd. unfold _extract_prms. by rewrite Hd. }
  assert (∀ m, jwt_decode token = Raise (OtherJwtError m) →
            _extract_prms token = Raise (PyJWTError m)) as Hother.
  { intros m Hd. unfold _extract_prms. by rewrite Hd. }
  split; [|split; [|split]].
  - split.
    + intros [message Hx].
      destruct (jwt_decode token) as [claims|[m|m]] eqn:Hd.
      * destruct (Hdec claims eq_refl) as [[prms Ho] | Hc]; [congruence|done].
      * left. by exists m.
      * rewrite (Hother m eq_refl) in Hx. discriminate.
    + intros Hc. destruct (Ok_or_Raise (_extract_prms token)) as [Ho | [e He]].
      { by destruct (Hexcl Ho Hc). }
      apply extract_prms_Raise_inv in He as Hinv.
      destruct Hinv as [[message ->] | (m & Hd & ->)]; [by exists message|].
      destruct Hc as [[m' Hd'] | (claims & Hd' & _)]; congruence.
  - intros m. split; [|apply Hother].
    intros Hx. apply extract_prms_Raise_inv in Hx as Hinv.
    destruct Hinv as [[message [=]] | (m' & Hd & [= ->])]. done.
  - intros e He. apply extract_prms_Raise_inv in He as [Hi | (m & _ & ->)]; eauto.
  - split.
    + intros Ho. split; [|intros Hc; by apply Hexcl].
      destruct Ho as [prms Hx].
      apply extract_prms_Ok_inv in Hx as (claims & Hd & _). by exists claims.
    + intros [[claims Hd] Hn]. by destruct (Hdec claims Hd).
Qed.

(** C6 as it was stated fails in both directions: the empty string is a
    string and is refused, and a list of numbers is not a sequence of
    strings and is accepted. *)
Lemma invalid_token_as_specified_counterexample :
  (@InvalidToken_as_specified sample_tokens "numbers_token"
   ∧ @_extract_prms sample_tokens "numbers_token" = Ok [PInt 1; PInt 2])
  ∧ (¬ @InvalidToken_as_specified sample_tokens "empty_sub_token"
     ∧ @_extract_prms sample_tokens "empty_sub_token"
       = Raise (InvalidTokenError "Token has no 'sub' claim")).
Proof.
  split; split; try reflexivity.
  - right. exists (dict [("sub", PList [PInt 1; PInt 2])]). split; [reflexivity|].
    right. exists (PList [PInt 1; PInt 2]). split; [reflexivity|]. left.
    split; [intros [s [=]] | intros [ss Hss]].
    destruct ss as [|s ss]; discriminate.
  - intros [[e He] | (claims & Hd & Hc)]; [discriminate|].
    vm_compute in Hd. injection Hd as <-.
    destruct Hc as [Hn | (v & Hv & Hc)]; [discriminate|].
    vm_compute in Hv. injection Hv as <-.
    destruct Hc as [[Hns _] | [=]]. apply Hns. by exists ""%string.
Qed.

(** C9.  A token whose subject claim is the empty string is refused with
    the very error of a token without a subject claim, whatever PRM is
    asked for; no scope holding the empty string comes out. *)
Theorem empty_sub_is_no_sub `{JwtDecode} (token : string) (claims : gmap string pyval) :
  jwt_decode token = Ok claims → claims !! "sub" = Some (PStr "") →
  _extract_prms token = Raise (InvalidTokenError "Token has no 'sub' claim")
  ∧ _extract_prms token ≠ Ok [PStr ""]
  ∧ (∀ token' claims', jwt_decode token' = Ok claims' → claims' !! "sub" = None →
       _extract_prms token' = _extract_prms token)
  ∧ (∀ prm (h : heap),
       LinkyClient.__init__ token prm h
       = Raise (InvalidTokenError "Token has no 'sub' claim")).
Proof.
  intros Hd Hs.
  assert (_extract_prms token = Raise (InvalidTokenError "Token has no 'sub' claim"))
    as Hx.
  { apply extract_prms_falsy with claims; [done|]. unfold dict_get. by rewrite Hs. }
  split; [done|]. split; [by rewrite Hx|]. split.
  - intros token' claims' Hd' Hs'. rewrite Hx.
    apply extract_prms_falsy with claims'; [done|]. unfold dict_get. by rewrite Hs'.
  - intros prm h. unfold LinkyClient.__init__. by rewrite Hx.
Qed.

Lemma empty_sub_is_no_sub_witness :
  @_extract_prms sample_tokens "empty_sub_token"
  = Raise (InvalidTokenError "Token has no 'sub' claim")
  ∧ @_extract_prms sample_tokens "no_sub_token"
    = @_extract_prms sample_tokens "empty_sub_token".
Proof.
  pose proof (empty_sub_is_no_sub (H := sample_tokens) "empty_sub_token"
                (dict [("sub", PStr "")]) eq_refl eq_refl) as (Hx & _ & Hsame & _).
  split; [exact Hx|].
  apply (Hsame "no_sub_token" (dict [("foo", PStr "bar")])); reflexivity.
Defined.

(** ** The scope accessor *)

Lemma list_copy_spec (l : loc) (h : heap) xs :
  h !! l = Some xs →
  ∃ l' h', list_copy l h = Some (l', h')
    ∧ h !! l' = None ∧ l' ≠ l ∧ h' = <[l' := xs]> h.
Proof.
  intros Hl. unfold list_copy. rewrite Hl. simpl.
  destruct (alloc xs h) as [l' h'] eqn:Ha.
  apply alloc_fresh in Ha as [Hf ->].
  exists l', (<[l' := xs]> h). repeat split; try done. congruence.
Qed.

Lemma mutate_other (l l0 : loc) f (h : heap) :
  l ≠ l0 → mutate l f h !! l0 = h !! l0.
Proof. intros Hne. unfold mutate. by rewrite lookup_alter_ne. Qed.

(** Through an alias the change would be seen: it is the copy that
    protects the client. *)
Lemma mutate_same (l : loc) f (h : heap) xs :
  h !! l = Some xs → mutate l f h !! l = Some (f xs).
Proof. intros Hl. unfold mutate. by rewrite lookup_alter_eq, Hl. Qed.

Lemma caller_step_keeps c xs st st' :
  caller_step c st st' → scope_kept c xs st → scope_kept c xs st'.
Proof.
  intros Hstep [Hxs Hnot]. destruct Hstep as [h ls l h' Hp | h ls l f Hin];
    simpl in *.
  - unfold LinkyClient.prms in Hp.
    destruct (list_copy_spec _ _ _ Hxs) as (l' & h'' & Hc & Hf & Hne & ->).
    rewrite Hc in Hp. injection Hp as <- <-. split; simpl.
    + by rewrite lookup_insert_ne.
    + rewrite not_elem_of_cons. done.
  - split; simpl; [|done]. rewrite mutate_other; [done|]. by intros ->.
Qed.

Lemma caller_steps_keep c xs st st' :
  rtc (caller_step c) st st' → scope_kept c xs st → scope_kept c xs st'.
Proof. induction 1; eauto using caller_step_keeps. Qed.

Lemma held_allocated_nil (h : heap) : held_allocated (h, []).
Proof. intros x Hx. by apply not_elem_of_nil in Hx. Qed.

Lemma caller_step_allocated c st st' :
  caller_step c st st' → held_allocated st → held_allocated st'.
Proof.
  intros Hstep Hall. destruct Hstep as [h ls l h' Hp | h ls l f Hin];
    unfold held_allocated in *; simpl in *.
  - unfold LinkyClient.prms, list_copy in Hp.
    destruct (h !! LinkyClient._prms c) as [xs|]; [|done]. simpl in Hp.
    destruct (alloc xs h) as [l0 h0] eqn:Ha.
    apply alloc_fresh in Ha as [Hf ->]. injection Hp as <- <-.
    intros x [->|Hx]%elem_of_cons.
    + rewrite lookup_insert_eq. by eexists.
    + destruct (Hall x Hx) as [ys Hys].
      assert (l0 ≠ x) by congruence.
      rewrite lookup_insert_ne; [by eexists | done].
  - intros x Hx. destruct (Hall x Hx) as [ys Hys]. unfold mutate.
    destruct (decide (l = x)) as [->|Hne].
    + rewrite lookup_alter_eq, Hys. by eexists.
    + rewrite lookup_alter_ne; [by eexists | done].
Qed.

Lemma caller_steps_allocated c st st' :
  rtc (caller_step c) st st' → held_allocated st → held_allocated st'.
Proof. induction 1; eauto using caller_step_allocated. Qed.

(** C8.  The scope accessor hands out a copy: after any number of accessor
    calls and of in-place changes to the lists they returned, the list the
    constructed client holds has the content it was built with, and the
    accessor still returns a new list with that content, different from
    the client's and from every list handed out before.  The active PRM
    is a field of the client and no step touches it. *)
Theorem prms_is_a_defensive_copy `{JwtDecode}
    (token : string) (prm : option string) (h0 : heap) (c : LinkyClient.t) (h1 : heap) :
  LinkyClient.__init__ token prm h0 = Ok (c, h1) →
  ∃ scope, _extract_prms token = Ok scope
    ∧ h1 !! LinkyClient._prms c = Some scope
    ∧ ∀ (h : heap) (held : list loc),
        rtc (caller_step c) (h1, []) (h, held) →
        h !! LinkyClient._prms c = Some scope
        ∧ ∃ l h', LinkyClient.prms c h = Some (l, h')
            ∧ h' !! l = Some scope
            ∧ l ≠ LinkyClient._prms c ∧ (l ∉ held)
            ∧ h' !! LinkyClient._prms c = Some scope
            ∧ ∀ f, mutate l f h' !! LinkyClient._prms c = Some scope.
Proof.
  intros (scope & Hx & Hfresh & -> & _)%init_Ok_inv.
  exists scope. split; [done|]. split; [apply lookup_insert_eq|].
  intros h held Hsteps.
  assert (scope_kept c scope (<[LinkyClient._prms c := scope]> h0, [])) as Hinit.
  { split; simpl; [apply lookup_insert_eq | apply not_elem_of_nil]. }
  pose proof (caller_steps_keep _ _ _ _ Hsteps Hinit) as [Hkept Hnot]; simpl in *.
  split; [done|].
  destruct (list_copy_spec _ _ _ Hkept) as (l & h' & Hc & Hf & Hne & ->).
  exists l, (<[l := scope]> h). split; [done|].
  split; [apply lookup_insert_eq|]. split; [done|]. split.
  - intros Hin.
    destruct (caller_steps_allocated _ _ _ Hsteps (held_allocated_nil _) l Hin) as [ys Hys].
    simpl in Hys. congruence.
  - split; [by rewrite lookup_insert_ne|].
    intros f. rewrite mutate_other by done. by rewrite lookup_insert_ne.
Qed.

Lemma prms_is_a_defensive_copy_witness :
  LinkyClient.prms multi_prm_client multi_prm_heap = Some (2%positive, copied_heap)
  ∧ cleared_heap !! 2%positive = Some []
  ∧ cleared_heap !! 1%positive = Some multi_prm_scope
  ∧ ∃ l h', LinkyClient.prms multi_prm_client cleared_heap = Some (l, h')
      ∧ h' !! l = Some multi_prm_scope.
Proof.
  set (h2 := copied_heap). set (h3 := cleared_heap).
  assert (@LinkyClient.__init__ sample_tokens "multi_prm_token" None ∅
          = Ok (multi_prm_client, multi_prm_heap)) as Hinit by reflexivity.
  destruct (prms_is_a_defensive_copy (H := sample_tokens) "multi_prm_token" None ∅
              multi_prm_client multi_prm_heap Hinit) as (scope & Hx & _ & Hall).
  vm_compute in Hx. injection Hx as <-.
  assert (LinkyClient.prms multi_prm_client multi_prm_heap = Some (2%positive, h2))
    as Hcopy by reflexivity.
  assert (rtc (caller_step multi_prm_client) (multi_prm_heap, [])
            (h3, [2%positive])) as Hsteps.
  { eapply rtc_l; [apply step_prms, Hcopy|].
    eapply rtc_l; [|apply rtc_refl].
    apply (step_mutate multi_prm_client h2 [2%positive] 2%positive list_clear).
    apply list_elem_of_here. }
  destruct (Hall h3 [2%positive] Hsteps) as (Hkept & l & h' & Hp & Hl & _).
  split; [exact Hcopy|]. split; [reflexivity|]. split; [exact Hkept|].
  exists l, h'. by split.
Defined.

(** ** The mapper *)

(** Membership in a list written out. *)
Ltac in_list := solve [repeat first [apply list_elem_of_here | apply list_elem_of_further]].

Lemma tuple_of_Ok {A} (f : pyval → result exn A) l rs :
  tuple_of f l = Ok rs ↔ Forall2 (λ x r, f x = Ok r) l rs.
Proof.
  revert rs. induction l as [|x l IH]; intros rs; simpl.
  - split; [intros [= <-]; constructor | by intros ->%Forall2_nil_inv_l].
  - rewrite bind_Ok. split.
    + intros (a & Ha & (rest & Hrest & [= <-])%bind_Ok).
      constructor; [done | by apply IH].
    + intros (a & rest & Ha & Hrest & ->)%Forall2_cons_inv_l.
      exists a. split; [done|]. apply bind_Ok. exists rest. split; [by apply IH | done].
Qed.

Lemma tuple_of_Raise {A} (f : pyval → result exn A) l e :
  tuple_of f l = Raise e → ∃ x, x ∈ l ∧ f x = Raise e.
Proof.
  induction l as [|x l IH]; simpl; [done|].
  intros [Hx | (a & Ha & [Hl | (rest & _ & [=])]%bind_Raise)]%bind_Raise.
  - exists x. split; [apply list_elem_of_here | done].
  - destruct (IH Hl) as (y & Hy & Hfy). exists y. split; [by apply list_elem_of_further | done].
Qed.

Lemma tuple_of_elem_Raise {A} (f : pyval → result exn A) l x :
  x ∈ l → is_Raise (f x) → is_Raise (tuple_of f l).
Proof.
  intros Hin Hx. apply is_Raise_not_Ok. intros [rs Hrs].
  apply tuple_of_Ok in Hrs.
  apply list_elem_of_lookup in Hin as [i Hi].
  destruct (Forall2_lookup_l _ _ _ _ _ Hrs Hi) as (r & _ & Hr).
  destruct Hx as [e He]. congruence.
Qed.

Lemma dict_getitem_Some (d : gmap string pyval) k v :
  d !! k = Some v → dict_getitem d k = Ok v.
Proof. intros Hk. unfold dict_getitem. by rewrite Hk. Qed.

Lemma dict_getitem_None (d : gmap string pyval) k :
  d !! k = None → dict_getitem d k = Raise (KeyError k).
Proof. intros Hk. unfold dict_getitem. by rewrite Hk. Qed.

(** The code applies the rule of the specification to a date that is a
    string. *)
Lemma reading_from_dict_str_date {stdlib : PyStdlib} e s :
  e !! "date" = Some (PStr s) →
  IntervalReading.from_dict (PDict e) =
    (parsed_date ← reading_date_rule s;
     raw ← dict_getitem e "value";
     v ← py_int raw;
     Ok (IntervalReading.mk v parsed_date
           (dict_get e "interval_length") (dict_get e "measure_type"))).
Proof.
  intros Hd. unfold IntervalReading.from_dict, reading_date_rule. simpl.
  rewrite (dict_getitem_Some _ _ _ Hd). simpl.
  destruct (str_contains "T" s); simpl.
  - destruct (datetime_fromisoformat _); simpl; [|done].
    destruct (dict_getitem e "value"); simpl; [|done]. by destruct (py_int _).
  - destruct (str_contains " " s); simpl.
    + destruct (datetime_fromisoformat _); simpl; [|done].
      destruct (dict_getitem e "value"); simpl; [|done]. by destruct (py_int _).
    + destruct (date_fromisoformat _); simpl; [|done].
      destruct (dict_getitem e "value"); simpl; [|done]. by destruct (py_int _).
Qed.

Lemma getitem_Ok v k x : getitem v k = Ok x ↔ ∃ d, v = PDict d ∧ d !! k = Some x.
Proof.
  destruct v as [| | | | | |d]; simpl;
    try (split; [done | by intros (d' & [=] & _)]).
  unfold dict_getitem. split.
  - destruct (d !! k) as [y|] eqn:Hk; [|done]. intros [= <-]. by exists d.
  - intros (d' & [= <-] & ->). done.
Qed.

(** A reading that was mapped came from a dict with both keys. *)
Lemma reading_from_dict_Ok_inv {stdlib : PyStdlib} data rd :
  IntervalReading.from_dict data = Ok rd →
  ∃ e date_str raw, data = PDict e
    ∧ e !! "date" = Some date_str ∧ e !! "value" = Some raw
    ∧ py_int raw = Ok (IntervalReading.value rd)
    ∧ IntervalReading.interval_length rd = dict_get e "interval_length"
    ∧ IntervalReading.measure_type rd = dict_get e "measure_type".
Proof.
  unfold IntervalReading.from_dict.
  intros (date_str & (e & -> & Hd)%getitem_Ok & Hk)%bind_Ok.
  apply bind_Ok in Hk as (has_T & _ & Hk).
  apply bind_Ok in Hk as (has_sep & _ & Hk).
  apply bind_Ok in Hk as (parsed & _ & Hk).
  apply bind_Ok in Hk as (raw & (e' & [= <-] & Hv)%getitem_Ok & Hk).
  apply bind_Ok in Hk as (v & Hint & Hk). simpl in Hk. injection Hk as <-.
  exists e, date_str, raw. simpl. done.
Qed.

Lemma MeasurementKind_of_Ok v k :
  MeasurementKind_of v = Ok k → v = PStr "energy" ∨ v = PStr "power".
Proof.
  unfold MeasurementKind_of.
  destruct (str_eq "energy" v) eqn:H1; [apply str_eq_spec in H1; auto|].
  destruct (str_eq "power" v) eqn:H2; [apply str_eq_spec in H2; auto|]. done.
Qed.

Lemma MeasurementKind_of_Raise v e :
  MeasurementKind_of v = Raise e → e = ValueError ∧ v ≠ PStr "energy" ∧ v ≠ PStr "power".
Proof.
  unfold MeasurementKind_of.
  destruct (str_eq "energy" v) eqn:H1; [done|].
  destruct (str_eq "power" v) eqn:H2; [done|].
  intros [= <-]. split; [done|]. split; intros ->; done.
Qed.

Lemma Aggregate_of_Ok v a :
  Aggregate_of v = Ok a → v = PStr "sum" ∨ v = PStr "average" ∨ v = PStr "maximum".
Proof.
  unfold Aggregate_of.
  destruct (str_eq "sum" v) eqn:H1; [apply str_eq_spec in H1; auto|].
  destruct (str_eq "average" v) eqn:H2; [apply str_eq_spec in H2; auto|].
  destruct (str_eq "maximum" v) eqn:H3; [apply str_eq_spec in H3; auto|]. done.
Qed.

Lemma Aggregate_of_Raise v e :
  Aggregate_of v = Raise e →
  e = ValueError ∧ v ≠ PStr "sum" ∧ v ≠ PStr "average" ∧ v ≠ PStr "maximum".
Proof.
  unfold Aggregate_of.
  destruct (str_eq "sum" v) eqn:H1; [done|].
  destruct (str_eq "average" v) eqn:H2; [done|].
  destruct (str_eq "maximum" v) eqn:H3; [done|].
  intros [= <-]. split; [done|]. repeat split; intros ->; done.
Qed.

(** Everything a mapped record tells about the document it came from. *)
Lemma metering_from_dict_Ok_inv {stdlib : PyStdlib} data md :
  MeteringData.from_dict data = Ok md →
  ∃ d rt, data = PDict d ∧ d !! "reading_type" = Some (PDict rt)
    ∧ rt !! "unit" = Some (ReadingType.unit (MeteringData.reading_type md))
    ∧ (∃ v, rt !! "measurement_kind" = Some v
         ∧ MeasurementKind_of v
           = Ok (ReadingType.measurement_kind (MeteringData.reading_type md)))
    ∧ (∃ v, rt !! "aggregate" = Some v
         ∧ Aggregate_of v = Ok (ReadingType.aggregate (MeteringData.reading_type md)))
    ∧ ReadingType.measuring_period (MeteringData.reading_type md)
      = dict_get rt "measuring_period"
    ∧ (∃ rs, py_iter (dict_get_default d "interval_reading" (PList [])) = Ok rs
         ∧ tuple_of IntervalReading.from_dict rs = Ok (MeteringData.interval_reading md))
    ∧ d !! "usage_point_id" = Some (MeteringData.usage_point_id md)
    ∧ (∃ v, d !! "start" = Some v ∧ py_date_fromisoformat v = Ok (MeteringData.start md))
    ∧ (∃ v, d !! "end" = Some v ∧ py_date_fromisoformat v = Ok (MeteringData.end_ md))
    ∧ d !! "quality" = Some (MeteringData.quality md).
Proof.
  unfold MeteringData.from_dict.
  intros (rtd & (d & -> & Hrt)%getitem_Ok & Hk)%bind_Ok.
  apply bind_Ok in Hk as (u & (rt & -> & Hu)%getitem_Ok & Hk).
  apply bind_Ok in Hk as (mkraw & (? & [= <-] & Hmk)%getitem_Ok & Hk).
  apply bind_Ok in Hk as (mk_ & Hmk' & Hk).
  apply bind_Ok in Hk as (agraw & (? & [= <-] & Hag)%getitem_Ok & Hk).
  apply bind_Ok in Hk as (ag & Hag' & Hk).
  apply bind_Ok in Hk as (mp & [= <-] & Hk).
  apply bind_Ok in Hk as (src & [= <-] & Hk).
  apply bind_Ok in Hk as (rs & Hrs & Hk).
  apply bind_Ok in Hk as (readings & Hreadings & Hk).
  apply bind_Ok in Hk as (upi & (? & [= <-] & Hupi)%getitem_Ok & Hk).
  apply bind_Ok in Hk as (sraw & (? & [= <-] & Hs)%getitem_Ok & Hk).
  apply bind_Ok in Hk as (st & Hst & Hk).
  apply bind_Ok in Hk as (eraw & (? & [= <-] & He)%getitem_Ok & Hk).
  apply bind_Ok in Hk as (en & Hen & Hk).
  apply bind_Ok in Hk as (q & (? & [= <-] & Hq)%getitem_Ok & Hk).
  simpl in Hk. injection Hk as <-. simpl.
  exists d, rt. repeat split; eauto.
Qed.

(** The parsers raise [ValueError] and nothing else. *)
Lemma date_fromisoformat_Raise {stdlib : PyStdlib} s e :
  date_fromisoformat s = Raise e → e = ValueError.
Proof.
  unfold date_fromisoformat. destruct (stdlib_date_fromisoformat s); by intros [= <-].
Qed.

Lemma datetime_fromisoformat_Raise {stdlib : PyStdlib} s e :
  datetime_fromisoformat s = Raise e → e = ValueError.
Proof.
  unfold datetime_fromisoformat.
  destruct (stdlib_datetime_fromisoformat s); by intros [= <-].
Qed.

Lemma int_of_str_Raise {stdlib : PyStdlib} s e : int_of_str s = Raise e → e = ValueError.
Proof. unfold int_of_str. destruct (stdlib_int s); by intros [= <-]. Qed.

Lemma reading_date_rule_Raise {stdlib : PyStdlib} s e : reading_date_rule s = Raise e → e = ValueError.
Proof.
  unfold reading_date_rule. destruct (_ || _).
  - destruct (datetime_fromisoformat _) as [dt|e'] eqn:Hp; [done|].
    intros [= <-]. by eapply datetime_fromisoformat_Raise.
  - destruct (date_fromisoformat s) as [dt|e'] eqn:Hp; [done|].
    intros [= <-]. by eapply date_fromisoformat_Raise.
Qed.

(** Why the mapping of a reading of the right types can fail. *)
Lemma reading_raise_cases {stdlib : PyStdlib} e err :
  (∀ v, e !! "date" = Some v → is_str v) →
  (∀ v, e !! "value" = Some v → is_str v) →
  IntervalReading.from_dict (PDict e) = Raise err →
  MalformedResponse err
  ∧ ((∃ k, k ∈ ["date"; "value"] ∧ e !! k = None)
     ∨ (∃ s, e !! "date" = Some (PStr s) ∧ is_Raise (reading_date_rule s))
     ∨ (∃ s, e !! "value" = Some (PStr s) ∧ is_Raise (int_of_str s))).
Proof.
  intros Hdate Hvalue.
  destruct (e !! "date") as [v|] eqn:Hd.
  2:{ unfold IntervalReading.from_dict. cbn [getitem].
      rewrite (dict_getitem_None _ _ Hd). intros [= <-].
      split; [right; eauto|]. left. exists "date". split; [in_list | done]. }
  destruct (Hdate v eq_refl) as [s ->].
  rewrite (reading_from_dict_str_date e s Hd).
  intros [Hr | (pd & _ & Hk)]%bind_Raise.
  { split; [left; by eapply reading_date_rule_Raise|].
    right; left. exists s. split; [done | by exists err]. }
  destruct (e !! "value") as [raw|] eqn:Hv.
  2:{ rewrite (dict_getitem_None _ _ Hv) in Hk. injection Hk as <-.
      split; [right; eauto|]. left. exists "value". split; [in_list | done]. }
  destruct (Hvalue raw eq_refl) as [s' ->].
  rewrite (dict_getitem_Some _ _ _ Hv) in Hk. cbn [mbind result_bind py_int] in Hk.
  apply bind_Raise in Hk as [Hr | (z & _ & [=])].
  split; [left; by eapply int_of_str_Raise|].
  right; right. exists s'. split; [done | by exists err].
Qed.

(** Why the mapping of a document of the right types can fail, and with
    what. *)
Lemma metering_raise_cases {stdlib : PyStdlib} d err :
  well_typed d →
  MeteringData.from_dict (PDict d) = Raise err →
  MalformedResponse err ∧ (violation_as_specified d ∨ missing_nested_key d).
Proof.
  intros (Hrt_t & Hstart_t & Hend_t & Hir_t).
  unfold MeteringData.from_dict. cbn [getitem py_get_default].
  (* reading_type *)
  destruct (d !! "reading_type") as [v|] eqn:Hrt.
  2:{ rewrite (dict_getitem_None _ _ Hrt). intros [= <-].
      split; [right; eauto|]. left.
      apply missing_top_level_key with "reading_type"; [in_list | done]. }
  destruct (Hrt_t v eq_refl) as [rt ->].
  rewrite (dict_getitem_Some _ _ _ Hrt). cbn [mbind result_bind getitem py_get].
  destruct (rt !! "unit") as [u|] eqn:Hu.
  2:{ rewrite (dict_getitem_None _ _ Hu). intros [= <-].
      split; [right; eauto|]. right.
      apply missing_in_reading_type with rt "unit"; [done | in_list | done]. }
  rewrite (dict_getitem_Some _ _ _ Hu). cbn [mbind result_bind].
  destruct (rt !! "measurement_kind") as [mkraw|] eqn:Hmk.
  2:{ rewrite (dict_getitem_None _ _ Hmk). intros [= <-].
      split; [right; eauto|]. right.
      apply missing_in_reading_type with rt "measurement_kind"; [done | in_list | done]. }
  rewrite (dict_getitem_Some _ _ _ Hmk). cbn [mbind result_bind].
  destruct (MeasurementKind_of mkraw) as [mk_|e1] eqn:Hmk'.
  2:{ intros [= <-]. apply MeasurementKind_of_Raise in Hmk' as (-> & Hn1 & Hn2).
      split; [by left|]. left. by eapply unrecognized_measurement_kind. }
  cbn [mbind result_bind].
  destruct (rt !! "aggregate") as [agraw|] eqn:Hag.
  2:{ rewrite (dict_getitem_None _ _ Hag). intros [= <-].
      split; [right; eauto|]. right.
      apply missing_in_reading_type with rt "aggregate"; [done | in_list | done]. }
  rewrite (dict_getitem_Some _ _ _ Hag). cbn [mbind result_bind].
  destruct (Aggregate_of agraw) as [ag|e1] eqn:Hag'.
  2:{ intros [= <-]. apply Aggregate_of_Raise in Hag' as (-> & Hn1 & Hn2 & Hn3).
      split; [by left|]. left. by eapply unrecognized_aggregate. }
  cbn [mbind result_bind].
  (* interval_reading *)
  intros [Hr | (rs & Hrs & Hk)]%bind_Raise.
  { exfalso. unfold dict_get_default in Hr.
    destruct (d !! "interval_reading") as [v|] eqn:Hir; [|done].
    by destruct (Hir_t v eq_refl) as (l & -> & _). }
  apply bind_Raise in Hk as [Hr | (readings & _ & Hk)].
  { apply tuple_of_Raise in Hr as (r & Hin & Hr).
    unfold dict_get_default in Hrs.
    destruct (d !! "interval_reading") as [v|] eqn:Hir;
      [|injection Hrs as <-; by apply not_elem_of_nil in Hin].
    destruct (Hir_t v eq_refl) as (l & -> & Hall). injection Hrs as <-.
    rewrite Forall_forall in Hall.
    destruct (Hall r Hin) as (e & -> & Hd_t & Hv_t).
    destruct (reading_raise_cases e err Hd_t Hv_t Hr)
      as [Hm [(k & Hk & Hnone) | [(s & Hs & Hbad) | (s & Hs & Hbad)]]].
    - split; [done|]. right. by eapply missing_in_reading.
    - split; [done|]. left. by eapply unparseable_reading_date.
    - split; [done|]. left. by eapply non_numeric_value. }
  (* usage_point_id, start, end, quality *)
  revert Hk.
  destruct (d !! "usage_point_id") as [upi|] eqn:Hupi.
  2:{ rewrite (dict_getitem_None _ _ Hupi). intros [= <-].
      split; [right; eauto|]. left.
      apply missing_top_level_key with "usage_point_id"; [in_list | done]. }
  rewrite (dict_getitem_Some _ _ _ Hupi). cbn [mbind result_bind].
  destruct (d !! "start") as [sraw|] eqn:Hs.
  2:{ rewrite (dict_getitem_None _ _ Hs). intros [= <-].
      split; [right; eauto|]. left.
      apply missing_top_level_key with "start"; [in_list | done]. }
  destruct (Hstart_t sraw eq_refl) as [s ->].
  rewrite (dict_getitem_Some _ _ _ Hs). cbn [mbind result_bind py_date_fromisoformat].
  destruct (date_fromisoformat s) as [st|e1] eqn:Hst.
  2:{ intros [= <-]. split; [left; by eapply date_fromisoformat_Raise|]. left.
      apply unparseable_period_date with "start" s; [in_list | done | by exists e1]. }
  cbn [mbind result_bind].
  destruct (d !! "end") as [eraw|] eqn:He.
  2:{ rewrite (dict_getitem_None _ _ He). intros [= <-].
      split; [right; eauto|]. left.
      apply missing_top_level_key with "end"; [in_list | done]. }
  destruct (Hend_t eraw eq_refl) as [s' ->].
  rewrite (dict_getitem_Some _ _ _ He). cbn [mbind result_bind py_date_fromisoformat].
  destruct (date_fromisoformat s') as [en|e1] eqn:Hen.
  2:{ intros [= <-]. split; [left; by eapply date_fromisoformat_Raise|]. left.
      apply unparseable_period_date with "end" s'; [in_list | done | by exists e1]. }
  cbn [mbind result_bind].
  destruct (d !! "quality") as [q|] eqn:Hq.
  2:{ rewrite (dict_getitem_None _ _ Hq). intros [= <-].
      split; [right; eauto|]. left.
      apply missing_top_level_key with "quality"; [in_list | done]. }
  rewrite (dict_getitem_Some _ _ _ Hq). cbn [mbind result_bind]. done.
Qed.

(** The readings of a mapped record are the mapped entries of the list of
    the document, one for one. *)
Lemma metering_readings {stdlib : PyStdlib} d l md :
  d !! "interval_reading" = Some (PList l) →
  MeteringData.from_dict (PDict d) = Ok md →
  Forall2 (λ r rd, IntervalReading.from_dict r = Ok rd) l (MeteringData.interval_reading md).
Proof.
  intros Hir (d' & rt & [= <-] & _ & _ & _ & _ & _ & (rs & Hrs & Hts) & _)%metering_from_dict_Ok_inv.
  unfold dict_get_default in Hrs. rewrite Hir in Hrs. injection Hrs as <-.
  by apply tuple_of_Ok.
Qed.

(** Without the key, or with an empty list, there is no reading. *)
Lemma metering_no_readings {stdlib : PyStdlib} d md :
  d !! "interval_reading" = None ∨ d !! "interval_reading" = Some (PList []) →
  MeteringData.from_dict (PDict d) = Ok md →
  MeteringData.interval_reading md = [].
Proof.
  intros Hir (d' & rt & [= <-] & _ & _ & _ & _ & _ & (rs & Hrs & Hts) & _)%metering_from_dict_Ok_inv.
  unfold dict_get_default in Hrs.
  destruct Hir as [Hir|Hir]; rewrite Hir in Hrs; injection Hrs as <-;
    simpl in Hts; by injection Hts.
Qed.

(** Each violation makes the mapping raise, whatever the types. *)
Lemma violation_raises {stdlib : PyStdlib} d :
  violation_as_specified d ∨ missing_nested_key d →
  is_Raise (MeteringData.from_dict (PDict d)).
Proof.
  intros Hv. apply is_Raise_not_Ok. intros [md Hok].
  pose proof Hok as (d' & rt & [= <-] & Hrt & Hu & (mkv & Hmk & Hmk') & (agv & Hag & Hag')
    & _ & _ & Hupi & (sv & Hs & Hs') & (ev & He & He') & Hq)%metering_from_dict_Ok_inv.
  destruct Hv as [Hv|Hv];
    [destruct Hv as [k Hin Hnone | k s Hin Hks Hbad | l e s Hir Hin Hds Hbad
                    | l e s Hir Hin Hvs Hbad | rt0 v Hrt0 Hv Hn1 Hn2
                    | rt0 v Hrt0 Hv Hn1 Hn2 Hn3]
    | destruct Hv as [rt0 k Hrt0 Hin Hnone | l e k Hir Hin Hk Hnone]].
  - (* a top-level key is missing *)
    repeat (apply elem_of_cons in Hin as [-> | Hin]; [congruence|]).
    by apply not_elem_of_nil in Hin.
  - (* start or end does not parse *)
    destruct Hbad as [e' Hbad].
    apply elem_of_cons in Hin as [-> | Hin].
    { assert (sv = PStr s) as -> by congruence. simpl in Hs'. congruence. }
    apply elem_of_cons in Hin as [-> | Hin].
    { assert (ev = PStr s) as -> by congruence. simpl in He'. congruence. }
    by apply not_elem_of_nil in Hin.
  - (* the date of a reading does not parse *)
    pose proof (metering_readings _ _ _ Hir Hok) as Hall.
    apply list_elem_of_lookup in Hin as [i Hi].
    destruct (Forall2_lookup_l _ _ _ _ _ Hall Hi) as (rd & _ & Hrd).
    rewrite (reading_from_dict_str_date _ _ Hds) in Hrd.
    apply bind_Ok in Hrd as (pd & Hpd & _). destruct Hbad as [e' Hbad]. congruence.
  - (* the value of a reading is not a number *)
    pose proof (metering_readings _ _ _ Hir Hok) as Hall.
    apply list_elem_of_lookup in Hin as [i Hi].
    destruct (Forall2_lookup_l _ _ _ _ _ Hall Hi) as (rd & _ & Hrd).
    apply reading_from_dict_Ok_inv in Hrd
      as (e0 & ds & raw & [= <-] & _ & Hraw & Hint & _).
    assert (raw = PStr s) as -> by congruence. simpl in Hint.
    destruct Hbad as [e' Hbad]. congruence.
  - (* measurement_kind *)
    assert (rt0 = rt) as -> by congruence. assert (mkv = v) as -> by congruence.
    by destruct (MeasurementKind_of_Ok _ _ Hmk').
  - (* aggregate *)
    assert (rt0 = rt) as -> by congruence. assert (agv = v) as -> by congruence.
    by destruct (Aggregate_of_Ok _ _ Hag') as [?|[?|?]].
  - (* a key of reading_type is missing *)
    assert (rt0 = rt) as -> by congruence.
    repeat (apply elem_of_cons in Hin as [-> | Hin]; [congruence|]).
    by apply not_elem_of_nil in Hin.
  - (* a key of a reading is missing *)
    pose proof (metering_readings _ _ _ Hir Hok) as Hall.
    apply list_elem_of_lookup in Hin as [i Hi].
    destruct (Forall2_lookup_l _ _ _ _ _ Hall Hi) as (rd & _ & Hrd).
    apply reading_from_dict_Ok_inv in Hrd
      as (e0 & ds & raw & [= <-] & Hds & Hraw & _).
    repeat (apply elem_of_cons in Hk as [-> | Hk]; [congruence|]).
    by apply not_elem_of_nil in Hk.
Qed.

(** C2 (amended).  For a document whose values have the JSON types of the
    schema, the mapping raises exactly when a required top-level key other
    than [interval_reading] is missing, a date string does not parse, the
    value string of a reading is not an integer literal, [measurement_kind]
    or [aggregate] holds a value outside its enumeration, or one of the
    keys [unit], [measurement_kind], [aggregate] of [reading_type] or
    [date], [value] of a reading is missing; what it raises is a
    [KeyError] or a [ValueError]; otherwise it returns a record, whose
    reading sequence is empty when [interval_reading] is absent or
    empty. *)
Theorem mapping_fails_exactly_on_violation {stdlib : PyStdlib} (d : gmap string pyval) :
  well_typed d →
  (is_Raise (MeteringData.from_dict (PDict d))
   ↔ violation_as_specified d ∨ missing_nested_key d)
  ∧ (∀ e, MeteringData.from_dict (PDict d) = Raise e → MalformedResponse e)
  ∧ (is_Ok (MeteringData.from_dict (PDict d))
     ↔ ¬ (violation_as_specified d ∨ missing_nested_key d))
  ∧ (d !! "interval_reading" = None ∨ d !! "interval_reading" = Some (PList []) →
     ∀ md, MeteringData.from_dict (PDict d) = Ok md →
           MeteringData.interval_reading md = []).
Proof.
  intros Ht.
  assert (is_Raise (MeteringData.from_dict (PDict d))
          ↔ violation_as_specified d ∨ missing_nested_key d) as Hiff.
  { split; [|apply violation_raises].
    intros [e He]. by destruct (metering_raise_cases d e Ht He). }
  split; [done|]. split; [|split].
  - intros e He. by destruct (metering_raise_cases d e Ht He).
  - rewrite <- Hiff, is_Raise_not_Ok. split; [tauto|].
    intros Hnn. destruct (Ok_or_Raise (MeteringData.from_dict (PDict d))) as [?|Hr]; [done|].
    apply is_Raise_not_Ok in Hr. tauto.
  - intros Hir md Hok. by eapply metering_no_readings.
Qed.

Lemma dict_without_unit_well_typed : well_typed dict_without_unit.
Proof.
  repeat split; intros v Hv; vm_compute in Hv; injection Hv as <-.
  - by eexists.
  - by eexists.
  - by eexists.
  - eexists. split; [done | constructor].
Qed.

Lemma mapping_fails_exactly_on_violation_witness :
  MalformedResponse (KeyError "unit")
  ∧ (violation_as_specified (stdlib := strict_stdlib) dict_without_unit
     ∨ missing_nested_key dict_without_unit).
Proof.
  destruct (mapping_fails_exactly_on_violation (stdlib := strict_stdlib)
              dict_without_unit dict_without_unit_well_typed) as (Hiff & Hexn & _).
  split.
  - apply Hexn. reflexivity.
  - apply Hiff. exists (KeyError "unit"). reflexivity.
Defined.

(** C2 as it was stated fails: the document without the key [unit] has all
    its top-level keys, two dates that parse, no reading and two
    recognized enumeration values, and its mapping raises. *)
Lemma missing_unit_counterexample :
  well_typed dict_without_unit
  ∧ ¬ violation_as_specified (stdlib := strict_stdlib) dict_without_unit
  ∧ MeteringData.from_dict (stdlib := strict_stdlib) (PDict dict_without_unit)
    = Raise (KeyError "unit").
Proof.
  split; [apply dict_without_unit_well_typed|]. split; [|reflexivity].
  intros [k Hin Hnone | k s Hin Hks Hbad | l e s Hir Hin Hds Hbad
         | l e s Hir Hin Hvs Hbad | rt v Hrt Hv Hn1 Hn2 | rt v Hrt Hv Hn1 Hn2 Hn3].
  - repeat (apply elem_of_cons in Hin as [-> | Hin]; [by vm_compute in Hnone|]).
    by apply not_elem_of_nil in Hin.
  - destruct Hbad as [e' Hbad].
    repeat (apply elem_of_cons in Hin as [-> | Hin];
            [vm_compute in Hks; injection Hks as <-; by vm_compute in Hbad|]).
    by apply not_elem_of_nil in Hin.
  - vm_compute in Hir. injection Hir as <-. by apply not_elem_of_nil in Hin.
  - vm_compute in Hir. injection Hir as <-. by apply not_elem_of_nil in Hin.
  - injection Hrt as <-. vm_compute in Hv. by injection Hv as <-.
  - injection Hrt as <-. vm_compute in Hv. by injection Hv as <-.
Qed.

(** C7.  The record mapped from a document gives back its top-level
    fields: [usage_point_id] and [quality] are the values of the document
    under those keys, [start] and [end] are the calendar dates parsed from
    its strings. *)
Theorem top_level_fields_round_trip {stdlib : PyStdlib} (data : pyval) (md : MeteringData.t) :
  MeteringData.from_dict data = Ok md →
  ∃ d, data = PDict d
    ∧ d !! "usage_point_id" = Some (MeteringData.usage_point_id md)
    ∧ d !! "quality" = Some (MeteringData.quality md)
    ∧ (∃ s, d !! "start" = Some (PStr s)
          ∧ date_fromisoformat s = Ok (MeteringData.start md))
    ∧ (∃ s, d !! "end" = Some (PStr s)
          ∧ date_fromisoformat s = Ok (MeteringData.end_ md)).
Proof.
  intros (d & rt & -> & _ & _ & _ & _ & _ & _ & Hupi & (sv & Hs & Hs') & (ev & He & He')
    & Hq)%metering_from_dict_Ok_inv.
  exists d. repeat split; try done.
  - destruct sv as [| | | |s| |]; try done. by exists s.
  - destruct ev as [| | | |s| |]; try done. by exists s.
Qed.

(** The record of the sample document. *)
Lemma daily_consumption_mapped :
  ∃ md, MeteringData.from_dict (stdlib := strict_stdlib) daily_consumption_response = Ok md
    ∧ MeteringData.usage_point_id md = PStr "12345678901234"
    ∧ MeteringData.start md = mk_date 2024 1 1
    ∧ MeteringData.end_ md = mk_date 2024 1 4
    ∧ MeteringData.quality md = PStr "BRUT"
    ∧ ReadingType.unit (MeteringData.reading_type md) = PStr "Wh"
    ∧ map IntervalReading.value (MeteringData.interval_reading md)
      = [11776; 14401; 12820]%Z.
Proof. eexists. split; [vm_compute; reflexivity|]. by vm_compute. Qed.

Lemma top_level_fields_round_trip_witness :
  ∃ md, MeteringData.from_dict (stdlib := strict_stdlib) daily_consumption_response = Ok md
    ∧ daily_consumption_dict !! "usage_point_id" = Some (MeteringData.usage_point_id md)
    ∧ daily_consumption_dict !! "quality" = Some (MeteringData.quality md).
Proof.
  destruct daily_consumption_mapped as (md & Hmd & _).
  exists md. split; [exact Hmd|].
  destruct (top_level_fields_round_trip (stdlib := strict_stdlib) _ md Hmd)
    as (d & Hd & Hupi & Hq & _).
  injection Hd as <-. by split.
Defined.

(** C10.  When the document has a list under [interval_reading], the
    record has as many readings as the list has entries, and the reading
    at each position is the mapped entry of that position. *)
Theorem readings_follow_source_order {stdlib : PyStdlib}
    (d : gmap string pyval) (l : list pyval) (md : MeteringData.t) :
  MeteringData.from_dict (PDict d) = Ok md →
  d !! "interval_reading" = Some (PList l) →
  length (MeteringData.interval_reading md) = length l
  ∧ (∀ i r, l !! i = Some r →
       ∃ rd, MeteringData.interval_reading md !! i = Some rd
         ∧ IntervalReading.from_dict r = Ok rd)
  ∧ (∀ i rd, MeteringData.interval_reading md !! i = Some rd →
       ∃ r, l !! i = Some r ∧ IntervalReading.from_dict r = Ok rd).
Proof.
  intros Hok Hir. pose proof (metering_readings d l md Hir Hok) as Hall.
  split; [symmetry; by eapply Forall2_length|]. split.
  - intros i r Hi.
    destruct (Forall2_lookup_l _ _ _ _ _ Hall Hi) as (rd & Hrd & Hmap). by exists rd.
  - intros i rd Hi.
    destruct (Forall2_lookup_r _ _ _ _ _ Hall Hi) as (r & Hr & Hmap). by exists r.
Qed.

Lemma readings_follow_source_order_witness :
  ∃ md, MeteringData.from_dict (stdlib := strict_stdlib) daily_consumption_response = Ok md
    ∧ length (MeteringData.interval_reading md) = 3
    ∧ ∃ rd, MeteringData.interval_reading md !! 1 = Some rd
        ∧ IntervalReading.from_dict (stdlib := strict_stdlib)
            (reading [("value", PStr "14401"); ("date", PStr "2024-01-02")]) = Ok rd.
Proof.
  destruct daily_consumption_mapped as (md & Hmd & _).
  exists md. split; [exact Hmd|].
  destruct (readings_follow_source_order (stdlib := strict_stdlib)
              daily_consumption_dict _ md Hmd eq_refl)
    as (Hlen & Hfwd & _).
  split; [exact Hlen|]. by apply Hfwd.
Defined.

(** ** True division *)

Section binary64.

Local Open Scope Z_scope.

(** [round_div] is within one half of the quotient, and even on a tie. *)
Lemma round_div_spec n d :
  0 ≤ n → 0 < d →
  0 ≤ round_div n d
  ∧ 2 * Z.abs (n - round_div n d * d) ≤ d
  ∧ (2 * Z.abs (n - round_div n d * d) = d → Z.even (round_div n d) = true).
Proof.
  intros Hn Hd. unfold round_div.
  pose proof (Z.div_mod n d ltac:(lia)) as Hdm.
  pose proof (Z.mod_pos_bound n d Hd) as Hr.
  pose proof (Z.div_pos n d Hn Hd) as Hq.
  set (q := n / d) in *. set (r := n mod d) in *.
  destruct (2 * r <? d) eqn:H1; [apply Z.ltb_lt in H1|apply Z.ltb_ge in H1].
  { split; [done|]. split; nia. }
  destruct (d <? 2 * r) eqn:H2; [apply Z.ltb_lt in H2|apply Z.ltb_ge in H2].
  { split; [lia|]. split; nia. }
  destruct (Z.even q) eqn:He.
  - split; [done|]. split; [nia|done].
  - split; [lia|]. split; [nia|]. intros _.
    rewrite Z.even_add, He. reflexivity.
Qed.

(** Rounding is monotone and keeps the integers. *)
Lemma round_div_ge n d A : 0 ≤ n → 0 < d → A * d ≤ n → A ≤ round_div n d.
Proof.
  intros Hn Hd HA. destruct (round_div_spec n d Hn Hd) as (_ & Hnear & _). nia.
Qed.

Lemma round_div_le n d A : 0 ≤ n → 0 < d → n ≤ A * d → round_div n d ≤ A.
Proof.
  intros Hn Hd HA. destruct (round_div_spec n d Hn Hd) as (_ & Hnear & _). nia.
Qed.

Lemma round_div_exact A d : 0 ≤ A → 0 < d → round_div (A * d) d = A.
Proof.
  intros HA Hd. apply Z.le_antisymm.
  - apply round_div_le; nia.
  - apply round_div_ge; nia.
Qed.

(** [quotient_log2] brackets the quotient between two powers of two. *)
Lemma quotient_log2_spec n d :
  0 < n → 0 < d →
  (0 ≤ quotient_log2 n d → d * 2 ^ quotient_log2 n d ≤ n < d * 2 ^ (quotient_log2 n d + 1))
  ∧ (quotient_log2 n d < 0 → n < d).
Proof.
  intros Hn Hd. unfold quotient_log2.
  pose proof (Z.log2_spec n Hn) as [Hn1 Hn2].
  pose proof (Z.log2_spec d Hd) as [Hd1 Hd2].
  pose proof (Z.log2_nonneg n) as Hln. pose proof (Z.log2_nonneg d) as Hld.
  set (la := Z.log2 n) in *. set (lb := Z.log2 d) in *.
  replace (Z.succ la) with (la + 1) in Hn2 by lia.
  replace (Z.succ lb) with (lb + 1) in Hd2 by lia.
  destruct (Z.lt_ge_cases (la - lb) 0) as [Hneg|Hpos].
  - rewrite (Z.pow_neg_r 2 (la - lb)) by lia.
    replace (n <? d * 0) with false by (symmetry; apply Z.ltb_ge; lia).
    split; [lia|]. intros _.
    assert (2 ^ (la + 1) ≤ 2 ^ lb) by (apply Z.pow_le_mono_r; lia). lia.
  - assert (2 ^ la = 2 ^ lb * 2 ^ (la - lb)) as Hla.
    { rewrite <- Z.pow_add_r by lia. f_equal. lia. }
    assert (0 < 2 ^ (la - lb)) as Hp by (apply Z.pow_pos_nonneg; lia).
    rewrite (Z.pow_add_r 2 la 1) in Hn2 by lia.
    rewrite (Z.pow_add_r 2 lb 1) in Hd2 by lia.
    change (2 ^ 1) with 2 in *.
    destruct (n <? d * 2 ^ (la - lb)) eqn:Hlt;
      [apply Z.ltb_lt in Hlt | apply Z.ltb_ge in Hlt].
    + split.
      * intros He. replace (la - lb - 1 + 1) with (la - lb) by lia.
        split; [|done].
        assert (2 ^ (la - lb) = 2 * 2 ^ (la - lb - 1)) as Hp2.
        { rewrite <- (Z.pow_succ_r 2) by lia. f_equal. lia. }
        assert (0 < 2 ^ (la - lb - 1)) by (apply Z.pow_pos_nonneg; lia).
        nia.
      * intros He. assert (la - lb = 0) as Hz by lia. rewrite Hz in Hlt.
        change (2 ^ 0) with 1 in Hlt. lia.
    + split; [|lia]. intros _. split; [done|].
      rewrite (Z.pow_add_r 2 (la - lb) 1) by lia. change (2 ^ 1) with 2. nia.
Qed.

(** At the exponent [div_exponent] the quotient has 53 bits, or fewer at
    exponent 0. *)
Lemma div_exponent_spec n d :
  0 ≤ n → 0 < d →
  0 ≤ div_exponent n d
  ∧ (div_exponent n d = 0 → n < d * 2 ^ 53)
  ∧ (0 < div_exponent n d →
     d * (2 ^ 52 * 2 ^ div_exponent n d) ≤ n < d * (2 ^ 53 * 2 ^ div_exponent n d)).
Proof.
  intros Hn Hd. unfold div_exponent. split; [lia|].
  destruct (Z.eq_dec n 0) as [->|Hn0].
  { assert (0 < 2 ^ 53) by (by apply Z.pow_pos_nonneg).
    assert (quotient_log2 0 d ≤ 0) as Hq.
    { unfold quotient_log2. change (Z.log2 0) with 0.
      pose proof (Z.log2_nonneg d). destruct (_ <? _); lia. }
    split; [nia | lia]. }
  destruct (quotient_log2_spec n d ltac:(lia) Hd) as [Hpos Hneg].
  set (e := quotient_log2 n d) in *.
  assert (0 < 2 ^ 53) by (by apply Z.pow_pos_nonneg).
  split.
  - intros Hk. destruct (Z.lt_ge_cases e 0) as [He|He]; [specialize (Hneg He); nia|].
    destruct (Hpos He) as [_ Hlt].
    assert (2 ^ (e + 1) ≤ 2 ^ 53) by (apply Z.pow_le_mono_r; lia). nia.
  - intros Hk. assert (Z.max 0 (e - 52) = e - 52) as -> by lia.
    destruct (Hpos ltac:(lia)) as [Hle Hlt].
    rewrite <- !Z.pow_add_r by lia.
    replace (52 + (e - 52)) with e by lia. replace (53 + (e - 52)) with (e + 1) by lia.
    done.
Qed.

(** What [div_round] returns, from the rounded significand [m0] at the
    exponent [k0]. *)
Lemma div_round_inv n d m k :
  0 ≤ n → 0 < d → div_round n d = (m, k) →
  ∃ k0 m0,
    k0 = div_exponent n d ∧ m0 = round_div n (d * 2 ^ k0)
    ∧ m * 2 ^ k = m0 * 2 ^ k0
    ∧ 0 ≤ k0 ∧ 0 ≤ m0 ≤ 2 ^ 53 ∧ (0 < k0 → 2 ^ 52 ≤ m0)
    ∧ ((m0 = 2 ^ 53 ∧ m = 2 ^ 52 ∧ k = k0 + 1) ∨ (m0 < 2 ^ 53 ∧ m = m0 ∧ k = k0)).
Proof.
  intros Hn Hd Hdr. unfold div_round in Hdr.
  destruct (div_exponent_spec n d Hn Hd) as (Hk0 & Hzero & Hpos).
  set (k0 := div_exponent n d) in *.
  assert (0 < 2 ^ k0) as Hp by (by apply Z.pow_pos_nonneg).
  assert (0 < d * 2 ^ k0) as HD by nia.
  destruct (round_div_spec n (d * 2 ^ k0) Hn HD) as (Hm0 & _).
  set (m0 := round_div n (d * 2 ^ k0)) in *.
  exists k0, m0. split; [done|]. split; [done|].
  assert (m0 ≤ 2 ^ 53) as Hle.
  { apply round_div_le; [done..|].
    destruct (Z.eq_dec k0 0) as [Hz|Hnz].
    - specialize (Hzero Hz). rewrite Hz. change (2 ^ 0) with 1. lia.
    - destruct (Hpos ltac:(lia)) as [_ Hlt]. lia. }
  assert (0 < k0 → 2 ^ 52 ≤ m0) as Hge.
  { intros Hk. apply round_div_ge; [done..|]. destruct (Hpos Hk) as [Hl _]. lia. }
  destruct (m0 =? 2 ^ 53) eqn:He; [apply Z.eqb_eq in He|apply Z.eqb_neq in He];
    injection Hdr as <- <-.
  - split; [|split; [done|]; split; [lia|]; split; [done|]; by left].
    rewrite He, Z.pow_add_r by lia. change (2 ^ 1) with 2.
    change (2 ^ 53) with (2 ^ 52 * 2). lia.
  - split; [done|]. split; [done|]. split; [lia|]. split; [done|]. right. lia.
Qed.

(** The rounded quotient is within half a unit in the last place. *)
Lemma div_round_near n d m k :
  0 ≤ n → 0 < d → div_round n d = (m, k) →
  2 * Z.abs (n - d * (m * 2 ^ k)) ≤ d * 2 ^ k.
Proof.
  intros Hn Hd Hdr.
  destruct (div_round_inv n d m k Hn Hd Hdr)
    as (k0 & m0 & _ & Hm0 & Hval & Hk0 & _ & _ & Hcase).
  assert (0 < 2 ^ k0) as Hp by (by apply Z.pow_pos_nonneg).
  destruct (round_div_spec n (d * 2 ^ k0) Hn ltac:(nia)) as (_ & Hnear & _).
  rewrite <- Hm0 in Hnear. rewrite Hval.
  replace (n - d * (m0 * 2 ^ k0)) with (n - m0 * (d * 2 ^ k0)) by lia.
  destruct Hcase as [(_ & _ & ->) | (_ & _ & ->)]; [|done].
  rewrite Z.pow_add_r by lia. change (2 ^ 1) with 2. nia.
Qed.

(** Rounding does not cross an integer up to [2^53]. *)
Lemma div_round_bounds n d m k L :
  0 ≤ n → 0 < d → div_round n d = (m, k) → 0 ≤ L ≤ 2 ^ 53 →
  (L * 2 ^ 1074 * d ≤ n → L * 2 ^ 1074 ≤ m * 2 ^ k)
  ∧ (n ≤ L * 2 ^ 1074 * d → m * 2 ^ k ≤ L * 2 ^ 1074).
Proof.
  intros Hn Hd Hdr HL.
  destruct (div_round_inv n d m k Hn Hd Hdr)
    as (k0 & m0 & Hk0e & Hm0 & Hval & Hk0 & Hm0r & Hnorm & _).
  rewrite Hval. clear Hval Hdr m k.
  destruct (div_exponent_spec n d Hn Hd) as (_ & _ & Hpos). rewrite <- Hk0e in Hpos.
  assert (0 < 2 ^ k0) as Hp by (by apply Z.pow_pos_nonneg).
  assert (0 < 2 ^ 1074) as Hq by (by apply Z.pow_pos_nonneg).
  destruct (Z.le_gt_cases k0 1074) as [Hsmall|Hbig].
  - (* the bound is a multiple of the unit in the last place *)
    assert (2 ^ 1074 = 2 ^ (1074 - k0) * 2 ^ k0) as Hsplit.
    { rewrite <- Z.pow_add_r by lia. f_equal. lia. }
    assert (0 < 2 ^ (1074 - k0)) as Hr by (apply Z.pow_pos_nonneg; lia).
    rewrite Hsplit. set (A := L * 2 ^ (1074 - k0)).
    replace (L * (2 ^ (1074 - k0) * 2 ^ k0)) with (A * 2 ^ k0) by (unfold A; lia).
    split; intros Hle.
    + assert (A ≤ m0); [|nia]. rewrite Hm0. apply round_div_ge; [done|nia|]. nia.
    + assert (m0 ≤ A); [|nia]. rewrite Hm0. apply round_div_le; [done|nia|]. nia.
  - (* the quotient is at least 2^53 *)
    destruct (Hpos ltac:(lia)) as [Hlo Hhi].
    specialize (Hnorm ltac:(lia)).
    assert (2 ^ k0 = 2 ^ (k0 - 1075) * (2 * 2 ^ 1074)) as Hsplit.
    { rewrite <- (Z.pow_succ_r 2 1074), <- Z.pow_add_r by lia. f_equal. lia. }
    assert (0 < 2 ^ (k0 - 1075)) as Hr by (apply Z.pow_pos_nonneg; lia).
    change (2 ^ 53) with (2 ^ 52 * 2) in *.
    assert (0 < 2 ^ 52) by done.
    split; intros Hle.
    + rewrite Hsplit. nia.
    + (* then the bound is 2^53 and the quotient is exactly it *)
      assert (L = 2 ^ 52 * 2 ∧ 2 ^ (k0 - 1075) = 1) as [-> Hone].
      { rewrite Hsplit in Hlo. split; nia. }
      rewrite Hsplit, Hone.
      assert (m0 ≤ 2 ^ 52); [|nia]. rewrite Hm0. apply round_div_le; [done|nia|].
      rewrite Hsplit, Hone. nia.
Qed.

(** The exponent leaves the range exactly from [float_overflow_bound]. *)
Lemma div_round_overflow n d m k :
  0 ≤ n → 0 < d → div_round n d = (m, k) →
  2045 < k ↔ (2 ^ 54 - 1) * 2 ^ 2044 * d ≤ n.
Proof.
  intros Hn Hd Hdr.
  destruct (div_round_inv n d m k Hn Hd Hdr)
    as (k0 & m0 & Hk0e & Hm0 & _ & Hk0 & Hm0r & _ & Hcase).
  destruct (div_exponent_spec n d Hn Hd) as (_ & Hzero & Hpos).
  rewrite <- Hk0e in Hzero, Hpos.
  assert (0 < 2 ^ k0) as Hp by (by apply Z.pow_pos_nonneg).
  destruct (round_div_spec n (d * 2 ^ k0) Hn ltac:(nia)) as (_ & Hnear & Htie).
  rewrite <- Hm0 in Hnear, Htie.
  assert (0 < 2 ^ 2044) as HP by (by apply Z.pow_pos_nonneg).
  assert (k0 ≤ 2044 → 2 ^ k0 ≤ 2 ^ 2044) as Hsmall
    by (intros; apply Z.pow_le_mono_r; lia).
  assert (2045 ≤ k0 → 2 * 2 ^ 2044 ≤ 2 ^ k0) as Hbig.
  { intros. rewrite <- (Z.pow_succ_r 2 2044) by lia. apply Z.pow_le_mono_r; lia. }
  assert (2046 ≤ k0 → 4 * 2 ^ 2044 ≤ 2 ^ k0) as Hbigger.
  { intros. change 4 with (2 ^ 2). rewrite <- Z.pow_add_r by lia.
    apply Z.pow_le_mono_r; lia. }
  assert (2 ^ 2045 = 2 * 2 ^ 2044) as H2045 by (by rewrite <- (Z.pow_succ_r 2 2044)).
  change (2 ^ 54) with 18014398509481984 in *.
  change (2 ^ 53) with 9007199254740992 in *.
  change (2 ^ 52) with 4503599627370496 in *.
  set (P := 2 ^ 2044) in *. set (Q := 2 ^ k0) in *.
  assert (n < d * (9007199254740992 * P) → k0 ≤ 2044) as Hlow.
  { intros Hlt. destruct (Z.le_gt_cases k0 2044) as [|Hgt]; [done|].
    specialize (Hbig ltac:(lia)). destruct (Hpos ltac:(lia)) as [Hlo _]. nia. }
  assert (k0 ≤ 2044 → n < d * (9007199254740992 * P)) as Hlow'.
  { intros Hle. specialize (Hsmall Hle).
    destruct (Z.eq_dec k0 0) as [Hz|Hnz].
    - specialize (Hzero Hz). nia.
    - destruct (Hpos ltac:(lia)) as [_ Hhi]. nia. }
  split.
  - intros Hk. destruct Hcase as [(-> & _ & ->) | (Hlt & _ & ->)].
    + specialize (Hbig ltac:(lia)). nia.
    + specialize (Hbigger ltac:(lia)). destruct (Hpos ltac:(lia)) as [Hlo _]. nia.
  - intros Hle. destruct (Z.lt_ge_cases 2045 k) as [|Hk]; [done|]. exfalso.
    assert (¬ k0 ≤ 2044) as Hnot by (intros Hle'; specialize (Hlow' Hle'); nia).
    destruct Hcase as [(_ & _ & ->) | (Hlt & _ & ->)]; [lia|].
    assert (k0 = 2045) as Hk0' by lia.
    assert (Q = 2 * P) as HQ by (unfold Q; by rewrite Hk0').
    rewrite HQ in *.
    assert (m0 = 9007199254740991) as Hm0' by nia.
    assert (2 * Z.abs (n - m0 * (d * (2 * P))) = d * (2 * P)) as Heq by nia.
    specialize (Htie Heq). by rewrite Hm0' in Htie.
Qed.

Lemma digits2_pos_spec p :
  2 ^ (Z.pos (digits2_pos p) - 1) ≤ Z.pos p < 2 ^ Z.pos (digits2_pos p).
Proof.
  induction p as [p IH|p IH|]; cbn [digits2_pos]; [| |done];
    rewrite Pos2Z.inj_succ;
    replace (Z.succ (Z.pos (digits2_pos p)) - 1) with (Z.succ (Z.pos (digits2_pos p) - 1))
      by lia;
    rewrite !Z.pow_succ_r by lia; lia.
Qed.

(** What [div_round] returns within the range is a binary64 number. *)
Lemma div_round_bounded n d m k :
  0 ≤ n → 0 < d → div_round n d = (m, k) → m ≠ 0 → k ≤ 2045 →
  bounded 53 1024 (Z.to_pos m) (k - 1074) = true.
Proof.
  intros Hn Hd Hdr Hm Hk.
  destruct (div_round_inv n d m k Hn Hd Hdr)
    as (k0 & m0 & _ & _ & _ & Hk0 & Hm0r & Hnorm & Hcase).
  assert (0 < m < 2 ^ 53 ∧ 0 ≤ k ∧ (0 < k → 2 ^ 52 ≤ m)) as (Hmr & Hk' & Hnorm').
  { change (2 ^ 53) with 9007199254740992 in *.
    change (2 ^ 52) with 4503599627370496 in *.
    destruct Hcase as [(_ & -> & ->) | (? & -> & ->)]; lia. }
  pose proof (digits2_pos_spec (Z.to_pos m)) as [Hd1 Hd2].
  rewrite Z2Pos.id in Hd1, Hd2 by lia.
  set (dg := Z.pos (digits2_pos (Z.to_pos m))) in *.
  assert (0 < dg) as Hdg by done.
  assert (dg ≤ 53) as Hdg53.
  { destruct (Z.le_gt_cases dg 53) as [|Hgt]; [done|].
    assert (2 ^ 53 ≤ 2 ^ (dg - 1)) by (apply Z.pow_le_mono_r; lia). lia. }
  assert (2 ^ 52 ≤ m → dg = 53) as Hfull.
  { intros Hle. destruct (Z.le_gt_cases 53 dg) as [|Hlt]; [lia|].
    assert (2 ^ dg ≤ 2 ^ 52) by (apply Z.pow_le_mono_r; lia). lia. }
  unfold bounded, canonical_mantissa, fexp, emin. fold dg.
  apply andb_true_iff. split; [apply Z.eqb_eq | apply Z.leb_le; lia].
  destruct (Z.eq_dec k 0) as [->|Hnz]; [lia|].
  rewrite (Hfull (Hnorm' ltac:(lia))). lia.
Qed.

Lemma float_overflow_bound_scaled :
  float_overflow_bound * 2 ^ 1074 = (2 ^ 54 - 1) * 2 ^ 2044.
Proof. by vm_compute. Qed.

(** [a / b] for a positive divisor. *)
Lemma truediv_spec a b :
  0 < b →
  (float_overflow_bound * b ≤ Z.abs a → truediv a b = Raise OverflowError)
  ∧ (Z.abs a < float_overflow_bound * b →
     ∃ f x, truediv a b = Ok f
       ∧ is_binary64 f ∧ sign_bit f = Some (a <? 0) ∧ scaled f = Some x
       ∧ 2 * Z.abs (a * 2 ^ 1074 - b * x) ≤ b * ulp_scaled f
       ∧ ∀ L, - 2 ^ 53 ≤ L ≤ 2 ^ 53 →
           (L * b ≤ a → L * 2 ^ 1074 ≤ x) ∧ (a ≤ L * b → x ≤ L * 2 ^ 1074)).
Proof.
  intros Hb. unfold truediv.
  replace (b =? 0) with false by (symmetry; apply Z.eqb_neq; lia).
  replace (b <? 0) with false by (symmetry; apply Z.ltb_ge; lia).
  rewrite xorb_false_r, (Z.abs_eq b) by lia.
  assert (0 < 2 ^ 1074) as Hq by (by apply Z.pow_pos_nonneg).
  assert (0 ≤ Z.abs a * 2 ^ 1074) as Hn by nia.
  destruct (div_round (Z.abs a * 2 ^ 1074) b) as [m k] eqn:Hdr.
  pose proof (div_round_overflow _ _ _ _ Hn Hb Hdr) as Hover.
  rewrite <- float_overflow_bound_scaled in Hover.
  assert (2045 < k ↔ float_overflow_bound * b ≤ Z.abs a) as Hover'.
  { rewrite Hover. nia. }
  destruct (div_round_inv _ _ _ _ Hn Hb Hdr)
    as (k0 & m0 & _ & _ & _ & Hk0 & Hm0r & Hnorm & Hcase).
  assert (0 ≤ m ∧ 0 ≤ k ∧ (0 < k → m ≠ 0)) as (Hm & Hk & Hnz).
  { change (2 ^ 53) with 9007199254740992 in *.
    change (2 ^ 52) with 4503599627370496 in *.
    destruct Hcase as [(_ & -> & ->) | (? & -> & ->)]; lia. }
  split.
  - intros Hle. apply Hover' in Hle.
    replace (m =? 0) with false by (symmetry; apply Z.eqb_neq; lia).
    by replace (2045 <? k) with true by (symmetry; apply Z.ltb_lt; lia).
  - intros Hlt. assert (k ≤ 2045) as Hk' by lia.
    pose proof (div_round_near _ _ _ _ Hn Hb Hdr) as Hnear.
    assert (0 < 2 ^ k) as Hp by (by apply Z.pow_pos_nonneg).
    set (x := (if a <? 0 then - m else m) * 2 ^ k).
    assert (2 * Z.abs (a * 2 ^ 1074 - b * x) ≤ b * 2 ^ k) as Hnear'.
    { unfold x. destruct (a <? 0) eqn:Ha;
        [apply Z.ltb_lt in Ha | apply Z.ltb_ge in Ha].
      - rewrite (Z.abs_neq a) in Hnear by lia.
        replace (a * 2 ^ 1074 - b * (- m * 2 ^ k))
          with (- (- a * 2 ^ 1074 - b * (m * 2 ^ k))) by lia.
        by rewrite Z.abs_opp.
      - by rewrite (Z.abs_eq a) in Hnear by lia. }
    assert (∀ L, - 2 ^ 53 ≤ L ≤ 2 ^ 53 →
              (L * b ≤ a → L * 2 ^ 1074 ≤ x) ∧ (a ≤ L * b → x ≤ L * 2 ^ 1074)) as Hbounds.
    { intros L HL. unfold x.
      assert (∀ L', 0 ≤ L' ≤ 2 ^ 53 →
                (L' * b ≤ Z.abs a → L' * 2 ^ 1074 ≤ m * 2 ^ k)
                ∧ (Z.abs a ≤ L' * b → m * 2 ^ k ≤ L' * 2 ^ 1074)) as Hmag.
      { intros L' HL'.
        destruct (div_round_bounds _ _ _ _ L' Hn Hb Hdr HL') as [Hlow Hup].
        split; intros Hle; [apply Hlow | apply Hup]; nia. }
      assert (0 ≤ m * 2 ^ k) as Hv by nia.
      destruct (a <? 0) eqn:Ha; [apply Z.ltb_lt in Ha | apply Z.ltb_ge in Ha].
      - rewrite (Z.abs_neq a) in Hmag by lia. split; intros HLa.
        + assert (L < 0) as HL0 by nia.
          destruct (Hmag (- L) ltac:(lia)) as [_ Hup]. specialize (Hup ltac:(lia)). lia.
        + destruct (Z.le_gt_cases 0 L) as [HL0|HL0]; [nia|].
          destruct (Hmag (- L) ltac:(lia)) as [Hlow _]. specialize (Hlow ltac:(lia)). lia.
      - rewrite (Z.abs_eq a) in Hmag by lia. split; intros HLa.
        + destruct (Z.le_gt_cases L 0) as [HL0|HL0]; [nia|].
          destruct (Hmag L ltac:(lia)) as [Hlow _]. specialize (Hlow ltac:(lia)). lia.
        + assert (0 ≤ L) as HL0 by nia.
          destruct (Hmag L ltac:(lia)) as [_ Hup]. specialize (Hup ltac:(lia)). lia. }
    destruct (m =? 0) eqn:Hm0; [apply Z.eqb_eq in Hm0 | apply Z.eqb_neq in Hm0].
    + exists (S754_zero (a <? 0)), 0. split; [done|]. split; [done|].
      split; [done|]. split; [done|].
      assert (k = 0) as -> by lia. assert (x = 0) as Hx0 by (unfold x; rewrite Hm0; by destruct (a <? 0)).
      rewrite Hx0 in *. change (2 ^ 0) with 1 in Hnear'. split; [done|]. done.
    + replace (2045 <? k) with false by (symmetry; apply Z.ltb_ge; lia).
      exists (S754_finite (a <? 0) (Z.to_pos m) (k - 1074)), x.
      split; [done|]. split; [exact (div_round_bounded _ _ _ _ Hn Hb Hdr Hm0 Hk')|]. split; [done|].
      cbn [scaled ulp_scaled]. replace (k - 1074 + 1074) with k by lia.
      rewrite Z2Pos.id by lia. split; [|done].
      unfold x. by destruct (a <? 0).
Qed.

End binary64.

(** On these quotients [truediv] is the division of the standard
    library's specification of IEEE 754, an infinity there being the
    [OverflowError] here: an integer above [2^53], a quotient that is not
    exact, ties to even, the least positive float, a tie below it, and the
    two sides of the overflow bound. *)
Lemma truediv_agrees_with_SFdiv :
  map (λ ab, truediv ab.1 ab.2) division_samples
  = map (λ ab, float_result (SFdiv_of_integers ab.1 ab.2)) division_samples.
Proof. vm_compute. reflexivity. Qed.

(** ** The aggregates *)

Lemma fold_left_add_Zsum zs a : fold_left Z.add zs a = (a + Zsum zs)%Z.
Proof.
  revert a. induction zs as [|z zs IH]; intros a; simpl; [lia|].
  rewrite IH. unfold Zsum. simpl. lia.
Qed.

Lemma total_Zsum md :
  MeteringData.total md = Zsum (map IntervalReading.value (MeteringData.interval_reading md)).
Proof. unfold MeteringData.total. rewrite fold_left_add_Zsum. lia. Qed.

(** The sum does not depend on the order of the readings. *)
Lemma Zsum_Permutation zs zs' : zs ≡ₚ zs' → Zsum zs = Zsum zs'.
Proof. unfold Zsum. induction 1; simpl; lia. Qed.

Lemma Zsum_app zs zs' : Zsum (zs ++ zs') = (Zsum zs + Zsum zs')%Z.
Proof. unfold Zsum. induction zs as [|z zs IH]; simpl; lia. Qed.

(** [average] on a record with readings is the true division of the total
    by their number, which is positive. *)
Lemma average_truediv md :
  MeteringData.interval_reading md ≠ [] →
  (0 < Z.of_nat (length (MeteringData.interval_reading md)))%Z
  ∧ MeteringData.average md
    = truediv (MeteringData.total md)
        (Z.of_nat (length (MeteringData.interval_reading md))).
Proof.
  intros Hne. unfold MeteringData.average.
  destruct (MeteringData.interval_reading md); [done|]. simpl length. split; [lia|done].
Qed.




(** ** The date of a reading *)

Lemma chars_app a b : chars (a +:+ b) = chars a ++ chars b.
Proof. unfold chars. induction a as [|c a IH]; simpl; [done | by rewrite IH]. Qed.

Lemma str_contains_app c a b :
  str_contains c (a +:+ b) = str_contains c a || str_contains c b.
Proof. unfold str_contains. by rewrite chars_app, existsb_app. Qed.

Lemma str_replace_app x y a b :
  str_replace x y (a +:+ b) = str_replace x y a +:+ str_replace x y b.
Proof.
  unfold str_replace, chars. induction a as [|c a IH]; simpl; [done | by rewrite IH].
Qed.

Lemma str_replace_absent x y s : str_contains x s = false → str_replace x y s = s.
Proof.
  unfold str_replace, str_contains, chars. induction s as [|c s IH]; simpl; [done|].
  intros [Hc Hs]%orb_false_iff. rewrite (IH Hs).
  rewrite Ascii.eqb_sym in Hc. by rewrite Hc.
Qed.

(** A space between two parts without spaces is read as a [T]. *)
Lemma reading_date_rule_space {stdlib : PyStdlib} a b :
  str_contains " " a = false → str_contains " " b = false →
  reading_date_rule (a +:+ " " +:+ b) = reading_date_rule (a +:+ "T" +:+ b)
  ∧ reading_date_rule (a +:+ "T" +:+ b)
    = DateTime <$> datetime_fromisoformat (a +:+ "T" +:+ b).
Proof.
  intros Ha Hb. unfold reading_date_rule.
  rewrite !str_contains_app, !str_replace_app, !(str_replace_absent " " "T" _ Ha),
    !(str_replace_absent " " "T" _ Hb).
  replace (str_contains "T" "T") with true by reflexivity.
  replace (str_contains " " " ") with true by reflexivity.
  replace (str_replace " " "T" " ") with "T"%string by reflexivity.
  replace (str_replace " " "T" "T") with "T"%string by reflexivity.
  by rewrite !orb_true_r, !orb_true_l.
Qed.

(** ** The standard library of the examples *)

Lemma digit_char_spec (k : Z) :
  (0 ≤ k ≤ 9)%Z → is_digit (digit_char k) = true ∧ digit_val (digit_char k) = k.
Proof.
  intros Hk.
  assert (k = 0 ∨ k = 1 ∨ k = 2 ∨ k = 3 ∨ k = 4 ∨ k = 5 ∨ k = 6 ∨ k = 7 ∨ k = 8 ∨ k = 9)%Z
    as Hcases by lia.
  clear Hk.
  repeat destruct Hcases as [-> | Hcases]; try subst k; vm_compute; split; reflexivity.
Qed.

Lemma take_digit (k acc : Z) (n : nat) (cs : list ascii) :
  (0 ≤ k ≤ 9)%Z →
  take_digits (S n) acc (digit_char k :: cs) = take_digits n (acc * 10 + k) cs.
Proof. intros [Hd Hv]%digit_char_spec. cbn [take_digits]. by rewrite Hd, Hv. Qed.

Lemma take_digits2 (n acc : Z) (cs : list ascii) :
  (0 ≤ n ≤ 99)%Z → take_digits 2 acc (digits2 n ++ cs) = Some (acc * 100 + n, cs)%Z.
Proof.
  intros Hn. unfold digits2. cbn [app].
  rewrite !take_digit by (Z.div_mod_to_equations; lia).
  cbn [take_digits]. do 2 f_equal. Z.div_mod_to_equations. lia.
Qed.

Lemma take_digits4 (n : Z) (cs : list ascii) :
  (0 ≤ n ≤ 9999)%Z → take_digits 4 0 (digits4 n ++ cs) = Some (n, cs).
Proof.
  intros Hn. unfold digits4. cbn [app].
  rewrite !take_digit by (Z.div_mod_to_equations; lia).
  cbn [take_digits]. do 2 f_equal. Z.div_mod_to_equations. lia.
Qed.

Lemma days_in_month_bounds y m : (28 ≤ days_in_month y m ≤ 31)%Z.
Proof. unfold days_in_month. repeat case_match; lia. Qed.

Lemma date_new_Some y m d dt :
  date_new y m d = Some dt →
  dt = mk_date y m d
  ∧ (1 ≤ y ≤ 9999 ∧ 1 ≤ m ≤ 12 ∧ 1 ≤ d ≤ days_in_month y m)%Z.
Proof.
  unfold date_new. case_match eqn:Hc; [|done]. intros [= <-]. split; [done|].
  repeat (apply andb_true_iff in Hc as [Hc ?]).
  repeat match goal with H : (_ <=? _)%Z = true |- _ => apply Z.leb_le in H end. lia.
Qed.

Lemma take_char_cons c cs : take_char c (c :: cs) = Some cs.
Proof. unfold take_char. by rewrite Ascii.eqb_refl. Qed.

Lemma eqb_digit_char c k :
  is_digit c = false → (0 ≤ k ≤ 9)%Z → Ascii.eqb c (digit_char k) = false.
Proof.
  intros Hc [Hd _]%digit_char_spec. apply Ascii.eqb_neq. intros ->. congruence.
Qed.

Lemma existsb_digits2 c n :
  is_digit c = false → existsb (Ascii.eqb c) (digits2 n) = false.
Proof.
  intros Hc. unfold digits2. cbn [existsb].
  by rewrite !(eqb_digit_char c) by (done || (Z.div_mod_to_equations; lia)).
Qed.

Lemma existsb_digits4 c n :
  is_digit c = false → existsb (Ascii.eqb c) (digits4 n) = false.
Proof.
  intros Hc. unfold digits4. cbn [existsb].
  by rewrite !(eqb_digit_char c) by (done || (Z.div_mod_to_equations; lia)).
Qed.

(** The text of a date has digits and hyphens only. *)
Lemma str_contains_isoformat c dt :
  is_digit c = false → Ascii.eqb c "-" = false →
  str_contains c (date_isoformat dt) = false.
Proof.
  intros Hc Hh. unfold str_contains, date_isoformat, chars.
  rewrite list_ascii_of_string_of_list_ascii.
  rewrite existsb_app. cbn [existsb]. rewrite existsb_app. cbn [existsb].
  by rewrite existsb_digits4, !existsb_digits2, Hh by done.
Qed.

Lemma valid_date_bounds d :
  valid_date d ↔
  (1 ≤ year d ≤ 9999 ∧ 1 ≤ month d ≤ 12 ∧ 1 ≤ day d ≤ days_in_month (year d) (month d))%Z.
Proof.
  unfold valid_date. split.
  - by intros [_ ?]%date_new_Some.
  - intros (Hy & Hm & Hd). unfold date_new.
    repeat match goal with
           | |- context [(?a <=? ?b)%Z] =>
               rewrite (proj2 (Z.leb_le a b)) by lia
           end.
    by destruct d.
Qed.

(** The text of a valid date is read back, whatever follows it. *)
Lemma parse_isoformat_date_isoformat d cs :
  valid_date d → parse_isoformat_date (chars (date_isoformat d) ++ cs) = Some (d, cs).
Proof.
  intros Hv. pose proof Hv as (Hy & Hm & Hd)%valid_date_bounds.
  pose proof (days_in_month_bounds (year d) (month d)) as Hdim.
  unfold parse_isoformat_date, date_isoformat, chars.
  rewrite list_ascii_of_string_of_list_ascii.
  repeat (rewrite <- app_assoc || rewrite <- app_comm_cons).
  rewrite take_digits4 by lia. cbn [mbind option_bind].
  rewrite take_char_cons. cbn [mbind option_bind].
  rewrite (take_digits2 (month d) 0) by lia. cbn [mbind option_bind].
  rewrite take_char_cons. cbn [mbind option_bind].
  rewrite (take_digits2 (day d) 0) by lia. cbn [mbind option_bind].
  replace (0 * 100 + month d)%Z with (month d) by lia.
  replace (0 * 100 + day d)%Z with (day d) by lia.
  unfold valid_date in Hv. by rewrite Hv.
Qed.

Lemma strict_date_isoformat d :
  valid_date d → strict_date_fromisoformat (date_isoformat d) = Some d.
Proof.
  intros Hv. unfold strict_date_fromisoformat.
  rewrite <- (app_nil_r (chars (date_isoformat d))).
  by rewrite parse_isoformat_date_isoformat.
Qed.

Lemma parse_hh_mm_ss_isoformat h mi s :
  valid_time h mi s → parse_hh_mm_ss (chars (time_isoformat h mi s)) = Some (h, mi, s, []).
Proof.
  intros (Hh & Hmi & Hs). unfold parse_hh_mm_ss, time_isoformat, chars.
  rewrite list_ascii_of_string_of_list_ascii.
  rewrite (take_digits2 h 0) by lia. cbn [mbind option_bind].
  rewrite take_char_cons. cbn [mbind option_bind].
  rewrite (take_digits2 mi 0) by lia. cbn [mbind option_bind].
  rewrite take_char_cons. cbn [mbind option_bind].
  rewrite <- (app_nil_r (digits2 s)).
  rewrite (take_digits2 s 0) by lia. cbn [mbind option_bind].
  replace (0 * 100 + h)%Z with h by lia. replace (0 * 100 + mi)%Z with mi by lia.
  by replace (0 * 100 + s)%Z with s by lia.
Qed.

Lemma strict_datetime_isoformat d h mi s :
  valid_date d → valid_time h mi s →
  strict_datetime_fromisoformat (date_isoformat d +:+ "T" +:+ time_isoformat h mi s)
  = Some (mk_datetime d h mi s 0 None).
Proof.
  intros Hd Ht. unfold strict_datetime_fromisoformat.
  rewrite !chars_app. change (chars "T") with ["T"%char].
  rewrite <- app_comm_cons, app_nil_l.
  rewrite (parse_isoformat_date_isoformat d _ Hd).
  rewrite Ascii.eqb_refl, (parse_hh_mm_ss_isoformat h mi s Ht).
  destruct Ht as (Hh & Hmi & Hs). unfold time_in_range.
  by rewrite !(proj2 (Z.ltb_lt _ _)) by lia.
Qed.

Lemma decimal_digits_decimal ds acc :
  Forall (λ d, 0 ≤ d ≤ 9)%Z ds →
  decimal_digits acc (map digit_char ds) = Some (fold_left (λ acc d, acc * 10 + d)%Z ds acc).
Proof.
  intros Hds. revert acc. induction Hds as [|d ds Hd _ IH]; intros acc; [done|].
  apply digit_char_spec in Hd as [Hdig Hval].
  cbn [map decimal_digits fold_left]. by rewrite Hdig, Hval, IH.
Qed.

(** A literal that starts with a digit has no sign. *)
Lemma strict_int_unsigned c s :
  is_digit c = true → strict_int (String c s) = unsigned_decimal (c :: chars s).
Proof.
  intros Hc. unfold strict_int. change (chars (String c s)) with (c :: chars s).
  destruct c as [[] [] [] [] [] [] [] []]; vm_compute in Hc; try discriminate Hc;
    reflexivity.
Qed.

Lemma strict_int_decimal ds :
  ds ≠ [] → length ds ≤ 640 → Forall (λ d, 0 ≤ d ≤ 9)%Z ds →
  strict_int (decimal ds) = Some (decimal_value ds).
Proof.
  intros Hne Hlen Hds. destruct ds as [|d ds]; [done|].
  pose proof (Forall_inv Hds) as [Hdig _]%digit_char_spec.
  unfold decimal. cbn [map string_of_list_ascii].
  rewrite (strict_int_unsigned _ _ Hdig). unfold chars.
  rewrite list_ascii_of_string_of_list_ascii.
  change (digit_char d :: map digit_char ds) with (map digit_char (d :: ds)).
  unfold unsigned_decimal. cbn [map].
  rewrite <- (length_map digit_char) in Hlen. cbn [map] in Hlen.
  rewrite (proj2 (Nat.leb_le _ _) Hlen).
  change (digit_char d :: map digit_char ds) with (map digit_char (d :: ds)).
  by rewrite decimal_digits_decimal.
Qed.

(** The standard library of the examples does what every version does. *)
Lemma strict_stdlib_laws : StdlibLaws strict_stdlib.
Proof.
  split.
  - intros ds Hne Hlen Hds. unfold int_of_str. cbn [stdlib_int strict_stdlib].
    by rewrite strict_int_decimal.
  - intros d Hd. unfold date_fromisoformat.
    cbn [stdlib_date_fromisoformat strict_stdlib]. by rewrite strict_date_isoformat.
  - intros d h mi s Hd Ht. unfold datetime_fromisoformat.
    cbn [stdlib_datetime_fromisoformat strict_stdlib].
    by rewrite strict_datetime_isoformat.
Qed.

(** The text of a time of day has digits and colons only. *)
Lemma str_contains_time_isoformat c h mi s :
  is_digit c = false → Ascii.eqb c ":" = false →
  str_contains c (time_isoformat h mi s) = false.
Proof.
  intros Hc Hh. unfold str_contains, time_isoformat, chars.
  rewrite list_ascii_of_string_of_list_ascii.
  rewrite existsb_app. cbn [existsb]. rewrite existsb_app. cbn [existsb].
  by rewrite !existsb_digits2, Hh by done.
Qed.

(** A reading with a date the rule accepts and a value [int] accepts. *)
Lemma reading_from_dict_Ok {stdlib : PyStdlib} (e : gmap string pyval) s raw pd z :
  e !! "date" = Some (PStr s) → e !! "value" = Some raw →
  reading_date_rule s = Ok pd → py_int raw = Ok z →
  IntervalReading.from_dict (PDict e)
  = Ok (IntervalReading.mk z pd (dict_get e "interval_length") (dict_get e "measure_type")).
Proof.
  intros Hd Hv Hpd Hz. rewrite (reading_from_dict_str_date e s Hd), Hpd.
  cbn [mbind result_bind]. rewrite (dict_getitem_Some _ _ _ Hv).
  cbn [mbind result_bind]. by rewrite Hz.
Qed.

(** The rule on the canonical texts, for every standard library. *)
Lemma reading_date_rule_date {stdlib : PyStdlib} {laws : StdlibLaws stdlib} d :
  valid_date d → reading_date_rule (date_isoformat d) = Ok (DateOnly d).
Proof.
  intros Hd. unfold reading_date_rule.
  rewrite !str_contains_isoformat by done. cbn [orb].
  by rewrite date_fromisoformat_isoformat.
Qed.

Lemma reading_date_rule_datetime {stdlib : PyStdlib} {laws : StdlibLaws stdlib}
    d h mi s (sep : string) :
  valid_date d → valid_time h mi s → sep = "T" ∨ sep = " " →
  reading_date_rule (date_isoformat d +:+ sep +:+ time_isoformat h mi s)
  = Ok (DateTime (mk_datetime d h mi s 0 None)).
Proof.
  intros Hd Ht Hsep.
  assert (reading_date_rule (date_isoformat d +:+ "T" +:+ time_isoformat h mi s)
          = Ok (DateTime (mk_datetime d h mi s 0 None))) as HT.
  { destruct (reading_date_rule_space (date_isoformat d) (time_isoformat h mi s))
      as [_ ->]; [by apply str_contains_isoformat
                 | by apply str_contains_time_isoformat |].
    by rewrite datetime_fromisoformat_isoformat. }
  destruct Hsep as [-> | ->]; [done|].
  destruct (reading_date_rule_space (date_isoformat d) (time_isoformat h mi s))
    as [-> _]; [by apply str_contains_isoformat
               | by apply str_contains_time_isoformat | done].
Qed.

(** C3.  A reading whose date string has no [T] and no space is mapped
    with [date.fromisoformat] to a date-only value; one whose date string
    has a [T] or a space is mapped with [datetime.fromisoformat], spaces
    read as [T], to a date-time; a single space between a date part and a
    time part gives what the [T] gives.  With any standard library that
    reads back what [isoformat] writes, the text [YYYY-MM-DD] of a valid
    date is mapped to that date, and the same text followed by [T] or a
    space and [HH:MM:SS] to that day at that time: ["2024-01-15"] is the
    date 2024-01-15; ["2024-01-15T14:30:00"] and ["2024-01-15 14:30:00"] are
    both that day at hour 14, minute 30. *)
Theorem reading_date_granularity {stdlib : PyStdlib} {laws : StdlibLaws stdlib} :
  (∀ (e : gmap string pyval) s rd,
     e !! "date" = Some (PStr s) → IntervalReading.from_dict (PDict e) = Ok rd →
     if str_contains "T" s || str_contains " " s
     then ∃ dt, datetime_fromisoformat (str_replace " " "T" s) = Ok dt
            ∧ IntervalReading.date rd = DateTime dt
     else ∃ d, date_fromisoformat s = Ok d ∧ IntervalReading.date rd = DateOnly d)
  ∧ (∀ (e : gmap string pyval) s raw z,
       e !! "date" = Some (PStr s) → e !! "value" = Some raw → py_int raw = Ok z →
       (∀ d, str_contains "T" s = false → str_contains " " s = false →
             date_fromisoformat s = Ok d →
             ∃ rd, IntervalReading.from_dict (PDict e) = Ok rd
               ∧ IntervalReading.date rd = DateOnly d ∧ IntervalReading.value rd = z)
       ∧ (∀ dt, str_contains "T" s || str_contains " " s = true →
             datetime_fromisoformat (str_replace " " "T" s) = Ok dt →
             ∃ rd, IntervalReading.from_dict (PDict e) = Ok rd
               ∧ IntervalReading.date rd = DateTime dt ∧ IntervalReading.value rd = z))
  ∧ (∀ (e : gmap string pyval) a b,
       str_contains " " a = false → str_contains " " b = false →
       IntervalReading.from_dict (PDict (<["date" := PStr (a +:+ " " +:+ b)]> e))
       = IntervalReading.from_dict (PDict (<["date" := PStr (a +:+ "T" +:+ b)]> e)))
  ∧ (∀ (e : gmap string pyval) d raw z,
       valid_date d →
       e !! "date" = Some (PStr (date_isoformat d)) →
       e !! "value" = Some raw → py_int raw = Ok z →
       IntervalReading.from_dict (PDict e)
       = Ok (IntervalReading.mk z (DateOnly d)
               (dict_get e "interval_length") (dict_get e "measure_type")))
  ∧ (∀ (e : gmap string pyval) d h mi s (sep : string) raw z,
       valid_date d → valid_time h mi s → sep = "T" ∨ sep = " " →
       e !! "date" = Some (PStr (date_isoformat d +:+ sep +:+ time_isoformat h mi s)) →
       e !! "value" = Some raw → py_int raw = Ok z →
       IntervalReading.from_dict (PDict e)
       = Ok (IntervalReading.mk z (DateTime (mk_datetime d h mi s 0 None))
               (dict_get e "interval_length") (dict_get e "measure_type")))
  ∧ IntervalReading.from_dict (PDict (entry "2024-01-15" "1234"))
    = Ok (IntervalReading.mk 1234 (DateOnly (mk_date 2024 1 15)) PNone PNone)
  ∧ IntervalReading.from_dict (PDict (entry "2024-01-15T14:30:00" "456"))
    = Ok (IntervalReading.mk 456
            (DateTime (mk_datetime (mk_date 2024 1 15) 14 30 0 0 None)) PNone PNone)
  ∧ IntervalReading.from_dict (PDict (entry "2024-01-15 14:30:00" "456"))
    = Ok (IntervalReading.mk 456
            (DateTime (mk_datetime (mk_date 2024 1 15) 14 30 0 0 None)) PNone PNone).
Proof.
  assert (∀ (e : gmap string pyval) d raw z,
            valid_date d →
            e !! "date" = Some (PStr (date_isoformat d)) →
            e !! "value" = Some raw → py_int raw = Ok z →
            IntervalReading.from_dict (PDict e)
            = Ok (IntervalReading.mk z (DateOnly d)
                    (dict_get e "interval_length") (dict_get e "measure_type")))
    as Hdate.
  { intros e d raw z Hd He Hv Hz.
    by apply reading_from_dict_Ok with (date_isoformat d) raw;
      [| |apply reading_date_rule_date|]. }
  assert (∀ (e : gmap string pyval) d h mi s (sep : string) raw z,
            valid_date d → valid_time h mi s → sep = "T" ∨ sep = " " →
            e !! "date"
            = Some (PStr (date_isoformat d +:+ sep +:+ time_isoformat h mi s)) →
            e !! "value" = Some raw → py_int raw = Ok z →
            IntervalReading.from_dict (PDict e)
            = Ok (IntervalReading.mk z (DateTime (mk_datetime d h mi s 0 None))
                    (dict_get e "interval_length") (dict_get e "measure_type")))
    as Hdatetime.
  { intros e d h mi s sep raw z Hd Ht Hsep He Hv Hz.
    by eapply reading_from_dict_Ok; [| |apply reading_date_rule_datetime|]. }
  assert (py_int (PStr "1234") = Ok 1234%Z) as H1234.
  { apply (int_of_decimal [1; 2; 3; 4]%Z); [done | simpl; lia |].
    repeat constructor; lia. }
  assert (py_int (PStr "456") = Ok 456%Z) as H456.
  { apply (int_of_decimal [4; 5; 6]%Z); [done | simpl; lia |].
    repeat constructor; lia. }
  split; [|split; [|split; [|split; [done|split; [done|split; [|split]]]]]].
  - intros e s rd Hd. rewrite (reading_from_dict_str_date e s Hd).
    intros (pd & Hpd & Hk)%bind_Ok.
    apply bind_Ok in Hk as (raw & _ & Hk). apply bind_Ok in Hk as (z & _ & Hk).
    injection Hk as <-. simpl. unfold reading_date_rule in Hpd.
    destruct (_ || _); apply fmap_Ok in Hpd as (x & Hx & ->); by exists x.
  - intros e s raw z Hd Hv Hz. split.
    + intros d HT Hsp Hp. rewrite (reading_from_dict_str_date e s Hd).
      unfold reading_date_rule. rewrite HT, Hsp, Hp. simpl.
      rewrite (dict_getitem_Some _ _ _ Hv). simpl. rewrite Hz. simpl. by eexists.
    + intros dt Hsep Hp. rewrite (reading_from_dict_str_date e s Hd).
      unfold reading_date_rule. rewrite Hsep, Hp. simpl.
      rewrite (dict_getitem_Some _ _ _ Hv). simpl. rewrite Hz. simpl. by eexists.
  - intros e a b Ha Hb.
    rewrite (reading_from_dict_str_date _ (a +:+ " " +:+ b)) by apply lookup_insert_eq.
    rewrite (reading_from_dict_str_date _ (a +:+ "T" +:+ b)) by apply lookup_insert_eq.
    destruct (reading_date_rule_space a b Ha Hb) as [-> _].
    unfold dict_getitem, dict_get. by rewrite !lookup_insert_ne.
  - by apply (Hdate (entry "2024-01-15" "1234") (mk_date 2024 1 15) (PStr "1234")).
  - by apply (Hdatetime (entry "2024-01-15T14:30:00" "456") (mk_date 2024 1 15)
                14 30 0 "T" (PStr "456"))%Z; [|unfold valid_time; lia|left|..].
  - by apply (Hdatetime (entry "2024-01-15 14:30:00" "456") (mk_date 2024 1 15)
                14 30 0 " " (PStr "456"))%Z; [|unfold valid_time; lia|right|..].
Qed.

Lemma reading_date_granularity_witness :
  IntervalReading.from_dict (stdlib := strict_stdlib)
    (PDict (entry "2024-01-15 14:30:00" "456"))
  = Ok (IntervalReading.mk 456
          (DateTime (mk_datetime (mk_date 2024 1 15) 14 30 0 0 None)) PNone PNone)
  ∧ IntervalReading.from_dict (stdlib := strict_stdlib)
      (PDict (entry "2024-01-15" "1234"))
    = Ok (IntervalReading.mk 1234 (DateOnly (mk_date 2024 1 15)) PNone PNone).
Proof.
  destruct (reading_date_granularity (stdlib := strict_stdlib) (laws := strict_stdlib_laws))
    as (_ & _ & _ & _ & _ & Hdate & _ & Hspace).
  split; [exact Hspace | exact Hdate].
Defined.

(** * Further properties of the code *)

(** ** Construction of the client *)

(** X1.  A constructed client keeps the token, holds in a new list object
    the scope [_extract_prms] returned, which is not empty, and has one of
    its elements as active PRM; no other list object is touched. *)
Theorem constructed_client_invariant `{JwtDecode}
    (token : string) (prm : option string) (h : heap) (c : LinkyClient.t) (h' : heap) :
  LinkyClient.__init__ token prm h = Ok (c, h') →
  LinkyClient._token c = token
  ∧ ∃ scope, _extract_prms token = Ok scope
      ∧ h' !! LinkyClient._prms c = Some scope
      ∧ scope ≠ []
      ∧ LinkyClient.prm c ∈ scope
      ∧ h !! LinkyClient._prms c = None
      ∧ ∀ l, l ≠ LinkyClient._prms c → h' !! l = h !! l.
Proof.
  intros Hi. split.
  - unfold LinkyClient.__init__ in Hi. apply bind_Ok in Hi as (prms & _ & Hk).
    destruct (alloc prms h) as [l h0]. destruct prm as [p|].
    + destruct (str_in_list p prms); simpl in Hk; [|done]. by injection Hk as <- <-.
    + destruct prms; [done|]. by injection Hk as <- <-.
  - destruct (init_Ok_inv _ _ _ _ _ Hi) as (scope & Hx & Hfresh & -> & Hprm).
    exists scope. split; [done|]. split; [apply lookup_insert_eq|].
    split; [by eapply extract_prms_nonempty|]. split; [|split; [done|]].
    + destruct prm as [p|]; [destruct Hprm as [-> Hin]; done|].
      destruct scope as [|first rest]; [done|]. injection Hprm as ->.
      apply list_elem_of_here.
    + intros l Hne. by rewrite lookup_insert_ne.
Qed.

Lemma constructed_client_invariant_witness :
  LinkyClient._token multi_prm_client = "multi_prm_token"
  ∧ ∃ scope, @_extract_prms sample_tokens "multi_prm_token" = Ok scope
      ∧ multi_prm_heap !! LinkyClient._prms multi_prm_client = Some scope
      ∧ scope ≠ []
      ∧ LinkyClient.prm multi_prm_client ∈ scope.
Proof.
  assert (@LinkyClient.__init__ sample_tokens "multi_prm_token" None ∅
          = Ok (multi_prm_client, multi_prm_heap)) as Hinit by reflexivity.
  destruct (constructed_client_invariant (H := sample_tokens) _ _ _ _ _ Hinit)
    as (Htok & scope & Hx & Hl & Hne & Hin & _).
  split; [exact Htok|]. exists scope. by repeat split.
Defined.

(** X2.  The construction raises [PRMAccessError] for [p] exactly when the
    token has a scope, [p] is the PRM asked for and no element of the scope
    is the string [p]: an invalid token is reported first, and a client
    built without an explicit PRM never gets this error. *)
Theorem prm_access_error_exactly `{JwtDecode}
    (token : string) (prm : option string) (h : heap) (p : string) :
  LinkyClient.__init__ token prm h = Raise (PRMAccessError p)
  ↔ ∃ scope, _extract_prms token = Ok scope ∧ prm = Some p ∧ PStr p ∉ scope.
Proof.
  split.
  - unfold LinkyClient.__init__. intros [Hx | (scope & Hx & Hk)]%bind_Raise.
    { by apply extract_prms_Raise_inv in Hx as [[message [=]] | (m & _ & [=])]. }
    exists scope. split; [done|].
    destruct (alloc scope h) as [l h0]. destruct prm as [q|].
    + destruct (str_in_list q scope) eqn:Hin; simpl in Hk; [done|].
      injection Hk as ->. split; [done|]. intros Hin'%str_in_list_spec. congruence.
    + pose proof (extract_prms_nonempty _ _ Hx). by destruct scope.
  - intros (scope & Hx & -> & Hout). rewrite (init_explicit _ _ _ _ Hx).
    destruct (str_in_list p scope) eqn:Hin; [|done].
    by apply str_in_list_spec in Hin.
Qed.

(** X3.  [_extract_prms] has four ways to fail: the decoder's
    [DecodeError] comes out as [InvalidTokenError] with the decoder's text
    after ["Cannot decode token: "]; any other exception of the decoder
    comes out as it is; a missing or falsy subject claim and a subject claim
    that is neither string nor list each have their message.  Its last test
    is never taken: the message ["Token contains no PRMs"] never comes
    out. *)
Theorem extract_prms_failures `{JwtDecode} (token : string) (e : exn) :
  _extract_prms token = Raise e →
  ((∃ m, jwt_decode token = Raise (DecodeError m)
      ∧ e = InvalidTokenError ("Cannot decode token: " +:+ m))
   ∨ (∃ m, jwt_decode token = Raise (OtherJwtError m) ∧ e = PyJWTError m)
   ∨ (∃ claims, jwt_decode token = Ok claims
        ∧ truthy (dict_get claims "sub") = false
        ∧ e = InvalidTokenError "Token has no 'sub' claim")
   ∨ (∃ claims, jwt_decode token = Ok claims
        ∧ truthy (dict_get claims "sub") = true
        ∧ ¬ is_str (dict_get claims "sub") ∧ ¬ is_list (dict_get claims "sub")
        ∧ e = InvalidTokenError "Token 'sub' claim is not a string or list"))
  ∧ e ≠ InvalidTokenError "Token contains no PRMs".
Proof.
  unfold _extract_prms.
  destruct (jwt_decode token) as [claims|[m|m]] eqn:Hd.
  2:{ intros [= <-]. split; [left; by exists m | by intros [=]]. }
  2:{ intros [= <-]. split; [right; left; by exists m | by intros [=]]. }
  destruct (truthy (dict_get claims "sub")) eqn:Ht; simpl.
  2:{ intros [= <-]. split; [|done]. right; right; left. by exists claims. }
  destruct (dict_get claims "sub") as [| | | |s|l|] eqn:Hs; simpl;
    try solve [intros [= <-]; split; [|done]; right; right; right; exists claims;
               rewrite Hs; split; [done|]; split; [done|];
               split; [intros [? [=]]|]; split; [intros [? [=]] | done]].
  - done.
  - by destruct l.
Qed.

Lemma extract_prms_failures_witness :
  (@_extract_prms sample_tokens "not-a-jwt"
   = Raise (InvalidTokenError "Cannot decode token: Not enough segments")
   ∧ InvalidTokenError "Cannot decode token: Not enough segments"
     ≠ InvalidTokenError "Token contains no PRMs")
  ∧ (@_extract_prms sample_tokens "other_error_token"
     = Raise (PyJWTError "Subject must be a string")
     ∧ PyJWTError "Subject must be a string"
       ≠ InvalidTokenError "Token contains no PRMs").
Proof.
  split; (split; [reflexivity|]).
  - apply (extract_prms_failures (H := sample_tokens) "not-a-jwt"). reflexivity.
  - apply (extract_prms_failures (H := sample_tokens) "other_error_token"). reflexivity.
Defined.

(** ** What the mapper does not look at *)

(** X4.  A key the mapper does not read changes nothing: a reading with
    one more key is the same reading or the same error, and so is a
    document with one more top-level key. *)
Theorem unknown_keys_are_ignored {stdlib : PyStdlib} (k : string) (v : pyval) :
  (k ∉ ["date"; "value"; "interval_length"; "measure_type"] →
   ∀ e : gmap string pyval,
     IntervalReading.from_dict (PDict (<[k := v]> e)) = IntervalReading.from_dict (PDict e))
  ∧ (k ∉ ["reading_type"; "interval_reading"; "usage_point_id"; "start"; "end"; "quality"] →
     ∀ d : gmap string pyval,
       MeteringData.from_dict (PDict (<[k := v]> d)) = MeteringData.from_dict (PDict d)).
Proof.
  split.
  - intros Hk e.
    assert (∀ k', k' ∈ ["date"; "value"; "interval_length"; "measure_type"] →
                  <[k := v]> e !! k' = e !! k') as Hl.
    { intros k' Hk'. apply lookup_insert_ne. by intros ->. }
    unfold IntervalReading.from_dict. cbn [getitem py_get].
    unfold dict_getitem, dict_get. by rewrite !Hl by in_list.
  - intros Hk d.
    assert (∀ k', k' ∈ ["reading_type"; "interval_reading"; "usage_point_id";
                         "start"; "end"; "quality"] →
                  <[k := v]> d !! k' = d !! k') as Hl.
    { intros k' Hk'. apply lookup_insert_ne. by intros ->. }
    unfold MeteringData.from_dict. cbn [getitem py_get_default].
    unfold dict_getitem, dict_get_default. by rewrite !Hl by in_list.
Qed.

Lemma unknown_keys_are_ignored_witness :
  MeteringData.from_dict (stdlib := strict_stdlib)
    (PDict (<["comment" := PInt 7]> daily_consumption_dict))
  = MeteringData.from_dict (stdlib := strict_stdlib) (PDict daily_consumption_dict).
Proof.
  apply (unknown_keys_are_ignored (stdlib := strict_stdlib) "comment" (PInt 7)).
  intros Hin. apply list_elem_of_In in Hin. simpl in Hin.
  repeat (destruct Hin as [Hin|Hin]; [discriminate|]). exact Hin.
Defined.

(** X5.  The default [[]] stands in for a missing [interval_reading]
    only: when the key is there with the value [None], a document that
    maps without the key raises [TypeError]. *)
Theorem null_interval_reading_is_an_error {stdlib : PyStdlib}
    (d : gmap string pyval) (md : MeteringData.t) :
  d !! "interval_reading" = None →
  MeteringData.from_dict (PDict d) = Ok md →
  MeteringData.interval_reading md = []
  ∧ MeteringData.from_dict (PDict (<["interval_reading" := PNone]> d)) = Raise TypeError.
Proof.
  intros Hnone Hok. split; [by eapply metering_no_readings; [left|] |].
  apply metering_from_dict_Ok_inv in Hok
    as (d' & rt & [= <-] & Hrt & Hu & (mkv & Hmk & Hmk') & (agv & Hag & Hag') & _).
  unfold MeteringData.from_dict. cbn [getitem py_get_default].
  rewrite (dict_getitem_Some _ "reading_type" (PDict rt))
    by by rewrite lookup_insert_ne.
  cbn [mbind result_bind getitem py_get].
  rewrite (dict_getitem_Some _ _ _ Hu). cbn [mbind result_bind].
  rewrite (dict_getitem_Some _ _ _ Hmk). cbn [mbind result_bind]. rewrite Hmk'.
  cbn [mbind result_bind].
  rewrite (dict_getitem_Some _ _ _ Hag). cbn [mbind result_bind]. rewrite Hag'.
  cbn [mbind result_bind].
  unfold dict_get_default. by rewrite lookup_insert_eq.
Qed.

Lemma null_interval_reading_is_an_error_witness :
  MeteringData.from_dict (stdlib := strict_stdlib)
    (PDict (<["interval_reading" := PNone]> dict_without_readings))
  = Raise TypeError.
Proof.
  assert (∃ md, MeteringData.from_dict (stdlib := strict_stdlib)
                  (PDict dict_without_readings) = Ok md)
    as [md Hmd] by (eexists; vm_compute; reflexivity).
  apply (null_interval_reading_is_an_error (stdlib := strict_stdlib)
           dict_without_readings md); [reflexivity|].
  exact Hmd.
Defined.

(** ** The average lies between the values *)

Lemma Zsum_bounds (rs : list IntervalReading.t) (lo hi : Z) :
  Forall (λ r, lo ≤ IntervalReading.value r ≤ hi)%Z rs →
  (Z.of_nat (length rs) * lo ≤ Zsum (map IntervalReading.value rs)
   ≤ Z.of_nat (length rs) * hi)%Z.
Proof.
  unfold Zsum. induction 1 as [|r rs Hr _ IH]; simpl foldr; simpl length; lia.
Qed.

(** X6.  When the values of the readings lie between two integers of
    magnitude at most [2^53], [average] does not raise and what it returns
    lies between the two: it is never below the least reading nor above
    the greatest. *)
Theorem average_within_values (md : MeteringData.t) (lo hi : Z) :
  MeteringData.interval_reading md ≠ [] →
  (- 2 ^ 53 ≤ lo)%Z → (hi ≤ 2 ^ 53)%Z →
  Forall (λ r, lo ≤ IntervalReading.value r ≤ hi)%Z (MeteringData.interval_reading md) →
  ∃ f x, MeteringData.average md = Ok f ∧ scaled f = Some x
    ∧ (lo * 2 ^ 1074 ≤ x ≤ hi * 2 ^ 1074)%Z.
Proof.
  intros Hne Hlo Hhi Hall.
  pose proof (Zsum_bounds _ lo hi Hall) as Hb. rewrite <- total_Zsum in Hb.
  destruct (average_truediv md Hne) as [Hn Havg]. rewrite Havg.
  assert (lo ≤ hi)%Z as Hlh.
  { destruct (MeteringData.interval_reading md) as [|r rs]; [done|].
    apply Forall_inv in Hall. lia. }
  destruct (truediv_spec (MeteringData.total md) _ Hn) as [_ Hfin].
  destruct Hfin as (f & x & Hf & _ & _ & Hx & _ & Hbounds).
  { assert (2 ^ 53 < float_overflow_bound)%Z by (by vm_compute). nia. }
  exists f, x. split; [done|]. split; [done|].
  destruct (Hbounds lo ltac:(lia)) as [Hlow _].
  destruct (Hbounds hi ltac:(lia)) as [_ Hup].
  split; [apply Hlow | apply Hup]; lia.
Qed.

(** The three readings of the sample; and beyond [2^53] the average can
    leave the values: for the one reading [2^53 + 1] it is [2^53]. *)
Lemma average_within_values_witness :
  (∃ f x, MeteringData.average sample_record = Ok f ∧ scaled f = Some x
     ∧ (11776 * 2 ^ 1074 ≤ x ≤ 14401 * 2 ^ 1074)%Z)
  ∧ MeteringData.average (record_of_values [2 ^ 53 + 1]%Z)
    = Ok (S754_finite false 4503599627370496 1)
  ∧ scaled (S754_finite false 4503599627370496 1) = Some (2 ^ 53 * 2 ^ 1074)%Z.
Proof.
  split; [|split; by vm_compute].
  apply (average_within_values sample_record 11776 14401).
  - discriminate.
  - lia.
  - lia.
  - repeat constructor; simpl; lia.
Defined.

(** ** The errors of the API *)

Lemma is_success_spec response :
  is_success response = true ↔ (200 ≤ status_code response ≤ 299)%Z.
Proof. unfold is_success. rewrite andb_true_iff, !Z.leb_le. done. Qed.

Lemma handle_response_error_Ok_iff response :
  _handle_response_error response = Ok () ↔ (200 ≤ status_code response ≤ 299)%Z.
Proof.
  unfold _handle_response_error. rewrite <- is_success_spec.
  destruct (is_success response); [done|].
  destruct (error_body_and_message response) as [body message].
  split; [|done]. by repeat case_match.
Qed.

Lemma handle_response_error_status response e :
  _handle_response_error response = Raise e → error_status_code e = status_code response.
Proof.
  unfold _handle_response_error. destruct (is_success response); [done|].
  destruct (error_body_and_message response) as [body message].
  destruct (status_code response =? 400)%Z eqn:H400;
    [apply Z.eqb_eq in H400; by intros [= <-]|].
  destruct (status_code response =? 401)%Z eqn:H401;
    [apply Z.eqb_eq in H401; by intros [= <-]|].
  destruct (500 <=? status_code response)%Z; by intros [= <-].
Qed.

(** X7.  [_handle_response_error] returns exactly for a status from 200
    to 299.  For any other status it raises, and what it raises carries
    the status of the response, also where the class fixes the status:
    [BadRequestError] for 400 and no other, [AuthenticationError] for 401
    and no other, [ServerError] from 500 on, the plain [APIError] for the
    rest. *)
Theorem handle_response_error_classifies (response : Response) :
  (_handle_response_error response = Ok () ↔ (200 ≤ status_code response ≤ 299)%Z)
  ∧ ∀ e, _handle_response_error response = Raise e →
      error_status_code e = status_code response
      ∧ (error_class e = Cls_BadRequestError ↔ status_code response = 400%Z)
      ∧ (error_class e = Cls_AuthenticationError ↔ status_code response = 401%Z)
      ∧ (error_class e = Cls_ServerError ↔ (500 ≤ status_code response)%Z)
      ∧ (error_class e = Cls_APIError ↔
           (status_code response < 200 ∨ 300 ≤ status_code response < 500)%Z
           ∧ status_code response ≠ 400%Z ∧ status_code response ≠ 401%Z).
Proof.
  unfold _handle_response_error. split.
  { rewrite <- is_success_spec. destruct (is_success response); [done|].
    destruct (error_body_and_message response) as [body message].
    split; [|done]. by repeat case_match. }
  destruct (is_success response) eqn:Hs; [by intros e [=]|].
  assert (¬ (200 ≤ status_code response ≤ 299)%Z) as Hns.
  { intros Hr%is_success_spec. congruence. }
  destruct (error_body_and_message response) as [body message].
  intros e.
  destruct (status_code response =? 400)%Z eqn:H400.
  { apply Z.eqb_eq in H400. intros [= <-]. simpl. rewrite H400.
    repeat split; try done; lia. }
  destruct (status_code response =? 401)%Z eqn:H401.
  { apply Z.eqb_eq in H401. intros [= <-]. simpl. rewrite H401.
    repeat split; try done; lia. }
  apply Z.eqb_neq in H400, H401.
  destruct (500 <=? status_code response)%Z eqn:H500.
  { apply Z.leb_le in H500. intros [= <-]. simpl.
    repeat split; try done; lia. }
  apply Z.leb_gt in H500. intros [= <-]. simpl.
  repeat split; try done; lia.
Qed.

Lemma handle_response_error_classifies_witness :
  error_status_code (mk_api_error Cls_APIError 404 None (PStr "")) = 404%Z
  ∧ (error_class (mk_api_error Cls_APIError 404 None (PStr "")) = Cls_BadRequestError
     ↔ 404%Z = 400%Z).
Proof.
  destruct (handle_response_error_classifies (mk_response 404 None "")) as [_ Hraise].
  destruct (Hraise (mk_api_error Cls_APIError 404 None (PStr "")) eq_refl)
    as (Hstatus & Hbad & _).
  by split.
Defined.

Lemma py_or_truthy a b : truthy a = true → py_or a b = a.
Proof. unfold py_or. by intros ->. Qed.

Lemma py_or_falsy a b : truthy a = false → py_or a b = b.
Proof. unfold py_or. by intros ->. Qed.

(** X8.  The message of the error is looked up in the body when the body
    is a JSON object, first under [error], then under [message]; for any
    other body, JSON or not, it is the text of the response, which is
    then the [response_body] as well.  When nothing truthy is found, a
    [BadRequestError], an [AuthenticationError] and a [ServerError] say
    ["Bad request"], ["Authentication failed"] and ["Server error"], and a
    plain [APIError] says no more than the status. *)
Theorem error_message_rules (response : Response) (e : api_error) :
  _handle_response_error response = Raise e →
  let found := (error_body_and_message response).2 in
  error_response_body e = (error_body_and_message response).1
  ∧ (∀ d, json response = Some (PDict d) →
       error_response_body e = PDict d
       ∧ (truthy (dict_get d "error") = true → found = dict_get d "error")
       ∧ (truthy (dict_get d "error") = false → found = dict_get d "message"))
  ∧ ((∀ d, json response ≠ Some (PDict d)) →
       error_response_body e = PStr (text response)
       ∧ (text response ≠ "" → found = PStr (text response))
       ∧ (text response = "" → found = PNone))
  ∧ (truthy found = true → error_detail e = Some found)
  ∧ (truthy found = false →
       error_detail e =
         match error_class e with
         | Cls_APIError => None
         | Cls_BadRequestError => Some (PStr "Bad request")
         | Cls_AuthenticationError => Some (PStr "Authentication failed")
         | Cls_ServerError => Some (PStr "Server error")
         end).
Proof.
  intros Hraise found.
  assert (error_response_body e = (error_body_and_message response).1
          ∧ (truthy found = true → error_detail e = Some found)
          ∧ (truthy found = false →
               error_detail e =
                 match error_class e with
                 | Cls_APIError => None
                 | Cls_BadRequestError => Some (PStr "Bad request")
                 | Cls_AuthenticationError => Some (PStr "Authentication failed")
                 | Cls_ServerError => Some (PStr "Server error")
                 end)) as (Hbody & Hfound & Hdefault).
  { unfold found. unfold _handle_response_error in Hraise.
    destruct (is_success response); [done|].
    destruct (error_body_and_message response) as [body message]. simpl.
    destruct (status_code response =? 400)%Z;
      [|destruct (status_code response =? 401)%Z;
        [|destruct (500 <=? status_code response)%Z]];
      injection Hraise as <-; simpl; (split; [done|]);
      unfold py_or; destruct (truthy message) eqn:Ht; simpl; rewrite ?Ht; by split. }
  split; [done|]. split; [|split; [|by split]].
  - intros d Hd. rewrite Hbody. unfold found, error_body_and_message. rewrite Hd. simpl.
    split; [done|]. split; intros Ht; [by apply py_or_truthy | by apply py_or_falsy].
  - intros Hnd. rewrite Hbody. unfold found, error_body_and_message.
    assert (match json response with
            | Some (PDict d) => False
            | _ => True
            end) as Hj.
    { destruct (json response) as [[| | | | | |d]|] eqn:Hj; try done. by destruct (Hnd d). }
    destruct (json response) as [[| | | | | |d]|]; try done; simpl;
      (split; [done|]); (split; intros Ht;
        [apply String.eqb_neq in Ht; by rewrite Ht | by rewrite Ht]).
Qed.

Lemma error_message_rules_witness :
  _handle_response_error
    (mk_response 401 (Some (PDict (dict [("error", PStr "Invalid token")]))) "")
  = Raise (AuthenticationError (PStr "Invalid token")
             (PDict (dict [("error", PStr "Invalid token")])))
  ∧ error_detail (AuthenticationError (PStr "Invalid token")
                    (PDict (dict [("error", PStr "Invalid token")])))
    = Some (PStr "Invalid token")
  ∧ api_error_str (AuthenticationError (PStr "Invalid token")
                     (PDict (dict [("error", PStr "Invalid token")])))
    = Some "API error 401: Invalid token".
Proof.
  split; [reflexivity|]. split; [|reflexivity].
  destruct (error_message_rules
              (mk_response 401 (Some (PDict (dict [("error", PStr "Invalid token")]))) "")
              (AuthenticationError (PStr "Invalid token")
                 (PDict (dict [("error", PStr "Invalid token")]))) eq_refl)
    as (_ & _ & _ & Hfound & _).
  apply Hfound. reflexivity.
Defined.

(** ** Dates in the query *)



Lemma fold_right_add_snoc (zs : list Z) (z : Z) :
  fold_right Z.add 0%Z (zs ++ [z]) = (fold_right Z.add 0%Z zs + z)%Z.
Proof. induction zs as [|x zs IH]; simpl; lia. Qed.

Lemma days_before_month_step y m :
  (2 ≤ m ≤ 12)%Z →
  days_before_month y m = (days_before_month y (m - 1) + days_in_month y (m - 1))%Z.
Proof.
  intros Hm. unfold days_before_month.
  replace (Z.to_nat m - 1) with (S (Z.to_nat (m - 1) - 1)) by lia.
  rewrite seq_S, !List.map_app. cbn [map]. rewrite fold_right_add_snoc.
  by replace (Z.of_nat (1 + (Z.to_nat (m - 1) - 1))) with (m - 1)%Z by lia.
Qed.

Lemma days_before_month_december y :
  (days_before_month y 12 + 31 = 365 + (if is_leap y then 1 else 0))%Z.
Proof.
  unfold days_before_month, days_in_month. generalize (is_leap y).
  intros leap. by destruct leap; vm_compute.
Qed.

Lemma days_before_year_step y :
  (days_before_year (y + 1) = days_before_year y + 365 + (if is_leap y then 1 else 0))%Z.
Proof.
  unfold days_before_year, is_leap.
  replace (y + 1 - 1)%Z with y by lia.
  destruct (y mod 4 =? 0)%Z eqn:H4; destruct (y mod 100 =? 0)%Z eqn:H100;
    destruct (y mod 400 =? 0)%Z eqn:H400; cbn [andb orb negb];
    rewrite ?Z.eqb_eq, ?Z.eqb_neq in *; Z.div_mod_to_equations; lia.
Qed.

(** The day before a valid date is a valid date, one less in the count of
    days. *)
Lemma date_minus_one_day_spec d :
  valid_date d → d ≠ mk_date 1 1 1 →
  ∃ p, date_minus_one_day d = Ok p ∧ valid_date p ∧ toordinal p = (toordinal d - 1)%Z.
Proof.
  intros Hv Hne. apply valid_date_bounds in Hv as (Hy & Hm & Hd).
  unfold date_minus_one_day.
  destruct (1 <? day d)%Z eqn:Hd1.
  { apply Z.ltb_lt in Hd1. eexists. split; [done|]. split.
    - apply valid_date_bounds. simpl. lia.
    - unfold toordinal. simpl. lia. }
  apply Z.ltb_ge in Hd1. assert (day d = 1%Z) as Hday by lia.
  destruct (1 <? month d)%Z eqn:Hm1.
  { apply Z.ltb_lt in Hm1. eexists. split; [done|]. split.
    - apply valid_date_bounds. simpl.
      pose proof (days_in_month_bounds (year d) (month d - 1)). lia.
    - unfold toordinal. cbn [year month day].
      rewrite (days_before_month_step (year d) (month d)) by lia. lia. }
  apply Z.ltb_ge in Hm1. assert (month d = 1%Z) as Hmonth by lia.
  destruct (1 <? year d)%Z eqn:Hy1.
  { apply Z.ltb_lt in Hy1. eexists. split; [done|]. split.
    - apply valid_date_bounds. simpl. unfold days_in_month. simpl. lia.
    - unfold toordinal. cbn [year month day]. rewrite Hmonth, Hday.
      pose proof (days_before_year_step (year d - 1)) as Hstep.
      replace (year d - 1 + 1)%Z with (year d) in Hstep by lia.
      pose proof (days_before_month_december (year d - 1)).
      replace (days_before_month (year d) 1) with 0%Z by reflexivity. lia. }
  apply Z.ltb_ge in Hy1. destruct Hne. destruct d as [y m dd]. simpl in *.
  f_equal; lia.
Qed.

(** X10.  The dates of a [get_...] call: two given dates are used as they
    are, whatever the day; a missing [end] is today and a missing [start]
    is yesterday, the valid date one day before today; on the first date
    there is, 0001-01-01, a call that leaves a date out raises
    [OverflowError], also when only [end] is left out. *)
Theorem default_dates_are_yesterday_and_today (s e t : date) :
  resolve_dates (Some s) (Some e) t = Ok (s, e)
  ∧ (valid_date t → t ≠ mk_date 1 1 1 →
     ∃ yesterday, _default_dates t = Ok (yesterday, t)
       ∧ valid_date yesterday
       ∧ toordinal yesterday = (toordinal t - 1)%Z
       ∧ resolve_dates None None t = Ok (yesterday, t)
       ∧ resolve_dates (Some s) None t = Ok (s, t)
       ∧ resolve_dates None (Some e) t = Ok (yesterday, e))
  ∧ (t = mk_date 1 1 1 →
     resolve_dates None None t = Raise OverflowError
     ∧ resolve_dates (Some s) None t = Raise OverflowError
     ∧ resolve_dates None (Some e) t = Raise OverflowError).
Proof.
  split; [done|]. split.
  - intros Hv Hne.
    destruct (date_minus_one_day_spec t Hv Hne) as (p & Hp & Hvp & Hord).
    exists p. unfold resolve_dates, _default_dates. rewrite Hp. by repeat split.
  - by intros ->.
Qed.

Lemma default_dates_are_yesterday_and_today_witness :
  resolve_dates None None (mk_date 2024 3 1) = Ok (mk_date 2024 2 29, mk_date 2024 3 1)
  ∧ toordinal (mk_date 2024 2 29) = (toordinal (mk_date 2024 3 1) - 1)%Z.
Proof.
  destruct (default_dates_are_yesterday_and_today (mk_date 2024 3 1) (mk_date 2024 3 1)
              (mk_date 2024 3 1)) as (_ & Hdef & _).
  destruct Hdef as (yesterday & Hyd & _ & Hord & Hnone & _); [reflexivity | discriminate |].
  vm_compute in Hyd. injection Hyd as <-. by split.
Defined.

(** ** Requests and the life of the [httpx.Client] *)

Lemma client_inv_start self (w : world) user_agent :
  client_inv self w (Http.mk user_agent None) w.
Proof. by repeat split. Qed.

(** [_get_client] makes the [httpx.Client] at the first call and gives the
    same one afterwards. *)
Lemma get_client_spec self w0 io w :
  client_inv self w0 io w →
  ∃ id io' w', Http._get_client self io w = (id, io', w')
    ∧ client_inv self w0 io' w'
    ∧ Http._client io' = Some id
    ∧ Http._user_agent io' = Http._user_agent io
    ∧ open_clients w' !! id = Some (Http.client_headers self io)
    ∧ sent w' = sent w
    ∧ (is_Some (Http._client io) → io' = io ∧ w' = w).
Proof.
  intros (Hmade & Htoday & Hc). unfold Http._get_client.
  destruct (Http._client io) as [id|] eqn:Hid.
  - destruct Hc as [Hrange Hopen].
    exists id, io, w. split; [done|]. split.
    { split; [done|]. split; [done|]. by rewrite Hid. }
    split; [done|]. split; [done|]. split; [|done].
    rewrite Hopen. apply lookup_insert_eq.
  - eexists _, _, _. split; [done|]. simpl. split.
    { split; [simpl; lia|]. split; [done|]. simpl. split; [lia|]. by rewrite Hc. }
    split; [done|]. split; [done|]. split; [apply lookup_insert_eq|].
    split; [done|]. by intros [? [=]].
Qed.

(** What one call of [_request] does, in full. *)
Lemma request_spec `{ApiServer} {stdlib : PyStdlib}
    (self : LinkyClient.t) (data_type : DataType) (start end_ : date)
    (w0 : world) (io : Http.t) (w : world) :
  client_inv self w0 io w →
  let request :=
    mk_request BASE_URL
      [("Authorization", "Bearer " +:+ LinkyClient._token self);
       ("User-Agent", Http._user_agent io);
       ("Accept", "application/json")]
      ("/" +:+ DataType_str data_type)
      [("prm", LinkyClient.prm self);
       ("start", PStr (date_isoformat start));
       ("end", PStr (date_isoformat end_))] in
  ∃ io' w',
    Http._request self data_type start end_ io w
    = (match http_get request with
       | Ok response => Http.map_response response
       | Raise message => Raise (HttpxException message)
       end, io', w')
    ∧ sent w' = sent w ++ [request]
    ∧ client_inv self w0 io' w'
    ∧ is_Some (Http._client io')
    ∧ Http._user_agent io' = Http._user_agent io
    ∧ (is_Some (Http._client io) → io' = io ∧ open_clients w' = open_clients w
                                   ∧ made w' = made w)
    ∧ (Http._client io = None → made w' = S (made w)).
Proof.
  intros Hinv request.
  destruct (get_client_spec self w0 io w Hinv)
    as (id & io1 & w1 & Hget & Hinv1 & Hid & Hua & Hopen & Hsent & Hreuse).
  unfold Http._request. rewrite Hget. unfold Http.client_get. rewrite Hopen.
  fold request. unfold Http.client_headers. fold request.
  change (mk_request BASE_URL
            [("Authorization", "Bearer " +:+ LinkyClient._token self);
             ("User-Agent", Http._user_agent io); ("Accept", "application/json")]
            ("/" +:+ DataType_str data_type)
            [("prm", LinkyClient._prm self); ("start", PStr (date_isoformat start));
             ("end", PStr (date_isoformat end_))]) with request.
  set (w2 := mk_world (made w1) (open_clients w1) (sent w1 ++ [request]) (today w1)).
  assert (client_inv self w0 io1 w2) as Hinv2.
  { destruct Hinv1 as (? & ? & ?). by repeat split. }
  exists io1, w2.
  destruct (http_get request) as [response|message]; simpl;
    (split; [done|]); (split; [by rewrite Hsent|]); (split; [done|]);
    (split; [by rewrite Hid|]); (split; [done|]);
    (split; [intros Hsome; destruct (Hreuse Hsome) as [-> ->]; done|]);
    intros Hnone; unfold Http._get_client in Hget; rewrite Hnone in Hget;
    by injection Hget as <- <- <-.
Qed.


(** X11.  [_request] sends one GET and no more: to the path of its
    [DataType] under the base URL, with the active PRM and the two dates
    in ISO form as parameters and the bearer token of the client in the
    headers.  What it returns is what [map_response] makes of the answer,
    or the exception of [httpx]; the client has an [httpx.Client]
    afterwards, the one it had if it had one. *)
Theorem request_sends_one_get `{ApiServer} {stdlib : PyStdlib}
    (self : LinkyClient.t) (data_type : DataType) (start end_ : date)
    (w0 : world) (io : Http.t) (w : world) :
  client_inv self w0 io w →
  let request :=
    mk_request BASE_URL
      [("Authorization", "Bearer " +:+ LinkyClient._token self);
       ("User-Agent", Http._user_agent io);
       ("Accept", "application/json")]
      ("/" +:+ DataType_str data_type)
      [("prm", LinkyClient.prm self);
       ("start", PStr (date_isoformat start));
       ("end", PStr (date_isoformat end_))] in
  ∃ io' w',
    Http._request self data_type start end_ io w
    = (match http_get request with
       | Ok response => Http.map_response response
       | Raise message => Raise (HttpxException message)
       end, io', w')
    ∧ sent w' = sent w ++ [request]
    ∧ client_inv self w0 io' w'
    ∧ is_Some (Http._client io')
    ∧ (is_Some (Http._client io) → io' = io ∧ open_clients w' = open_clients w
                                   ∧ made w' = made w).
Proof.
  intros Hinv request.
  destruct (request_spec self data_type start end_ w0 io w Hinv)
    as (io' & w' & Hreq & Hsent & Hinv' & Hsome & _ & Hreuse & _).
  exists io', w'. split; [exact Hreq|]. split; [exact Hsent|].
  split; [exact Hinv'|]. split; [exact Hsome|]. exact Hreuse.
Qed.

Lemma request_sends_one_get_witness :
  ∃ io' w',
    @Http._request sample_server strict_stdlib multi_prm_client daily_consumption
      (mk_date 2024 1 1) (mk_date 2024 1 4) (Http.mk "pylinky" None) sample_world
    = (Raise (ApiException (AuthenticationError (PStr "Invalid token")
                              (PDict (dict [("error", PStr "Invalid token")])))), io', w')
    ∧ length (sent w') = 1.
Proof.
  destruct (request_sends_one_get (H := sample_server) (stdlib := strict_stdlib)
              multi_prm_client daily_consumption
              (mk_date 2024 1 1) (mk_date 2024 1 4) sample_world
              (Http.mk "pylinky" None) sample_world (client_inv_start _ _ _))
    as (io' & w' & Hreq & Hsent & _).
  exists io', w'. split.
  - rewrite Hreq. reflexivity.
  - by rewrite Hsent.
Defined.

(** X12.  A response is mapped only if its status is a success: with any
    other status the call raises the error of the API, also when the body
    is a document that would map; with a success status the result is
    that of [from_dict] on the JSON body, and a body that is not JSON
    raises the decoding error. *)
Theorem map_response_checks_status_first {stdlib : PyStdlib} (response : Response) :
  (∀ md, Http.map_response response = Ok md ↔
     (200 ≤ status_code response ≤ 299)%Z
     ∧ ∃ data, json response = Some data ∧ MeteringData.from_dict data = Ok md)
  ∧ (¬ (200 ≤ status_code response ≤ 299)%Z →
     ∃ e, Http.map_response response = Raise (ApiException e)
       ∧ error_status_code e = status_code response)
  ∧ ((200 ≤ status_code response ≤ 299)%Z →
     Http.map_response response =
       match json response with
       | None => Raise JSONDecodeError
       | Some data =>
           match MeteringData.from_dict data with
           | Ok md => Ok md
           | Raise e => Raise (Raised e)
           end
       end).
Proof.
  pose proof (handle_response_error_Ok_iff response) as Hok.
  pose proof (handle_response_error_status response) as Hraise.
  unfold Http.map_response.
  destruct (_handle_response_error response) as [[]|e] eqn:Hh.
  - pose proof (proj1 Hok eq_refl) as Hs. split; [|split; [done|done]].
    intros md. split.
    + intros Hm. split; [done|].
      destruct (json response) as [data|]; [|done]. exists data. split; [done|].
      by destruct (MeteringData.from_dict data) as [md'|]; [injection Hm as ->|].
    + intros (_ & data & -> & ->). done.
  - assert (¬ (200 ≤ status_code response ≤ 299)%Z) as Hns.
    { intros Hs. apply Hok in Hs. congruence. }
    split; [|split; [|done]].
    + intros md. split; [done | tauto].
    + intros _. exists e. split; [done|]. by apply Hraise.
Qed.

Lemma map_response_checks_status_first_witness :
  ∃ e, Http.map_response (stdlib := strict_stdlib)
         (mk_response 500 (Some daily_consumption_response) "")
       = Raise (ApiException e)
    ∧ error_status_code e = 500%Z.
Proof.
  apply (map_response_checks_status_first (stdlib := strict_stdlib)
           (mk_response 500 (Some daily_consumption_response) "")).
  simpl. lia.
Defined.

(** [close] closes the [httpx.Client] if there is one: the open clients
    are those of the start again. *)
Lemma close_spec self w0 io w :
  world_wf w0 → client_inv self w0 io w →
  ∃ io' w', Http.close io w = (io', w')
    ∧ Http._client io' = None
    ∧ Http._user_agent io' = Http._user_agent io
    ∧ open_clients w' = open_clients w0
    ∧ made w' = made w ∧ sent w' = sent w
    ∧ client_inv self w0 io' w'.
Proof.
  intros Hwf (Hmade & Htoday & Hc). unfold Http.close.
  destruct (Http._client io) as [id|] eqn:Hid.
  - destruct Hc as [Hrange Hopen].
    assert (delete id (open_clients w) = open_clients w0) as Hdel.
    { rewrite Hopen, delete_insert_eq. apply delete_id.
      destruct (open_clients w0 !! id) as [hs|] eqn:Hl; [|done].
      assert (id < made w0) by (apply Hwf; by eexists). lia. }
    eexists _, _. split; [done|]. simpl. rewrite Hdel. by repeat split.
  - exists io, w. repeat split; try done. by rewrite Hid.
Qed.

Lemma run_call_inv `{ApiServer} {stdlib : PyStdlib} self w0 call io w :
  world_wf w0 → client_inv self w0 io w →
  ∃ r io' w', run_call self call io w = (r, io', w')
    ∧ client_inv self w0 io' w'
    ∧ length (sent w') ≤ length (sent w) + 1
    ∧ (call = CallClose → sent w' = sent w ∧ Http._client io' = None).
Proof.
  intros Hwf Hinv. destruct call as [data_type start end_|]; simpl.
  - unfold Http.get. destruct (resolve_dates start end_ (today w)) as [[s e]|err].
    + destruct (request_spec self data_type s e w0 io w Hinv)
        as (io' & w' & Hreq & Hsent & Hinv' & _).
      rewrite Hreq. eexists _, io', w'. split; [done|]. split; [done|].
      split; [|done]. rewrite Hsent, length_app. simpl. lia.
    + eexists _, io, w. split; [done|]. split; [done|]. split; [lia | done].
  - destruct (close_spec self w0 io w Hwf Hinv)
      as (io' & w' & Hclose & Hnone & _ & _ & _ & Hsent & Hinv').
    rewrite Hclose. eexists _, io', w'. split; [done|]. split; [done|].
    split; [rewrite Hsent; lia | done].
Qed.

Lemma run_body_inv `{ApiServer} {stdlib : PyStdlib} self w0 body io w :
  world_wf w0 → client_inv self w0 io w →
  ∃ r io' w', run_body self body io w = (r, io', w')
    ∧ client_inv self w0 io' w'
    ∧ length (sent w') ≤ length (sent w) + length body.
Proof.
  intros Hwf. revert io w. induction body as [|call body IH]; intros io w Hinv.
  - eexists _, io, w. split; [done|]. split; [done | simpl; lia].
  - destruct (run_call_inv self w0 call io w Hwf Hinv)
      as (r & io1 & w1 & Hcall & Hinv1 & Hlen1 & _).
    cbn [run_body]. rewrite Hcall. destruct r as [[]|e].
    + destruct (IH io1 w1 Hinv1) as (r' & io' & w' & Hbody & Hinv' & Hlen').
      exists r', io', w'. split; [done|]. split; [done|]. simpl. lia.
    + eexists _, io1, w1. split; [done|]. split; [done|]. simpl. lia.
Qed.

(** X13.  However the body of a [with] block ends, with an exception or
    without, the client is closed after it: the [httpx.Client]s that are
    open are those that were open before, the client holds none, and at
    most one GET went out for each call of the body.  This holds for
    [with client:] and for [with linky_client(...)], which also leaves the
    world as it is when the construction fails. *)
Theorem with_block_closes_the_client `{JwtDecode} `{ApiServer} {stdlib : PyStdlib}
    (body : list client_call) (w : world) :
  world_wf w →
  (∀ self user_agent,
     ∃ r io' w', with_client self body (Http.mk user_agent None) w = (r, io', w')
       ∧ Http._client io' = None
       ∧ open_clients w' = open_clients w
       ∧ length (sent w') ≤ length (sent w) + length body)
  ∧ (∀ token prm user_agent (h : heap),
       ∃ r w', linky_client token prm user_agent body h w = (r, w')
         ∧ open_clients w' = open_clients w
         ∧ length (sent w') ≤ length (sent w) + length body
         ∧ (∀ e, LinkyClient.__init__ token prm h = Raise e →
                 r = Raise (Raised e) ∧ w' = w)).
Proof.
  intros Hwf.
  assert (∀ self user_agent,
     ∃ r io' w', with_client self body (Http.mk user_agent None) w = (r, io', w')
       ∧ Http._client io' = None
       ∧ open_clients w' = open_clients w
       ∧ length (sent w') ≤ length (sent w) + length body) as Hwith.
  { intros self user_agent. unfold with_client.
    destruct (run_body_inv self w body (Http.mk user_agent None) w Hwf
                (client_inv_start _ _ _)) as (r & io1 & w1 & Hbody & Hinv1 & Hlen).
    rewrite Hbody.
    destruct (close_spec self w io1 w1 Hwf Hinv1)
      as (io' & w' & Hclose & Hnone & _ & Hopen & _ & Hsent & _).
    rewrite Hclose. exists r, io', w'. split; [done|]. split; [done|].
    split; [done|]. by rewrite Hsent. }
  split; [exact Hwith|].
  intros token prm user_agent h. unfold linky_client.
  destruct (LinkyClient.__init__ token prm h) as [[client h']|e].
  - destruct (Hwith client user_agent) as (r & io' & w' & Hw & _ & Hopen & Hlen).
    rewrite Hw. exists r, w'. by repeat split.
  - eexists _, w. split; [done|]. split; [done|]. split; [lia|].
    by intros e' [= <-].
Qed.

Lemma with_block_closes_the_client_witness :
  ∃ r w',
    @linky_client sample_tokens sample_server strict_stdlib
      "single_prm_token" None "pylinky"
      [CallGet daily_consumption (Some (mk_date 2024 1 1)) (Some (mk_date 2024 1 4));
       CallGet daily_production None None] ∅ sample_world = (r, w')
    ∧ open_clients w' = ∅
    ∧ length (sent w') ≤ 2.
Proof.
  assert (world_wf sample_world) as Hwf by (by intros id [hs Hid]).
  destruct (with_block_closes_the_client (H := sample_tokens) (H0 := sample_server)
              (stdlib := strict_stdlib)
              [CallGet daily_consumption (Some (mk_date 2024 1 1)) (Some (mk_date 2024 1 4));
               CallGet daily_production None None] sample_world Hwf) as [_ Hlinky].
  destruct (Hlinky "single_prm_token" None "pylinky" ∅) as (r & w' & Hrun & Hopen & Hlen & _).
  exists r, w'. by repeat split.
Defined.

(** ** One [httpx.Client] for all the calls *)

Lemma run_call_get_made `{ApiServer} {stdlib : PyStdlib} self w0 data_type start end_ io w :
  client_inv self w0 io w →
  ∃ r io' w', run_call self (CallGet data_type start end_) io w = (r, io', w')
    ∧ client_inv self w0 io' w'
    ∧ (is_Some (Http._client io) → is_Some (Http._client io') ∧ made w' = made w)
    ∧ (Http._client io = None →
       (Http._client io' = None ∧ made w' = made w)
       ∨ (is_Some (Http._client io') ∧ made w' = S (made w))).
Proof.
  intros Hinv. simpl. unfold Http.get.
  destruct (resolve_dates start end_ (today w)) as [[s e]|err].
  - destruct (request_spec self data_type s e w0 io w Hinv)
      as (io' & w' & Hreq & _ & Hinv' & Hsome & _ & Hreuse & Hnew).
    rewrite Hreq. eexists _, io', w'. split; [done|]. split; [done|]. split.
    + intros Hs. by destruct (Hreuse Hs) as (-> & _ & ->).
    + intros Hn. right. split; [done | by apply Hnew].
  - eexists _, io, w. split; [done|]. split; [done|]. split; [done|]. by left.
Qed.

(** X14.  The calls of a body that does not close the client share one
    [httpx.Client]: whatever their number and their outcomes, at most one
    is made.  Closing twice is closing once. *)
Theorem calls_share_one_httpx_client `{ApiServer} {stdlib : PyStdlib}
    (self : LinkyClient.t) (user_agent : string) (body : list client_call) (w : world) :
  Forall (λ call, call ≠ CallClose) body →
  (∃ r io' w', run_body self body (Http.mk user_agent None) w = (r, io', w')
     ∧ made w ≤ made w' ≤ S (made w)
     ∧ (made w' = S (made w) ↔ is_Some (Http._client io')))
  ∧ ∀ io w1, Http.close (Http.close io w1).1 (Http.close io w1).2 = Http.close io w1.
Proof.
  intros Hbody. split.
  - assert (∀ io w1, client_inv self w io w1 →
              (Http._client io = None ∧ made w1 = made w)
              ∨ (is_Some (Http._client io) ∧ made w1 = S (made w)) →
              ∃ r io' w', run_body self body io w1 = (r, io', w')
                ∧ ((Http._client io' = None ∧ made w' = made w)
                   ∨ (is_Some (Http._client io') ∧ made w' = S (made w)))) as Hgen.
    { induction Hbody as [|call body Hcall _ IH]; intros io w1 Hinv Hstate.
      { eexists _, io, w1. by split. }
      destruct call as [data_type start end_|]; [|done].
      destruct (run_call_get_made self w data_type start end_ io w1 Hinv)
        as (r & io1 & w2 & Hrun & Hinv1 & Hkeep & Hfirst).
      assert ((Http._client io1 = None ∧ made w2 = made w)
              ∨ (is_Some (Http._client io1) ∧ made w2 = S (made w))) as Hstate1.
      { destruct Hstate as [[Hn Hm] | [Hs Hm]].
        - destruct (Hfirst Hn) as [[Hn' Hm'] | [Hs' Hm']]; [left | right];
            split; [done | lia | done | lia].
        - destruct (Hkeep Hs) as [Hs' Hm']. right. split; [done | lia]. }
      cbn [run_body]. rewrite Hrun. destruct r as [[]|e].
      - by apply IH.
      - eexists _, io1, w2. by split. }
    destruct (Hgen (Http.mk user_agent None) w (client_inv_start _ _ _))
      as (r & io' & w' & Hrun & Hstate); [by left|].
    exists r, io', w'. split; [done|].
    destruct Hstate as [[Hn Hm] | [Hs Hm]].
    + split; [lia|]. split; [lia|]. rewrite Hn. by intros [? [=]].
    + split; [lia|]. by split.
  - intros io w1. unfold Http.close.
    destruct (Http._client io) as [id|] eqn:Hid; simpl; [done | by rewrite Hid].
Qed.

Lemma calls_share_one_httpx_client_witness :
  ∃ r io' w',
    @run_body sample_server strict_stdlib multi_prm_client
      [CallGet daily_consumption None None; CallGet daily_production None None;
       CallGet consumption_max_power None None]
      (Http.mk "pylinky" None) sample_world = (r, io', w')
    ∧ made sample_world ≤ made w' ≤ S (made sample_world).
Proof.
  destruct (calls_share_one_httpx_client (H := sample_server) (stdlib := strict_stdlib)
              multi_prm_client "pylinky"
              [CallGet daily_consumption None None; CallGet daily_production None None;
               CallGet consumption_max_power None None] sample_world) as [Hone _].
  - repeat constructor; discriminate.
  - destruct Hone as (r & io' & w' & Hrun & Hmade & _). by exists r, io', w'.
Defined.

(** ** From the document to the total *)

(** X15.  The total of a mapped record is the sum of what [int] makes of
    the values of the entries, in the order of the document. *)
Theorem total_of_mapped_document {stdlib : PyStdlib}
    (d : gmap string pyval) (l : list pyval) (md : MeteringData.t) :
  MeteringData.from_dict (PDict d) = Ok md →
  d !! "interval_reading" = Some (PList l) →
  ∃ zs, Forall2 (λ r z, ∃ e raw, r = PDict e ∧ e !! "value" = Some raw ∧ py_int raw = Ok z)
          l zs
    ∧ MeteringData.total md = Zsum zs.
Proof.
  intros Hok Hir. pose proof (metering_readings d l md Hir Hok) as Hall.
  exists (map IntervalReading.value (MeteringData.interval_reading md)).
  split; [|apply total_Zsum]. clear Hir Hok.
  induction Hall as [|r rd l rds Hr _ IH]; [constructor|].
  cbn [map]. constructor; [|exact IH].
  apply reading_from_dict_Ok_inv in Hr as (e & ds & raw & -> & _ & Hraw & Hint & _).
  by exists e, raw.
Qed.

Lemma total_of_mapped_document_witness :
  ∃ md zs, MeteringData.from_dict (stdlib := strict_stdlib) daily_consumption_response
           = Ok md
    ∧ length zs = 3 ∧ MeteringData.total md = Zsum zs.
Proof.
  destruct daily_consumption_mapped as (md & Hmd & _).
  destruct (total_of_mapped_document (stdlib := strict_stdlib)
              daily_consumption_dict _ md Hmd eq_refl)
    as (zs & Hzs & Htotal).
  exists md, zs. split; [exact Hmd|]. split; [|exact Htotal].
  symmetry. exact (Forall2_length _ _ _ Hzs).
Defined.

(** ** What goes out on the wire *)

Lemma init_Ok_token `{JwtDecode} token prm (h : heap) c h' :
  LinkyClient.__init__ token prm h = Ok (c, h') → LinkyClient._token c = token.
Proof.
  unfold LinkyClient.__init__. intros (prms & _ & Hk)%bind_Ok.
  destruct (alloc prms h) as [l h0]. destruct prm as [p|].
  - destruct (str_in_list p prms); simpl in Hk; [|done]. by injection Hk as <- <-.
  - destruct prms; [done|]. by injection Hk as <- <-.
Qed.

Lemma run_call_sent `{ApiServer} {stdlib : PyStdlib} self w0 call io w :
  world_wf w0 → client_inv self w0 io w →
  ∃ r io' w' new, run_call self call io w = (r, io', w')
    ∧ client_inv self w0 io' w'
    ∧ Http._user_agent io' = Http._user_agent io
    ∧ sent w' = sent w ++ new
    ∧ Forall (sent_by self (Http._user_agent io)) new.
Proof.
  intros Hwf Hinv. destruct call as [data_type start end_|]; simpl.
  - unfold Http.get. destruct (resolve_dates start end_ (today w)) as [[s e]|err].
    + destruct (request_spec self data_type s e w0 io w Hinv)
        as (io' & w' & Hreq & Hsent & Hinv' & _ & Hua & _).
      rewrite Hreq. eexists _, io', w', [_]. split; [done|]. split; [done|].
      split; [done|]. split; [exact Hsent|].
      constructor; [|constructor]. split; [done|]. split; [done|].
      by exists data_type, s, e.
    + eexists _, io, w, []. split; [done|]. split; [done|]. split; [done|].
      split; [by rewrite app_nil_r | constructor].
  - destruct (close_spec self w0 io w Hwf Hinv)
      as (io' & w' & Hclose & _ & Hua & _ & _ & Hsent & Hinv').
    rewrite Hclose. eexists _, io', w', []. split; [done|]. split; [done|].
    split; [done|]. split; [by rewrite app_nil_r | constructor].
Qed.

Lemma run_body_sent `{ApiServer} {stdlib : PyStdlib} self w0 body io w :
  world_wf w0 → client_inv self w0 io w →
  ∃ r io' w' new, run_body self body io w = (r, io', w')
    ∧ client_inv self w0 io' w'
    ∧ sent w' = sent w ++ new
    ∧ Forall (sent_by self (Http._user_agent io)) new.
Proof.
  intros Hwf. revert io w. induction body as [|call body IH]; intros io w Hinv.
  - eexists _, io, w, []. split; [done|]. split; [done|].
    split; [by rewrite app_nil_r | constructor].
  - destruct (run_call_sent self w0 call io w Hwf Hinv)
      as (r & io1 & w1 & new1 & Hcall & Hinv1 & Hua & Hsent1 & Hnew1).
    cbn [run_body]. rewrite Hcall. destruct r as [[]|e].
    + destruct (IH io1 w1 Hinv1) as (r' & io' & w' & new2 & Hbody & Hinv' & Hsent2 & Hnew2).
      exists r', io', w', (new1 ++ new2). split; [done|]. split; [done|].
      split; [by rewrite Hsent2, Hsent1, app_assoc|].
      apply Forall_app. split; [done|]. by rewrite <- Hua.
    + eexists _, io1, w1, new1. split; [done|]. split; [done|]. by split.
Qed.

(** X16.  Every request that goes out during
    [with linky_client(token, prm=prm, user_agent=user_agent)] goes to the
    base URL with the bearer token and the user agent given, and asks for
    a PRM that belongs to the scope of the token: the one asked for when
    there is one, the first of the scope otherwise.  No request goes out
    when the construction fails. *)
Theorem requests_carry_token_and_scope_prm `{JwtDecode} `{ApiServer} {stdlib : PyStdlib}
    (token : string) (prm : option string) (user_agent : string)
    (body : list client_call) (h : heap) (w : world) :
  world_wf w →
  ∃ r w' new, linky_client token prm user_agent body h w = (r, w')
    ∧ sent w' = sent w ++ new
    ∧ (is_Raise (LinkyClient.__init__ token prm h) → new = [])
    ∧ ∀ request, request ∈ new →
        req_base_url request = BASE_URL
        ∧ req_headers request
          = [("Authorization", "Bearer " +:+ token); ("User-Agent", user_agent);
             ("Accept", "application/json")]
        ∧ ∃ scope active data_type start end_,
            _extract_prms token = Ok scope ∧ active ∈ scope
            ∧ match prm with
              | Some p => active = PStr p
              | None => head scope = Some active
              end
            ∧ req_path request = "/" +:+ DataType_str data_type
            ∧ req_params request
              = [("prm", active); ("start", PStr (date_isoformat start));
                 ("end", PStr (date_isoformat end_))].
Proof.
  intros Hwf. unfold linky_client.
  destruct (LinkyClient.__init__ token prm h) as [[client h']|e] eqn:Hinit.
  2:{ exists (Raise (Raised e)), w, []. split; [done|]. split; [by rewrite app_nil_r|].
      split; [done|]. by intros request Hin%not_elem_of_nil. }
  pose proof (init_Ok_token _ _ _ _ _ Hinit) as Htoken.
  destruct (init_Ok_inv _ _ _ _ _ Hinit) as (scope & Hx & _ & _ & Hprm).
  unfold with_client.
  destruct (run_body_sent client w body (Http.mk user_agent None) w Hwf
              (client_inv_start _ _ _)) as (r & io1 & w1 & new & Hbody & Hinv1 & Hsent & Hnew).
  rewrite Hbody.
  destruct (close_spec client w io1 w1 Hwf Hinv1)
    as (io' & w' & Hclose & _ & _ & _ & _ & Hsent' & _).
  rewrite Hclose. exists r, w', new. split; [done|].
  split; [by rewrite Hsent', Hsent|]. split; [by intros [e [=]]|].
  intros request Hin. rewrite Forall_forall in Hnew.
  destruct (Hnew request Hin) as (Hurl & Hheaders & data_type & s & e & Hpath & Hparams).
  simpl in Hheaders. rewrite Htoken in Hheaders.
  split; [done|]. split; [done|].
  exists scope, (LinkyClient.prm client), data_type, s, e.
  split; [done|]. split; [|split; [|done]].
  - destruct prm as [p|]; [by destruct Hprm as [-> ?]|].
    destruct scope as [|first rest]; [done|]. injection Hprm as ->. apply list_elem_of_here.
  - destruct prm as [p|]; [by destruct Hprm|done].
Qed.

Lemma requests_carry_token_and_scope_prm_witness :
  ∃ r w' new,
    @linky_client sample_tokens sample_server strict_stdlib
      "single_prm_token" None "pylinky"
      [CallGet daily_consumption (Some (mk_date 2024 1 1)) (Some (mk_date 2024 1 4))]
      ∅ sample_world = (r, w')
    ∧ sent w' = sent sample_world ++ new
    ∧ ∀ request, request ∈ new → req_base_url request = BASE_URL.
Proof.
  assert (world_wf sample_world) as Hwf by (by intros id [hs Hid]).
  destruct (requests_carry_token_and_scope_prm (H := sample_tokens) (H0 := sample_server)
              (stdlib := strict_stdlib)
              "single_prm_token" None "pylinky"
              [CallGet daily_consumption (Some (mk_date 2024 1 1)) (Some (mk_date 2024 1 4))]
              ∅ sample_world Hwf) as (r & w' & new & Hrun & Hsent & _ & Hall).
  exists r, w', new. split; [exact Hrun|]. split; [exact Hsent|].
  intros request Hin. by destruct (Hall request Hin).
Defined.
